(** * RaceSafe: risk analysis engine and session monitor

    A shallow embedding of the TypeScript sources
    [src/analysis/riskAnalysis.ts], [src/analysis/gridAnalysis.ts] and
    [src/scripts/racesafe.ts], and the properties of them that the
    specification states.

    Conventions of the embedding.
    - A JavaScript [number] that only ever holds an integer (incident
      points, lap numbers, car slots, counts) is a [Z].
    - A JavaScript [number] that holds a fraction (averages, timing
      fractions, scores, gaps in seconds) is an exact rational [Q]; the
      rounding error of IEEE doubles is not modelled.  Equality of such
      numbers is [Qeq].
    - Module-level [let] variables of [racesafe.ts] are the fields of one
      record that every handler receives and returns.
    - Console output, sound playback and timers are events in a trace.
    - A rejected promise or a thrown [Error] is the [inl] of a sum. *)

From Stdlib Require Import ZArith QArith Qround Qminmax Qabs Lia Lqa List Bool.
From Stdlib Require Import Ascii String Sorted Permutation.
From Equations Require Import Equations.
From stdpp Require Import base gmap strings pretty.
Import ListNotations.

Open Scope Z_scope.

(** ** JavaScript primitives used by the sources *)

Module JS.

(** [Math.round]: the nearest integer, a tie going towards plus infinity. *)
Definition Math_round (x : Q) : Z := Qfloor (x + (1 # 2)).

(** [a < b], [a <= b], [a > b] and [a >= b] on fractional numbers. *)
Definition Qltb (a b : Q) : bool := negb (Qle_bool b a).
Definition Qleb (a b : Q) : bool := Qle_bool a b.
Definition Qgtb (a b : Q) : bool := Qltb b a.
Definition Qgeb (a b : Q) : bool := Qleb b a.

(** [Math.min] and [Math.abs]. *)
Definition Math_min (a b : Q) : Q := if Qleb a b then a else b.
Definition Math_abs (a : Q) : Q := if Qltb a 0 then - a else a.

(** [n / d] for two integer-valued numbers, [d] not zero. *)
Definition Zdivide (n d : Z) : Q := inject_Z n / inject_Z d.

(** [arr.slice(0, end)] for an integer [end]: a negative [end] counts from
    the end of the array. *)
Definition slice0 {A} (l : list A) (e : Z) : list A :=
  let len := Z.of_nat (length l) in
  let k := if e <? 0 then Z.max (len + e) 0 else Z.min e len in
  firstn (Z.to_nat k) l.

(** [arr[i]] for an integer index: [undefined] is [None]. *)
Definition at_index {A} (l : list A) (i : Z) : option A :=
  if i <? 0 then None else nth_error l (Z.to_nat i).

(** [arr.sort(cmp)], a stable sort.  [after x y] says that the comparator
    is positive on [(x, y)], that is, [x] has to come after [y]. *)
Fixpoint sort_insert {A} (after : A -> A -> bool) (x : A) (l : list A) : list A :=
  match l with
  | [] => [x]
  | y :: l' => if after x y then y :: sort_insert after x l' else x :: y :: l'
  end.

Definition Array_sort {A} (after : A -> A -> bool) (l : list A) : list A :=
  fold_right (sort_insert after) [] l.

(** [arr.find(p)]. *)
Definition Array_find {A} (p : A -> bool) (l : list A) : option A := List.find p l.

(** [s.includes(sub)]. *)
Definition includes (s sub : string) : bool :=
  match String.index 0 sub s with Some _ => true | None => false end.

(** [s.toLowerCase()] on ASCII text. *)
Definition lower_ascii (c : ascii) : ascii :=
  let n := nat_of_ascii c in
  if ((65 <=? n) && (n <=? 90))%nat then ascii_of_nat (n + 32) else c.

Fixpoint toLowerCase (s : string) : string :=
  match s with
  | EmptyString => EmptyString
  | String c s' => String (lower_ascii c) (toLowerCase s')
  end.

(** The decimal text of an integer, as a template literal prints it. *)
Definition show (z : Z) : string := pretty z.

(** [x.toFixed(1)] (for magnitudes below 1e21). *)
Definition toFixed1 (x : Q) : string :=
  let n := Qfloor (Math_abs x * 10 + (1 # 2)) in
  ((if Qltb x 0 then "-" else "") +:+ show (n / 10) +:+ "." +:+ show (n mod 10))%string.

(** [s || fallback] for a string: the empty string is falsy. *)
Definition str_or (s fallback : string) : string :=
  match s with EmptyString => fallback | _ => s end.

End JS.

(** ** riskAnalysis.ts *)

Module RiskAnalysis.
Import JS.

Record IncidentTiming := {
  lap1_2 : Q;
  midRace : Q;
  finalLap : Q
}.

Record IncidentTypeBreakdown := {
  contact4x : Z;
  lostControl2x : Z;
  offTrack1x : Z;
  total : Z
}.

Inductive RiskLevel := LOW | MODERATE | HIGH.
Inductive SRTrend := improving | stable | declining.

(** The fields of an [IRacingRecentRace] that the analysis reads;
    [sessionStartTime] is the instant [new Date(sessionStartTime).getTime()]
    in milliseconds. *)
Record IRacingRecentRace := {
  subsessionId : Z;
  sessionStartTime : Z;
  incidents : Z;
  oldSubLevel : Z;
  newSubLevel : Z
}.

(** The fields of an [IRacingLapData] that the analysis reads; [incident]
    is cumulative up to this lap. *)
Record IRacingLapData := {
  lapNumber : Z;
  incident : Z
}.

Record License := {
  categoryId : Z;
  safetyRating : Q;
  irating : Z;
  groupName : string
}.

Record IRacingDriverInfo := {
  displayName : string;
  licenses : list License
}.

Record DriverRiskProfile := {
  p_custId : Z;
  p_displayName : string;
  p_irating : Z;
  p_licenseClass : string;
  p_sr : Q;
  avgIncidentsPerRace : Q;
  totalRacesAnalyzed : Z;
  recentRaces : Z;
  recentAvgIncidents : Q;
  lastRaceIncidents : Z;
  incidentTiming : IncidentTiming;
  incidentTypes : IncidentTypeBreakdown;
  riskScore : Q;
  srTrend : SRTrend;
  riskLevel : RiskLevel;
  keyPatterns : list string;
  recommendation : string
}.

(** What [IRacingClient.fetchData] throws. *)
Inductive FetchError :=
| NotAuthenticated
| TokenExpired
| ApiRequestFailed (detail : string).

(** What [analyzeDriver] throws: its own error, which names the driver,
    or the error of a fetch that it does not catch. *)
Inductive Error :=
| NoRecentRaces (custId : Z)
| Fetch (e : FetchError).

Definition error_message (e : Error) : string :=
  match e with
  | NoRecentRaces custId => "No recent races found for driver " +:+ show custId
  | Fetch NotAuthenticated => "Not authenticated. Call authenticate() first."
  | Fetch TokenExpired => "Token expired and refresh failed. Re-authenticate required."
  | Fetch (ApiRequestFailed detail) => "API request failed: " +:+ detail
  end.

(** The historical-data client, as the replies it gives.
    [searchRaceResults] catches every failure itself and then returns the
    empty array; [getDriverInfo] catches and returns [null]; the other two
    calls can throw. *)
Record IRacingClient := {
  searchRaceResults : Z -> Z -> list IRacingRecentRace;
  getRecentRaces : Z -> FetchError + list IRacingRecentRace;
  getLapData : Z -> Z -> FetchError + list IRacingLapData;
  getDriverInfo : Z -> option IRacingDriverInfo
}.

(** The value [{ x4, x2, x1 }] returned by [estimateIncidentTypes]. *)
Record Estimate := { x4 : Z; x2 : Z; x1 : Z }.

(** [while (remaining >= k) { count++; remaining -= k; }] for a positive
    step [k]; returns the final [(count, remaining)]. *)
Equations? while_sub (k : positive) (count remaining : Z) : Z * Z
  by wf (Z.to_nat remaining) lt :=
  while_sub k count remaining with Z_le_dec (Zpos k) remaining := {
    | left _ => while_sub k (count + 1) (remaining - Zpos k)
    | right _ => (count, remaining)
  }.
Proof. lia. Qed.

Definition estimateIncidentTypes (lapDelta : Z) : Estimate :=
  if lapDelta <=? 0 then {| x4 := 0; x2 := 0; x1 := 0 |}
  else
    let remaining := lapDelta in
    let '(x4, remaining) := while_sub 4 0 remaining in
    let '(x2, remaining) := while_sub 2 0 remaining in
    {| x4 := x4; x2 := x2; x1 := remaining |}.

(** The six counters of [analyzeIncidentTiming]. *)
Record Counters := {
  lap1_2Incidents : Z;
  midRaceIncidents : Z;
  finalLapIncidents : Z;
  c_contact4x : Z;
  c_lostControl2x : Z;
  c_offTrack1x : Z
}.

Definition no_incidents : Counters :=
  {| lap1_2Incidents := 0; midRaceIncidents := 0; finalLapIncidents := 0;
     c_contact4x := 0; c_lostControl2x := 0; c_offTrack1x := 0 |}.

(** The body of the inner loop for one pair of adjacent laps. *)
Definition count_lap (totalLaps : Z) (prev cur : IRacingLapData) (c : Counters)
  : Counters :=
  let lapIncidents := incident cur - incident prev in
  if lapIncidents <=? 0 then c
  else
    let lapNumber := lapNumber cur in
    let types := estimateIncidentTypes lapIncidents in
    {| lap1_2Incidents :=
         if lapNumber <=? 2 then lap1_2Incidents c + lapIncidents
         else lap1_2Incidents c;
       finalLapIncidents :=
         if lapNumber <=? 2 then finalLapIncidents c
         else if lapNumber >=? totalLaps - 1 then finalLapIncidents c + lapIncidents
         else finalLapIncidents c;
       midRaceIncidents :=
         if lapNumber <=? 2 then midRaceIncidents c
         else if lapNumber >=? totalLaps - 1 then midRaceIncidents c
         else midRaceIncidents c + lapIncidents;
       c_contact4x := c_contact4x c + x4 types;
       c_lostControl2x := c_lostControl2x c + x2 types;
       c_offTrack1x := c_offTrack1x c + x1 types |}.

(** [for (let i = 1; i < lapData.length; i++)]: [prev] is [lapData[i-1]]. *)
Fixpoint count_laps (totalLaps : Z) (prev : IRacingLapData)
  (rest : list IRacingLapData) (c : Counters) : Counters :=
  match rest with
  | [] => c
  | cur :: rest' => count_laps totalLaps cur rest' (count_lap totalLaps prev cur c)
  end.

(** One iteration of [for (const race of races)]; a throwing [getLapData]
    and an empty lap list both skip the race. *)
Definition count_race (client : IRacingClient) (custId : Z)
  (c : Counters) (race : IRacingRecentRace) : Counters :=
  match getLapData client (subsessionId race) custId with
  | inl _ => c
  | inr [] => c
  | inr (first :: rest as lapData) =>
      count_laps (Z.of_nat (length lapData)) first rest c
  end.

Record IncidentAnalysisResult := {
  timing : IncidentTiming;
  types : IncidentTypeBreakdown
}.

(** The last part of [analyzeIncidentTiming]: from the counters to the
    result. *)
Definition timing_of_counters (c : Counters) : IncidentTiming :=
  let totalTiming := lap1_2Incidents c + midRaceIncidents c + finalLapIncidents c in
  if totalTiming =? 0
  then {| lap1_2 := 0.33; midRace := 0.34; finalLap := 0.33 |}
  else
    {| lap1_2 := inject_Z (Math_round (Zdivide (lap1_2Incidents c) totalTiming * 100)) / 100;
       midRace := inject_Z (Math_round (Zdivide (midRaceIncidents c) totalTiming * 100)) / 100;
       finalLap := inject_Z (Math_round (Zdivide (finalLapIncidents c) totalTiming * 100)) / 100 |}.

Definition types_of_counters (c : Counters) : IncidentTypeBreakdown :=
  {| contact4x := c_contact4x c;
     lostControl2x := c_lostControl2x c;
     offTrack1x := c_offTrack1x c;
     total := c_contact4x c + c_lostControl2x c + c_offTrack1x c |}.

Definition analyzeIncidentTiming (client : IRacingClient)
  (races : list IRacingRecentRace) (custId : Z) : IncidentAnalysisResult :=
  let c := fold_left (count_race client custId) races no_incidents in
  {| timing := timing_of_counters c; types := types_of_counters c |}.

Definition calculateSRTrend (races : list IRacingRecentRace) : SRTrend :=
  if (length races <? 3)%nat then stable
  else
    let recentRaces := slice0 races 5 in
    let srChanges := map (fun race => newSubLevel race - oldSubLevel race) recentRaces in
    let avgChange :=
      Zdivide (fold_left Z.add srChanges 0) (Z.of_nat (length srChanges)) in
    if Qgtb avgChange 5 then improving
    else if Qltb avgChange (-5) then declining
    else stable.

(** The first half of [calculateRiskScore]: the base score. *)
Definition baseScore (avgIncidents : Q) : Q :=
  (if Qleb avgIncidents 2 then avgIncidents * 1.5
   else if Qleb avgIncidents 5 then 3 + (avgIncidents - 2) * 1.0
   else 6 + Math_min ((avgIncidents - 5) * 0.8) 4)%Q.

(** The second half: the two timing adjustments, added to 0 in turn. *)
Definition timingModifier (timing : IncidentTiming) : Q :=
  (let timingModifier := 0 in
   let timingModifier :=
     if Qgtb (lap1_2 timing) 0.4 then timingModifier + 1.5
     else if Qgtb (lap1_2 timing) 0.3 then timingModifier + 0.5
     else timingModifier in
   let timingModifier :=
     if Qgtb (finalLap timing) 0.3 then timingModifier + 1.0
     else if Qgtb (finalLap timing) 0.25 then timingModifier + 0.5
     else timingModifier in
   timingModifier)%Q.

Definition calculateRiskScore (avgIncidents : Q) (timing : IncidentTiming) : Q :=
  (let finalScore := Math_min (baseScore avgIncidents + timingModifier timing) 10.0 in
   inject_Z (Math_round (finalScore * 10)) / 10)%Q.

Definition classifyRisk (riskScore : Q) : RiskLevel :=
  if Qltb riskScore 4 then LOW
  else if Qltb riskScore 7 then MODERATE
  else HIGH.

(** [Math.round(x * 100)] inside a template literal. *)
Definition percent (x : Q) : string := show (Math_round (x * 100)%Q).

Definition identifyPatterns (avgIncidents : Q) (timing : IncidentTiming)
  (srTrend : SRTrend) (incidentTypes : IncidentTypeBreakdown) : list string :=
  (if Qgeb avgIncidents 8
   then ["Very high incident rate: " +:+ toFixed1 avgIncidents +:+ " avg per race"]
   else if Qgeb avgIncidents 6
   then ["High incident rate: " +:+ toFixed1 avgIncidents +:+ " avg per race"]
   else if Qleb avgIncidents 2
   then ["Clean racer: " +:+ toFixed1 avgIncidents +:+ " avg incidents per race"]
   else [])
  ++
  (if Qgeb (lap1_2 timing) 0.5
   then ["T1 aggressor: " +:+ percent (lap1_2 timing) +:+ "% of incidents in lap 1-2"]
   else if Qgeb (lap1_2 timing) 0.4
   then ["Lap 1 risk: " +:+ percent (lap1_2 timing) +:+ "% of incidents early"]
   else [])
  ++
  (if Qgeb (finalLap timing) 0.4
   then ["Final lap desperado: " +:+ percent (finalLap timing)
           +:+ "% of incidents in final lap"]
   else if Qgeb (finalLap timing) 0.3
   then ["Late race risk: " +:+ percent (finalLap timing)
           +:+ "% of incidents near finish"]
   else [])
  ++
  match srTrend with
  | declining => ["Declining SR trend over recent races"]
  | improving => ["Improving SR trend - getting cleaner"]
  | stable => []
  end
  ++
  (if total incidentTypes >? 0 then
     let contactRate := Zdivide (contact4x incidentTypes) (total incidentTypes) in
     let lostControlRate := Zdivide (lostControl2x incidentTypes) (total incidentTypes) in
     (if Qgeb contactRate 0.5 && (contact4x incidentTypes >=? 3)
      then ["Contact-prone: " +:+ show (contact4x incidentTypes)
              +:+ " heavy contacts (4x) - " +:+ percent contactRate +:+ "% of incidents"]
      else if contact4x incidentTypes >=? 5
      then ["High contact count: " +:+ show (contact4x incidentTypes)
              +:+ " heavy contacts (4x)"]
      else [])
     ++
     (if Qgeb lostControlRate 0.5 && (lostControl2x incidentTypes >=? 3)
      then ["Car control issues: " +:+ show (lostControl2x incidentTypes)
              +:+ " spins/wall hits (2x) - " +:+ percent lostControlRate
              +:+ "% of incidents"]
      else [])
     ++
     (if offTrack1x incidentTypes >=? 10
      then ["Track limit issues: " +:+ show (offTrack1x incidentTypes)
              +:+ " off-tracks (1x)"]
      else [])
   else []).

Definition generateRecommendation (riskLevel : RiskLevel) (patterns : list string)
  : string :=
  let isT1Aggressor :=
    existsb (fun p => includes p "T1" || includes p "Lap 1") patterns in
  let isFinalLapRisk :=
    existsb (fun p => includes p "final lap" || includes p "Late race") patterns in
  match riskLevel with
  | HIGH =>
      if isT1Aggressor
      then "Avoid close racing in turn 1 - let them go, collect later"
      else if isFinalLapRisk
      then "Be extra cautious in final laps - maintain safe distance"
      else "Avoid wheel-to-wheel battles - let them pass if pressured"
  | MODERATE =>
      if isT1Aggressor
      then "Exercise caution at race start, safe to race mid-race"
      else "Reasonable to race with - stay alert but not overly cautious"
  | LOW => "Safe to race wheel-to-wheel - clean driver"
  end.

Definition msPerDay : Z := 24 * 60 * 60 * 1000.

Definition sum_incidents (races : list IRacingRecentRace) : Z :=
  fold_left (fun sum race => sum + incidents race) races 0.

(** The lookup at the head of [analyzeDriver]: the date-range search,
    sorted most recent first, and, when that is empty, the recent-races
    endpoint, whose failure is thrown on. *)
Definition lookupRaces (client : IRacingClient) (now custId : Z)
  : FetchError + list IRacingRecentRace :=
  let thirtyDaysAgo := now - 30 * msPerDay in
  let races := searchRaceResults client custId thirtyDaysAgo in
  let races :=
    Array_sort (fun a b => sessionStartTime b - sessionStartTime a >? 0) races in
  match races with
  | [] => getRecentRaces client custId
  | _ => inr races
  end.

(** [analyzeDriver(client, custId, numRaces)], called at the instant [now]
    (the value of [new Date()], in milliseconds). *)
Definition analyzeDriver (client : IRacingClient) (now custId numRaces : Z)
  : Error + DriverRiskProfile :=
  match lookupRaces client now custId with
  | inl e => inl (Fetch e)
  | inr races =>
    let totalRacesIn30Days := Z.of_nat (length races) in
    let racesToAnalyze := slice0 races numRaces in
    match racesToAnalyze with
    | [] => inl (NoRecentRaces custId)
    | _ =>
      let driverInfo := getDriverInfo client custId in
      let displayName :=
        str_or (from_option displayName "" driverInfo) ("Driver " +:+ show custId) in
      let totalIncidents := sum_incidents races in
      let avgIncidents := Zdivide totalIncidents (Z.of_nat (length races)) in
      let sevenDaysAgo := now - 7 * msPerDay in
      let recentRacesData :=
        List.filter (fun race => sessionStartTime race >=? sevenDaysAgo) races in
      let recentRaceCount := Z.of_nat (length recentRacesData) in
      let recentAvgIncidents :=
        if recentRaceCount >? 0
        then Zdivide (sum_incidents recentRacesData) recentRaceCount
        else 0%Q in
      let lastRaceIncidents :=
        match races with race0 :: _ => incidents race0 | [] => 0 end in
      let incidentAnalysis := analyzeIncidentTiming client racesToAnalyze custId in
      let incidentTiming := timing incidentAnalysis in
      let incidentTypes := types incidentAnalysis in
      let srTrend := calculateSRTrend racesToAnalyze in
      let riskScore := calculateRiskScore avgIncidents incidentTiming in
      let riskLevel := classifyRisk riskScore in
      let keyPatterns := identifyPatterns avgIncidents incidentTiming srTrend incidentTypes in
      let recommendation := generateRecommendation riskLevel keyPatterns in
      let all_licenses := from_option licenses [] driverInfo in
      let sportsCarLicense := Array_find (fun l => categoryId l =? 5) all_licenses in
      let formulaLicense := Array_find (fun l => categoryId l =? 6) all_licenses in
      let anyLicenseWithIrating := Array_find (fun l => irating l >? 0) all_licenses in
      let license :=
        match sportsCarLicense, formulaLicense with
        | Some l, _ => Some l
        | None, Some l => Some l
        | None, None => anyLicenseWithIrating
        end in
      inr {| p_custId := custId;
             p_displayName := displayName;
             p_irating := from_option irating 0 license;
             p_licenseClass := str_or (from_option groupName "" license) "Unknown";
             p_sr := from_option safetyRating 0%Q license;
             avgIncidentsPerRace := (inject_Z (Math_round (avgIncidents * 10)) / 10)%Q;
             totalRacesAnalyzed := totalRacesIn30Days;
             recentRaces := recentRaceCount;
             recentAvgIncidents := (inject_Z (Math_round (recentAvgIncidents * 10)) / 10)%Q;
             lastRaceIncidents := lastRaceIncidents;
             incidentTiming := incidentTiming;
             incidentTypes := incidentTypes;
             riskScore := riskScore;
             srTrend := srTrend;
             riskLevel := riskLevel;
             keyPatterns := keyPatterns;
             recommendation := recommendation |}
    end
  end.

End RiskAnalysis.

(** ** gridAnalysis.ts *)

Module GridAnalysis.
Import JS.

Record UserProfile := {
  custId : option Z;
  sr : Q;
  srGoal : Q;
  irating : Z;
  startingPosition : option Z;
  goalDescription : string
}.

Inductive Recommendation := CONSERVATIVE | MODERATE | AGGRESSIVE.

Definition generateGridRecommendation (overallRisk : Q) (highRiskCount : Z)
  (userProfile : UserProfile) : Recommendation :=
  let srBuffer := (sr userProfile - srGoal userProfile)%Q in
  let srAtRisk := Qltb srBuffer 0.2 in
  if srAtRisk && Qgeb overallRisk 5 then CONSERVATIVE
  else if Qgeb overallRisk 7 || (highRiskCount >=? 5) then CONSERVATIVE
  else if Qgeb overallRisk 5 || (highRiskCount >=? 3) then MODERATE
  else AGGRESSIVE.

(** The fields of the results document that [analyzeRaceGrid] reads; an
    absent field is [None], an absent array the empty list. *)
Record DriverResult := {
  cust_id : Z;
  finish_position : option Z;
  starting_position : option Z;
  display_name : option string
}.

Record SessionResult := {
  simsession_type : Z;
  results : list DriverResult
}.

Record RaceResults := {
  series_name : option string;
  track_name : option string;
  event_strength_of_field : option Z;
  session_results : list SessionResult
}.

Record GridEntry := {
  position : Z;
  g_custId : Z;
  displayName : string;
  riskProfile : option RiskAnalysis.DriverRiskProfile
}.

Record Analysis := {
  overallRiskScore : Q;
  highRiskDrivers : Z;
  cleanDrivers : Z;
  recommendation : Recommendation
}.

Record RaceSessionAnalysis := {
  sessionId : Z;
  series : string;
  track : string;
  strengthOfField : Z;
  grid : list GridEntry;
  analysis : Analysis
}.

(** What [analyzeRaceGrid] throws: its own error, or the one of the
    results fetch. *)
Inductive GridError :=
| CouldNotFetchResults (sessionId : Z)
| ResultsFetch (e : RiskAnalysis.FetchError).

(** The lines that the loop over the drivers prints. *)
Inductive GridLog :=
| LogAnalyzing (drivers : Z)
| LogYou (position : Z) (displayName : string)
| LogHighRisk (position : Z) (displayName : string) (riskScore : Q)
| LogClean (position : Z) (displayName : string) (riskScore : Q)
| LogModerate (position : Z) (displayName : string) (riskScore : Q)
| LogFailed (position : Z) (displayName : string).

(** [a || b] for a number that may be absent: 0 is falsy. *)
Definition num_or (a : option Z) (b : Z) : Z :=
  match a with
  | Some 0 | None => b
  | Some n => n
  end.

(** The variables that the loop over the drivers updates. *)
Record GridLoop := {
  l_grid : list GridEntry;
  l_highRiskCount : Z;
  l_cleanCount : Z;
  l_totalRiskScore : Q;
  l_analyzedCount : Z;
  l_log : list GridLog
}.

Definition grid_start : GridLoop :=
  {| l_grid := []; l_highRiskCount := 0; l_cleanCount := 0;
     l_totalRiskScore := 0; l_analyzedCount := 0; l_log := [] |}.

(** One iteration of [for (const driver of drivers)]. *)
Definition grid_step (client : RiskAnalysis.IRacingClient) (now : Z)
  (userProfile : UserProfile) (l : GridLoop) (driver : DriverResult) : GridLoop :=
  let custId := cust_id driver in
  let position :=
    num_or (finish_position driver)
      (num_or (starting_position driver) (Z.of_nat (length (l_grid l)) + 1)) in
  let displayName :=
    str_or (default "" (display_name driver)) ("Driver " +:+ show custId) in
  let entry profile :=
    {| position := position; g_custId := custId; displayName := displayName;
       riskProfile := profile |} in
  if match GridAnalysis.custId userProfile with
     | Some mine => negb (mine =? 0) && (custId =? mine)
     | None => false
     end
  then
    {| l_grid := l_grid l ++ [entry None];
       l_highRiskCount := l_highRiskCount l;
       l_cleanCount := l_cleanCount l;
       l_totalRiskScore := l_totalRiskScore l;
       l_analyzedCount := l_analyzedCount l;
       l_log := l_log l ++ [LogYou position displayName] |}
  else
    match RiskAnalysis.analyzeDriver client now custId 10 with
    | inr riskProfile =>
        let score := RiskAnalysis.riskScore riskProfile in
        {| l_grid := l_grid l ++ [entry (Some riskProfile)];
           l_highRiskCount :=
             match RiskAnalysis.riskLevel riskProfile with
             | RiskAnalysis.HIGH => l_highRiskCount l + 1
             | _ => l_highRiskCount l
             end;
           l_cleanCount :=
             match RiskAnalysis.riskLevel riskProfile with
             | RiskAnalysis.LOW => l_cleanCount l + 1
             | _ => l_cleanCount l
             end;
           l_totalRiskScore := (l_totalRiskScore l + score)%Q;
           l_analyzedCount := l_analyzedCount l + 1;
           l_log :=
             l_log l ++
             [match RiskAnalysis.riskLevel riskProfile with
              | RiskAnalysis.HIGH => LogHighRisk position displayName score
              | RiskAnalysis.LOW => LogClean position displayName score
              | RiskAnalysis.MODERATE => LogModerate position displayName score
              end] |}
    | inl _ =>
        {| l_grid := l_grid l ++ [entry None];
           l_highRiskCount := l_highRiskCount l;
           l_cleanCount := l_cleanCount l;
           l_totalRiskScore := l_totalRiskScore l;
           l_analyzedCount := l_analyzedCount l;
           l_log := l_log l ++ [LogFailed position displayName] |}
    end.

(** The drivers of the race session: the first session of type 6, or
    else the first session, or else none. *)
Definition race_drivers (raceResults : RaceResults) : list DriverResult :=
  let sessionResults := session_results raceResults in
  let raceSession :=
    match Array_find (fun s => simsession_type s =? 6) sessionResults with
    | Some s => Some s
    | None => head sessionResults
    end in
  match raceSession with
  | Some s => results s
  | None => []
  end.

(** [analyzeRaceGrid(client, sessionId, userProfile)] at the instant
    [now]; [getRaceResults] is the reply of the client to the request for
    the results of the session. *)
Definition analyzeRaceGrid (client : RiskAnalysis.IRacingClient)
  (getRaceResults : Z -> RiskAnalysis.FetchError + option RaceResults)
  (now sessionId : Z) (userProfile : UserProfile)
  : GridError + (RaceSessionAnalysis * list GridLog) :=
  match getRaceResults sessionId with
  | inl e => inl (ResultsFetch e)
  | inr None => inl (CouldNotFetchResults sessionId)
  | inr (Some raceResults) =>
      let series := str_or (default "" (series_name raceResults)) "Unknown Series" in
      let track := str_or (default "" (track_name raceResults)) "Unknown Track" in
      let sof := num_or (event_strength_of_field raceResults) 0 in
      let drivers := race_drivers raceResults in
      let l := fold_left (grid_step client now userProfile) drivers grid_start in
      let overallRiskScore :=
        if l_analyzedCount l >? 0
        then (inject_Z
                (Math_round
                   (l_totalRiskScore l / inject_Z (l_analyzedCount l) * 10)) / 10)%Q
        else 5%Q in
      let recommendation :=
        generateGridRecommendation overallRiskScore (l_highRiskCount l) userProfile in
      inr ({| sessionId := sessionId;
              series := series;
              track := track;
              strengthOfField := sof;
              grid := l_grid l;
              analysis :=
                {| overallRiskScore := overallRiskScore;
                   highRiskDrivers := l_highRiskCount l;
                   cleanDrivers := l_cleanCount l;
                   recommendation := recommendation |} |},
           LogAnalyzing (Z.of_nat (length drivers)) :: l_log l)
  end.

Definition getRiskLabel (score : Q) : string :=
  if Qgeb score 7 then "HIGH RISK RACE"
  else if Qgeb score 5 then "MODERATE RISK"
  else "LOW RISK".

End GridAnalysis.

(** ** racesafe.ts *)

Module Racesafe.
Import JS.

(** *** Configuration *)

Record AlertSwitches := { danger : bool; incident : bool }.

Record AlertConfig := {
  practice : AlertSwitches;
  qualify : AlertSwitches;
  race : AlertSwitches;
  warmup : AlertSwitches
}.

(** [process.env.NAME?.toLowerCase() !== 'off'], for the environment
    [env] of the process. *)
Definition switch_on (env : gmap string string) (name : string) : bool :=
  match env !! name with
  | Some v => negb (String.eqb (toLowerCase v) "off")
  | None => true
  end.

Definition alertConfig (env : gmap string string) : AlertConfig :=
  {| practice := {| danger := switch_on env "ALERTS_PRACTICE_DANGER";
                    incident := switch_on env "ALERTS_PRACTICE_INCIDENT" |};
     qualify := {| danger := switch_on env "ALERTS_QUALIFY_DANGER";
                   incident := switch_on env "ALERTS_QUALIFY_INCIDENT" |};
     race := {| danger := switch_on env "ALERTS_RACE_DANGER";
                incident := switch_on env "ALERTS_RACE_INCIDENT" |};
     warmup := {| danger := switch_on env "ALERTS_WARMUP_DANGER";
                  incident := switch_on env "ALERTS_WARMUP_INCIDENT" |} |}.

(** *** Types *)

Inductive AlertType := Danger | Warning | Incident | Clear.
Inductive SessionPhase := WAITING | CONNECTING | PRE_RACE | RACING | POST_RACE.
Inductive SessionType := Practice | Qualify | Race | Warmup.
Inductive Direction := AHEAD | BEHIND.

Record SessionDriver := {
  sd_carIdx : Z;
  sd_custId : Z;
  sd_name : string;
  sd_iRating : Z;
  sd_licenseLevel : string;
  sd_carNumber : string
}.

Record IncidentTypes := {
  contact4x : Z;
  lostControl2x : Z;
  offTrack1x : Z;
  total : Z
}.

Record AnalyzedDriver := {
  carIdx : Z;
  carNumber : string;
  custId : Z;
  name : string;
  sr : string;
  licenseClass : string;
  iRating : Z;
  totalRaces : Z;
  recentRaces : Z;
  avgIncidents : Q;
  recentAvgIncidents : Q;
  lastRaceIncidents : Z;
  incidentTypes : IncidentTypes;
  riskScore : Q;
  riskLevel : string;
  patterns : list string;
  isMe : bool
}.

(** [gap] is [None] when the computed number is [NaN] (a car slot with no
    entry in the position array); every comparison with it is false. *)
Record NearbyDriver := {
  driver : AnalyzedDriver;
  gap : option Q;
  direction : Direction;
  sessionIncidents : Z
}.

(** The three system sounds that [playAlert] starts through [exec]. *)
Inductive Sound := ExclamationTwice | Beep | Asterisk.

(** What a handler does to the outside: a trace of these. *)
Inductive Event :=
| Exec (command : Sound)
| Bell
| LogInfo (message : string)
| ClearInterval (timer : Z)
| CheckeredFlag (incidents : Z)
| IncidentFlash (newIncidents sessionTotal : Z)
| StatusLine (lap position totalCars incidents : Z)
    (closestAhead closestBehind : option NearbyDriver)
| DangerBanner (threat : NearbyDriver).

(** *** Global state *)

Record State := {
  client : option RiskAnalysis.IRacingClient;
  authenticated : bool;
  sessionDrivers : list (Z * SessionDriver);
  analyzedDrivers : list (Z * AnalyzedDriver);
  myCarIdx : Z;
  currentPhase : SessionPhase;
  preRaceAnalysisComplete : bool;
  currentSessionType : SessionType;
  driversInDangerZone : gset Z;
  tokenRefreshInterval : option Z;
  trackName : string;
  seriesName : string;
  mySessionIncidents : Z;
  lastKnownIncidents : Z;
  driverSessionIncidents : gmap Z Z;
  iracingSDK : option Z;
  isRunning : bool;
  isServiceMode : bool
}.

Definition DANGER_ZONE_THRESHOLD : Q := 1.5.

(** The values the module-level declarations give the variables. *)
Definition initial_state : State :=
  {| client := None;
     authenticated := false;
     sessionDrivers := [];
     analyzedDrivers := [];
     myCarIdx := -1;
     currentPhase := WAITING;
     preRaceAnalysisComplete := false;
     currentSessionType := Race;
     driversInDangerZone := ∅;
     tokenRefreshInterval := None;
     trackName := "";
     seriesName := "";
     mySessionIncidents := 0;
     lastKnownIncidents := -1;
     driverSessionIncidents := ∅;
     iracingSDK := None;
     isRunning := true;
     isServiceMode := false |}.

(** Assignments to single variables. *)
Definition set_currentPhase (v : SessionPhase) (s : State) : State :=
  {| client := client s; authenticated := authenticated s;
     sessionDrivers := sessionDrivers s; analyzedDrivers := analyzedDrivers s;
     myCarIdx := myCarIdx s; currentPhase := v;
     preRaceAnalysisComplete := preRaceAnalysisComplete s;
     currentSessionType := currentSessionType s;
     driversInDangerZone := driversInDangerZone s;
     tokenRefreshInterval := tokenRefreshInterval s;
     trackName := trackName s; seriesName := seriesName s;
     mySessionIncidents := mySessionIncidents s;
     lastKnownIncidents := lastKnownIncidents s;
     driverSessionIncidents := driverSessionIncidents s;
     iracingSDK := iracingSDK s; isRunning := isRunning s;
     isServiceMode := isServiceMode s |}.

Definition set_incidents (session lastKnown : Z) (s : State) : State :=
  {| client := client s; authenticated := authenticated s;
     sessionDrivers := sessionDrivers s; analyzedDrivers := analyzedDrivers s;
     myCarIdx := myCarIdx s; currentPhase := currentPhase s;
     preRaceAnalysisComplete := preRaceAnalysisComplete s;
     currentSessionType := currentSessionType s;
     driversInDangerZone := driversInDangerZone s;
     tokenRefreshInterval := tokenRefreshInterval s;
     trackName := trackName s; seriesName := seriesName s;
     mySessionIncidents := session;
     lastKnownIncidents := lastKnown;
     driverSessionIncidents := driverSessionIncidents s;
     iracingSDK := iracingSDK s; isRunning := isRunning s;
     isServiceMode := isServiceMode s |}.

Definition set_driversInDangerZone (v : gset Z) (s : State) : State :=
  {| client := client s; authenticated := authenticated s;
     sessionDrivers := sessionDrivers s; analyzedDrivers := analyzedDrivers s;
     myCarIdx := myCarIdx s; currentPhase := currentPhase s;
     preRaceAnalysisComplete := preRaceAnalysisComplete s;
     currentSessionType := currentSessionType s;
     driversInDangerZone := v;
     tokenRefreshInterval := tokenRefreshInterval s;
     trackName := trackName s; seriesName := seriesName s;
     mySessionIncidents := mySessionIncidents s;
     lastKnownIncidents := lastKnownIncidents s;
     driverSessionIncidents := driverSessionIncidents s;
     iracingSDK := iracingSDK s; isRunning := isRunning s;
     isServiceMode := isServiceMode s |}.

(** *** State reset *)

Definition resetSessionState (s : State) : State * list Event :=
  ({| client := client s;
      authenticated := authenticated s;
      sessionDrivers := [];
      analyzedDrivers := [];
      driverSessionIncidents := ∅;
      driversInDangerZone := ∅;
      myCarIdx := -1;
      currentPhase := WAITING;
      currentSessionType := Race;
      preRaceAnalysisComplete := false;
      trackName := "";
      seriesName := "";
      mySessionIncidents := 0;
      lastKnownIncidents := -1;
      tokenRefreshInterval := None;
      iracingSDK := iracingSDK s;
      isRunning := isRunning s;
      isServiceMode := isServiceMode s |},
   LogInfo "Resetting session state for next connection"
   :: match tokenRefreshInterval s with
      | Some timer => [ClearInterval timer]
      | None => []
      end).

(** *** Audio alert system, telemetry handler and status display *)

(** A telemetry update; an array the update lacks is the empty list. *)
Record Telemetry := {
  SessionFlags : option Z;
  CarIdxLap : list Z;
  CarIdxLapDistPct : list Q;
  CarIdxPosition : list Z;
  CarIdxClassPosition : list Z;
  CarIdxOnPitRoad : list bool;
  PlayerCarMyIncidentCount : option Z
}.

(** Comparisons of a number that may be [NaN] with a constant. *)
Definition num_ltb (a : option Q) (b : Q) : bool :=
  match a with Some x => Qltb x b | None => false end.
Definition num_gtb (a : option Q) (b : Q) : bool :=
  match a with Some x => Qgtb x b | None => false end.

Section Monitor.

(** The constant [alertConfig], and whether [exec] throws on a command. *)
Variable config : AlertConfig.
Variable execThrows : Sound -> bool.

(** [alertConfig[currentSessionType]]. *)
Definition sessionConfigOf (t : SessionType) : AlertSwitches :=
  match t with
  | Practice => practice config
  | Qualify => qualify config
  | Race => race config
  | Warmup => warmup config
  end.

Definition playAlert (s : State) (type : AlertType) : list Event :=
  let sessionConfig := sessionConfigOf (currentSessionType s) in
  if match type with Danger => negb (danger sessionConfig) | _ => false end then []
  else if match type with Incident => negb (incident sessionConfig) | _ => false end
  then []
  else
    let command :=
      match type with
      | Danger => Some ExclamationTwice
      | Warning => Some Beep
      | Incident => Some Asterisk
      | Clear => None
      end in
    match command with
    | None => []
    | Some command =>
        Exec command
        :: (if execThrows command
            then if isServiceMode s then [] else [Bell]
            else [])
    end.

(** One iteration of the alert loop of [displayRaceStatus] over
    [highRiskNearby]; the accumulator is [currentlyInZone] and the trace. *)
Definition danger_step (s : State) (acc : gset Z * list Event)
  (threat : NearbyDriver) : gset Z * list Event :=
  let '(currentlyInZone, out) := acc in
  if num_ltb (gap threat) DANGER_ZONE_THRESHOLD then
    let currentlyInZone := currentlyInZone ∪ {[ carIdx (driver threat) ]} in
    if bool_decide (carIdx (driver threat) ∈ driversInDangerZone s)
    then (currentlyInZone, out)
    else (currentlyInZone, out ++ playAlert s Danger ++ [DangerBanner threat])
  else acc.

Definition is_high (n : NearbyDriver) : bool :=
  String.eqb (riskLevel (driver n)) "HIGH".

Definition displayRaceStatus (s : State) (position lap : Z)
  (nearby : list NearbyDriver) (totalCars incidents : Z) : State * list Event :=
  let closestAhead :=
    Array_find (fun n => match direction n with AHEAD => true | _ => false end) nearby in
  let closestBehind :=
    Array_find (fun n => match direction n with BEHIND => true | _ => false end) nearby in
  let statusLine := StatusLine lap position totalCars incidents closestAhead closestBehind in
  let highRiskNearby := List.filter is_high nearby in
  let '(currentlyInZone, out) :=
    fold_left (danger_step s) highRiskNearby (∅, [statusLine]) in
  (set_driversInDangerZone currentlyInZone s, out).

(** The body of the loop of [handleTelemetry] over [analyzedDrivers]:
    the entry pushed to [nearby], if any. *)
Definition nearby_entry (s : State) (telemetry : Telemetry) (myLapDistPct : Q)
  (entry : Z * AnalyzedDriver) : option NearbyDriver :=
  let '(carIdx, analysis) := entry in
  if carIdx =? myCarIdx s then None
  else if match at_index (CarIdxLap telemetry) carIdx with
          | Some lap => lap <? 0
          | None => false
          end then None
  else if default false (at_index (CarIdxOnPitRoad telemetry) carIdx) then None
  else
    let trackGap : option Q :=
      option_map (fun d => d - myLapDistPct)%Q
        (at_index (CarIdxLapDistPct telemetry) carIdx) in
    let trackGap :=
      if num_gtb trackGap 0.5 then option_map (fun g => g - 1)%Q trackGap
      else trackGap in
    let trackGap :=
      if num_ltb trackGap (-0.5) then option_map (fun g => g + 1)%Q trackGap
      else trackGap in
    let avgLapTime := 90%Q in
    let gapSeconds := option_map (fun g => Math_abs (g * avgLapTime)%Q) trackGap in
    if num_gtb gapSeconds 5 then None
    else
      let sessionInc := default 0 (driverSessionIncidents s !! carIdx) in
      Some {| driver := analysis;
              gap := gapSeconds;
              direction := if num_gtb trackGap 0 then AHEAD else BEHIND;
              sessionIncidents := sessionInc |}.

(** The comparator [(a, b) => a.gap - b.gap] is positive. *)
Definition gap_after (a b : NearbyDriver) : bool :=
  match gap a, gap b with
  | Some x, Some y => Qgtb (x - y) 0
  | _, _ => false
  end.

Definition handleTelemetry (s : State) (telemetry : Telemetry)
  : State * list Event :=
  if (myCarIdx s =? -1) || (length (analyzedDrivers s) =? 0)%nat then (s, [])
  else
    let sessionFlags := default 0 (SessionFlags telemetry) in
    let isCheckered := negb (Z.land sessionFlags 8 =? 0) in
    if isCheckered then
      match currentPhase s with
      | POST_RACE => (s, [])
      | _ => (set_currentPhase POST_RACE s, [CheckeredFlag (mySessionIncidents s)])
      end
    else
      let carIdxLap := CarIdxLap telemetry in
      let carIdxLapDistPct := CarIdxLapDistPct telemetry in
      let carIdxClassPosition := CarIdxClassPosition telemetry in
      let myIncidents := default 0 (PlayerCarMyIncidentCount telemetry) in
      let '(s, out) :=
        if lastKnownIncidents s =? -1 then (set_incidents 0 myIncidents s, [])
        else if myIncidents >? lastKnownIncidents s then
          let newIncidents := myIncidents - lastKnownIncidents s in
          let s' := set_incidents (mySessionIncidents s + newIncidents) myIncidents s in
          (s', playAlert s' Incident
                 ++ [IncidentFlash newIncidents (mySessionIncidents s')])
        else (s, []) in
      let myLapDistPct := default 0%Q (at_index carIdxLapDistPct (myCarIdx s)) in
      let myPosition := default 0 (at_index carIdxClassPosition (myCarIdx s)) in
      let myLap := default 0 (at_index carIdxLap (myCarIdx s)) in
      if myLap <? 0 then (s, out)
      else
        let nearby := omap (nearby_entry s telemetry myLapDistPct) (analyzedDrivers s) in
        let nearby := Array_sort gap_after nearby in
        let '(s, out') :=
          displayRaceStatus s myPosition myLap nearby
            (Z.of_nat (length (analyzedDrivers s))) (mySessionIncidents s) in
        (s, out ++ out').





(** The listener of [runSession] for the [Telemetry] event of the SDK. *)
Definition onTelemetry (s : State) (values : Telemetry) : State * list Event :=
  match currentPhase s with
  | RACING => handleTelemetry s values
  | _ => (s, [])
  end.

End Monitor.

(** *** Session info handler and pre-race analysis *)

(** Assignments to the variables that the session info handler and the
    pre-race analysis write. *)
Definition set_track (track series : string) (s : State) : State :=
  {| client := client s; authenticated := authenticated s;
     sessionDrivers := sessionDrivers s; analyzedDrivers := analyzedDrivers s;
     myCarIdx := myCarIdx s; currentPhase := currentPhase s;
     preRaceAnalysisComplete := preRaceAnalysisComplete s;
     currentSessionType := currentSessionType s;
     driversInDangerZone := driversInDangerZone s;
     tokenRefreshInterval := tokenRefreshInterval s;
     trackName := track; seriesName := series;
     mySessionIncidents := mySessionIncidents s;
     lastKnownIncidents := lastKnownIncidents s;
     driverSessionIncidents := driverSessionIncidents s;
     iracingSDK := iracingSDK s; isRunning := isRunning s;
     isServiceMode := isServiceMode s |}.

Definition set_currentSessionType (v : SessionType) (s : State) : State :=
  {| client := client s; authenticated := authenticated s;
     sessionDrivers := sessionDrivers s; analyzedDrivers := analyzedDrivers s;
     myCarIdx := myCarIdx s; currentPhase := currentPhase s;
     preRaceAnalysisComplete := preRaceAnalysisComplete s;
     currentSessionType := v;
     driversInDangerZone := driversInDangerZone s;
     tokenRefreshInterval := tokenRefreshInterval s;
     trackName := trackName s; seriesName := seriesName s;
     mySessionIncidents := mySessionIncidents s;
     lastKnownIncidents := lastKnownIncidents s;
     driverSessionIncidents := driverSessionIncidents s;
     iracingSDK := iracingSDK s; isRunning := isRunning s;
     isServiceMode := isServiceMode s |}.

Definition set_sessionDrivers (v : list (Z * SessionDriver)) (s : State) : State :=
  {| client := client s; authenticated := authenticated s;
     sessionDrivers := v; analyzedDrivers := analyzedDrivers s;
     myCarIdx := myCarIdx s; currentPhase := currentPhase s;
     preRaceAnalysisComplete := preRaceAnalysisComplete s;
     currentSessionType := currentSessionType s;
     driversInDangerZone := driversInDangerZone s;
     tokenRefreshInterval := tokenRefreshInterval s;
     trackName := trackName s; seriesName := seriesName s;
     mySessionIncidents := mySessionIncidents s;
     lastKnownIncidents := lastKnownIncidents s;
     driverSessionIncidents := driverSessionIncidents s;
     iracingSDK := iracingSDK s; isRunning := isRunning s;
     isServiceMode := isServiceMode s |}.

Definition set_analyzedDrivers (v : list (Z * AnalyzedDriver)) (s : State) : State :=
  {| client := client s; authenticated := authenticated s;
     sessionDrivers := sessionDrivers s; analyzedDrivers := v;
     myCarIdx := myCarIdx s; currentPhase := currentPhase s;
     preRaceAnalysisComplete := preRaceAnalysisComplete s;
     currentSessionType := currentSessionType s;
     driversInDangerZone := driversInDangerZone s;
     tokenRefreshInterval := tokenRefreshInterval s;
     trackName := trackName s; seriesName := seriesName s;
     mySessionIncidents := mySessionIncidents s;
     lastKnownIncidents := lastKnownIncidents s;
     driverSessionIncidents := driverSessionIncidents s;
     iracingSDK := iracingSDK s; isRunning := isRunning s;
     isServiceMode := isServiceMode s |}.

Definition set_myCarIdx (v : Z) (s : State) : State :=
  {| client := client s; authenticated := authenticated s;
     sessionDrivers := sessionDrivers s; analyzedDrivers := analyzedDrivers s;
     myCarIdx := v; currentPhase := currentPhase s;
     preRaceAnalysisComplete := preRaceAnalysisComplete s;
     currentSessionType := currentSessionType s;
     driversInDangerZone := driversInDangerZone s;
     tokenRefreshInterval := tokenRefreshInterval s;
     trackName := trackName s; seriesName := seriesName s;
     mySessionIncidents := mySessionIncidents s;
     lastKnownIncidents := lastKnownIncidents s;
     driverSessionIncidents := driverSessionIncidents s;
     iracingSDK := iracingSDK s; isRunning := isRunning s;
     isServiceMode := isServiceMode s |}.

Definition set_preRaceAnalysisComplete (v : bool) (s : State) : State :=
  {| client := client s; authenticated := authenticated s;
     sessionDrivers := sessionDrivers s; analyzedDrivers := analyzedDrivers s;
     myCarIdx := myCarIdx s; currentPhase := currentPhase s;
     preRaceAnalysisComplete := v;
     currentSessionType := currentSessionType s;
     driversInDangerZone := driversInDangerZone s;
     tokenRefreshInterval := tokenRefreshInterval s;
     trackName := trackName s; seriesName := seriesName s;
     mySessionIncidents := mySessionIncidents s;
     lastKnownIncidents := lastKnownIncidents s;
     driverSessionIncidents := driverSessionIncidents s;
     iracingSDK := iracingSDK s; isRunning := isRunning s;
     isServiceMode := isServiceMode s |}.

Definition set_driverSessionIncidents (v : gmap Z Z) (s : State) : State :=
  {| client := client s; authenticated := authenticated s;
     sessionDrivers := sessionDrivers s; analyzedDrivers := analyzedDrivers s;
     myCarIdx := myCarIdx s; currentPhase := currentPhase s;
     preRaceAnalysisComplete := preRaceAnalysisComplete s;
     currentSessionType := currentSessionType s;
     driversInDangerZone := driversInDangerZone s;
     tokenRefreshInterval := tokenRefreshInterval s;
     trackName := trackName s; seriesName := seriesName s;
     mySessionIncidents := mySessionIncidents s;
     lastKnownIncidents := lastKnownIncidents s;
     driverSessionIncidents := v;
     iracingSDK := iracingSDK s; isRunning := isRunning s;
     isServiceMode := isServiceMode s |}.

(** [map.set(key, value)] on a [Map] kept as the list of its entries in
    insertion order: an existing key keeps its place. *)
Fixpoint Map_set {V} (key : Z) (value : V) (m : list (Z * V)) : list (Z * V) :=
  match m with
  | [] => [(key, value)]
  | (k, v) :: m' =>
      if k =? key then (key, value) :: m' else (k, v) :: Map_set key value m'
  end.

(** [map.get(key)]. *)
Fixpoint Map_get {V} (key : Z) (m : list (Z * V)) : option V :=
  match m with
  | [] => None
  | (k, v) :: m' => if k =? key then Some v else Map_get key m'
  end.

(** [arr.slice(start, end)] for integer arguments. *)
Definition slice {A} (l : list A) (start e : Z) : list A :=
  let len := Z.of_nat (length l) in
  let k := if start <? 0 then Z.max (len + start) 0 else Z.min start len in
  let final := if e <? 0 then Z.max (len + e) 0 else Z.min e len in
  firstn (Z.to_nat (final - k)) (skipn (Z.to_nat k) l).

(** [s.toUpperCase()] on ASCII text. *)
Definition upper_ascii (c : ascii) : ascii :=
  let n := nat_of_ascii c in
  if ((97 <=? n) && (n <=? 122))%nat then ascii_of_nat (n - 32) else c.

Fixpoint toUpperCase (s : string) : string :=
  match s with
  | EmptyString => EmptyString
  | String c s' => String (upper_ascii c) (toUpperCase s')
  end.

(** [x.toFixed(2)] (for magnitudes below 1e21). *)
Definition toFixed2 (x : Q) : string :=
  let n := Qfloor (Math_abs x * 100 + (1 # 2)) in
  ((if Qltb x 0 then "-" else "") +:+ show (n / 100) +:+ "."
   +:+ show (n mod 100 / 10) +:+ show (n mod 10))%string.

(** The regular expression [/^([RDCBA]|Pro)/i]: the text of its group on
    a match. *)
Definition license_match (licenseString : string) : option string :=
  match licenseString with
  | EmptyString => None
  | String c _ =>
      if existsb (Ascii.eqb (upper_ascii c)) ["R"; "D"; "C"; "B"; "A"]%char
      then Some (String c EmptyString)
      else if String.eqb (toLowerCase (substring 0 3 licenseString)) "pro"
           then Some (substring 0 3 licenseString)
           else None
  end.

Definition extractLicenseClass (licenseString : string) : string :=
  match licenseString with
  | EmptyString => "?"
  | _ =>
      match license_match licenseString with
      | Some group => toUpperCase group
      | None => "?"
      end
  end.

(** The text of a risk level. *)
Definition level_text (l : RiskAnalysis.RiskLevel) : string :=
  match l with
  | RiskAnalysis.LOW => "LOW"
  | RiskAnalysis.MODERATE => "MODERATE"
  | RiskAnalysis.HIGH => "HIGH"
  end.

Definition incident_types_of (t : RiskAnalysis.IncidentTypeBreakdown) : IncidentTypes :=
  {| contact4x := RiskAnalysis.contact4x t;
     lostControl2x := RiskAnalysis.lostControl2x t;
     offTrack1x := RiskAnalysis.offTrack1x t;
     total := RiskAnalysis.total t |}.

(** What the pre-race analysis prints and waits for. *)
Inductive AnalysisEvent :=
| Wait (ms : Z)
| AnalysisHeader (sessionTypeDisplay track : string) (drivers : Z)
| AnalysisLog (message : string)
| BatchStart (batchNum totalBatches : Z) (carNumbers : list string)
| BatchSummary (summary : list string)
| BatchPause (ms : Z)
| DriverTable (analyses : list AnalyzedDriver)
| FieldSummary (analyses : list AnalyzedDriver)
| WaitingForRaceStart.

(** A session info update of the SDK, with the fields the handler reads. *)
Record WeekendInfo := {
  TrackDisplayName : option string;
  TrackName : option string;
  SeriesID : option Z
}.

Record ResultPosition := { rp_CarIdx : Z; rp_Incidents : option Z }.

Record Session := {
  SessionType_ : option string;
  ResultsPositions : option (list ResultPosition)
}.

Record Driver := {
  d_CarIdx : Z;
  d_UserID : Z;
  d_UserName : option string;
  d_IRating : option Z;
  d_LicString : option string;
  d_CarNumber : option string
}.

Record SessionInfo := {
  si_WeekendInfo : option WeekendInfo;
  si_Sessions : option (list Session);
  si_Drivers : option (list Driver)
}.

Section PreRace.

(** The constant [myCustId]; the instant at which the analysis of a driver
    reads the clock; and [parseInt], whose result is [None] for [NaN]. *)
Variable myCustId : Z.
Variable now : SessionDriver -> Z.
Variable parseInt : string -> option Z.

Definition unanalyzed (driver : SessionDriver) (isMe : bool) (level : string)
  : AnalyzedDriver :=
  {| carIdx := sd_carIdx driver;
     carNumber := sd_carNumber driver;
     custId := sd_custId driver;
     name := sd_name driver;
     sr := sd_licenseLevel driver;
     licenseClass := extractLicenseClass (sd_licenseLevel driver);
     iRating := sd_iRating driver;
     totalRaces := 0;
     recentRaces := 0;
     avgIncidents := 0;
     recentAvgIncidents := 0;
     lastRaceIncidents := 0;
     incidentTypes := {| contact4x := 0; lostControl2x := 0; offTrack1x := 0; total := 0 |};
     riskScore := -1;
     riskLevel := level;
     patterns := [];
     isMe := isMe |}.

Definition analyzeSingleDriver (s : State) (driver : SessionDriver) (isMe : bool)
  : AnalyzedDriver :=
  match (if authenticated s then client s else None) with
  | None => unanalyzed driver isMe "UNKNOWN"
  | Some client =>
      match RiskAnalysis.analyzeDriver client (now driver) (sd_custId driver) 10 with
      | inr profile =>
          {| carIdx := sd_carIdx driver;
             carNumber := sd_carNumber driver;
             custId := sd_custId driver;
             name := sd_name driver;
             sr := toFixed2 (RiskAnalysis.p_sr profile);
             licenseClass := extractLicenseClass (sd_licenseLevel driver);
             iRating := if sd_iRating driver =? 0 then RiskAnalysis.p_irating profile
                        else sd_iRating driver;
             totalRaces := RiskAnalysis.totalRacesAnalyzed profile;
             recentRaces := RiskAnalysis.recentRaces profile;
             avgIncidents := RiskAnalysis.avgIncidentsPerRace profile;
             recentAvgIncidents := RiskAnalysis.recentAvgIncidents profile;
             lastRaceIncidents := RiskAnalysis.lastRaceIncidents profile;
             incidentTypes := incident_types_of (RiskAnalysis.incidentTypes profile);
             riskScore := RiskAnalysis.riskScore profile;
             riskLevel := if isMe then "YOU" else level_text (RiskAnalysis.riskLevel profile);
             patterns := RiskAnalysis.keyPatterns profile;
             isMe := isMe |}
      | inl _ => unanalyzed driver isMe (if isMe then "YOU" else "UNKNOWN")
      end
  end.

(** The counters of the [reduce] over a batch. *)
Record RiskCounts := { rc_high : Z; rc_mod : Z; rc_low : Z; rc_you : Z; rc_unknown : Z }.

Definition count_risk (acc : RiskCounts) (r : AnalyzedDriver) : RiskCounts :=
  if isMe r then
    {| rc_high := rc_high acc; rc_mod := rc_mod acc; rc_low := rc_low acc;
       rc_you := rc_you acc + 1; rc_unknown := rc_unknown acc |}
  else if String.eqb (riskLevel r) "HIGH" then
    {| rc_high := rc_high acc + 1; rc_mod := rc_mod acc; rc_low := rc_low acc;
       rc_you := rc_you acc; rc_unknown := rc_unknown acc |}
  else if String.eqb (riskLevel r) "MODERATE" then
    {| rc_high := rc_high acc; rc_mod := rc_mod acc + 1; rc_low := rc_low acc;
       rc_you := rc_you acc; rc_unknown := rc_unknown acc |}
  else if String.eqb (riskLevel r) "LOW" then
    {| rc_high := rc_high acc; rc_mod := rc_mod acc; rc_low := rc_low acc + 1;
       rc_you := rc_you acc; rc_unknown := rc_unknown acc |}
  else
    {| rc_high := rc_high acc; rc_mod := rc_mod acc; rc_low := rc_low acc;
       rc_you := rc_you acc; rc_unknown := rc_unknown acc + 1 |}.

Definition batch_summary (batchResults : list AnalyzedDriver) : list string :=
  let riskCounts :=
    fold_left count_risk batchResults
      {| rc_high := 0; rc_mod := 0; rc_low := 0; rc_you := 0; rc_unknown := 0 |} in
  (if rc_high riskCounts >? 0 then [show (rc_high riskCounts) +:+ " HIGH"] else [])
  ++ (if rc_mod riskCounts >? 0 then [show (rc_mod riskCounts) +:+ " MOD"] else [])
  ++ (if rc_low riskCounts >? 0 then [show (rc_low riskCounts) +:+ " LOW"] else [])
  ++ (if rc_you riskCounts >? 0 then ["YOU"] else [])
  ++ (if rc_unknown riskCounts >? 0 then [show (rc_unknown riskCounts) +:+ " ?"] else []).

(** The loop of [processDriversInParallel] from index [i] on, for a
    positive batch size (the default is 4, and no caller passes another);
    the accumulators are [results] and the output so far. *)
Equations? batch_loop (s : State) (drivers : list SessionDriver) (batchSize : positive)
  (i : Z) (results : list AnalyzedDriver) (out : list AnalysisEvent)
  : list AnalyzedDriver * list AnalysisEvent
  by wf (Z.to_nat (Z.of_nat (length drivers) - i)) lt :=
  batch_loop s drivers batchSize i results out
    with Z_lt_dec i (Z.of_nat (length drivers)) := {
    | left _ =>
        let batch := slice drivers i (i + Zpos batchSize) in
        let batchNum := i / Zpos batchSize + 1 in
        let totalBatches :=
          (Z.of_nat (length drivers) + Zpos batchSize - 1) / Zpos batchSize in
        let batchResults :=
          map (fun driver => analyzeSingleDriver s driver (sd_custId driver =? myCustId))
            batch in
        batch_loop s drivers batchSize (i + Zpos batchSize) (results ++ batchResults)
          (out ++ [BatchStart batchNum totalBatches (map sd_carNumber batch);
                   BatchSummary (batch_summary batchResults)]
               ++ (if i + Zpos batchSize <? Z.of_nat (length drivers)
                   then [BatchPause 100] else []))
    | right _ => (results, out)
  }.
Proof. lia. Qed.

Definition processDriversInParallel (s : State) (drivers : list SessionDriver)
  (batchSize : positive) : list AnalyzedDriver * list AnalysisEvent :=
  batch_loop s drivers batchSize 0 [] [].

Definition sessionTypeDisplay (t : SessionType) : string :=
  match t with
  | Practice => "Practice"
  | Qualify => "Qualify"
  | Race => "Race"
  | Warmup => "Warmup"
  end.

(** [parseInt(carNumber) || 999]. *)
Definition car_number_key (driver : SessionDriver) : Z :=
  match parseInt (sd_carNumber driver) with
  | Some 0 | None => 999
  | Some n => n
  end.

(** [runPreRaceAnalysis()], with no other handler running at its waits. *)
Definition runPreRaceAnalysis (s : State) : State * list AnalysisEvent :=
  if preRaceAnalysisComplete s then (s, [])
  else
    let s := set_preRaceAnalysisComplete true s in
    let waits :=
      if negb (authenticated s) && (match client s with Some _ => true | None => false end)
      then repeat (Wait 100) 50 else [] in
    let display := sessionTypeDisplay (currentSessionType s) in
    let header :=
      [AnalysisHeader display (trackName s) (Z.of_nat (length (sessionDrivers s)));
       AnalysisLog ("Starting analysis for " +:+ display +:+ " session at " +:+ trackName s)] in
    let drivers := map snd (sessionDrivers s) in
    let drivers :=
      Array_sort (fun a b => car_number_key a - car_number_key b >? 0) drivers in
    let '(analyses, out) := processDriversInParallel s drivers 4 in
    let s :=
      fold_left (fun s analysis =>
                   set_analyzedDrivers (Map_set (carIdx analysis) analysis (analyzedDrivers s)) s)
        analyses s in
    (set_currentPhase RACING s,
     waits ++ header ++ out
     ++ [DriverTable analyses; FieldSummary analyses; WaitingForRaceStart]).

(** The session type that one session of the list selects, if any. *)
Definition session_type_of (session : Session) : option SessionType :=
  let sessionType := toLowerCase (default "" (SessionType_ session)) in
  if includes sessionType "practice" || includes sessionType "open" then Some Practice
  else if includes sessionType "qualify" || includes sessionType "lone" then Some Qualify
  else if includes sessionType "race" then Some Race
  else if includes sessionType "warmup" then Some Warmup
  else None.

(** One iteration of the loop over [driverInfo.Drivers]. *)
Definition add_driver (s : State) (d : Driver) : State :=
  match d_UserName d with
  | None | Some EmptyString => s
  | Some userName =>
      if String.eqb userName "Pace Car" then s
      else
        let s :=
          set_sessionDrivers
            (Map_set (d_CarIdx d)
               {| sd_carIdx := d_CarIdx d;
                  sd_custId := d_UserID d;
                  sd_name := userName;
                  sd_iRating := default 0 (d_IRating d);
                  sd_licenseLevel := str_or (default "" (d_LicString d)) "Unknown";
                  sd_carNumber := str_or (default "" (d_CarNumber d)) (show (d_CarIdx d)) |}
               (sessionDrivers s)) s in
        if d_UserID d =? myCustId then set_myCarIdx (d_CarIdx d) s else s
  end.

(** The incident counts of one session's results. *)
Definition add_results (incidents : gmap Z Z) (sess : Session) : gmap Z Z :=
  match ResultsPositions sess with
  | Some results =>
      fold_left
        (fun m result => <[rp_CarIdx result := default 0 (rp_Incidents result)]> m)
        results incidents
  | None => incidents
  end.

Definition handleSessionInfo (s : State) (sessionInfo : SessionInfo)
  : State * list AnalysisEvent :=
  let s :=
    match si_WeekendInfo sessionInfo with
    | Some weekendInfo =>
        set_track
          (str_or (default "" (TrackDisplayName weekendInfo))
             (str_or (default "" (TrackName weekendInfo)) ""))
          (match SeriesID weekendInfo with
           | Some 0 | None => ""
           | Some id => "Series " +:+ show id
           end) s
    | None => s
    end in
  let s :=
    match si_Sessions sessionInfo with
    | Some sessions =>
        fold_left
          (fun s session =>
             match session_type_of session with
             | Some t => set_currentSessionType t s
             | None => s
             end) sessions s
    | None => s
    end in
  match si_Drivers sessionInfo with
  | None => (s, [])
  | Some drivers =>
      let s := fold_left add_driver drivers s in
      let s :=
        match si_Sessions sessionInfo with
        | Some sessionsList =>
            set_driverSessionIncidents
              (fold_left add_results sessionsList (driverSessionIncidents s)) s
        | None => s
        end in
      if (0 <? length (sessionDrivers s))%nat && negb (preRaceAnalysisComplete s)
         && (match currentPhase s with PRE_RACE => true | _ => false end)
         && authenticated s
      then runPreRaceAnalysis s
      else (s, [])
  end.

End PreRace.

(** *** Output functions *)

(** [str.substring(0, end)] for an integer [end]: a negative [end] is 0. *)
Definition substring0 (str : string) (e : Z) : string :=
  substring 0 (Z.to_nat e) str.

(** [' '.repeat(n)]. *)
Fixpoint spaces (n : nat) : string :=
  match n with
  | O => EmptyString
  | S n' => String " " (spaces n')
  end.

Definition padRight (str : string) (len : Z) : string :=
  if Z.of_nat (String.length str) >=? len then substring0 str len
  else (str +:+ spaces (Z.to_nat (len - Z.of_nat (String.length str))))%string.

Definition truncate (str : string) (len : Z) : string :=
  if Z.of_nat (String.length str) >? len then (substring0 str (len - 2) +:+ "..")%string
  else str.

(** The comparator of the driver table is positive on [(a, b)]. *)
Definition table_after (a b : AnalyzedDriver) : bool :=
  if isMe a then false
  else if isMe b then true
  else Qgtb (riskScore b - riskScore a) 0.

(** The constant [sorted] of [printDriverTable]: the order of its rows. *)
Definition table_order (analyses : list AnalyzedDriver) : list AnalyzedDriver :=
  Array_sort table_after analyses.

(** [licenseBreakdown] is an object used as a map from class to count;
    the classes are not names of properties that every object inherits. *)
Record FieldStats := {
  sof : Z;
  licenseBreakdown : gmap string Z;
  avgSR : Q;
  rookieCount : Z
}.

Definition count_license (breakdown : gmap string Z) (d : AnalyzedDriver)
  : gmap string Z :=
  let cls := str_or (licenseClass d) "?" in
  <[cls := default 0 (breakdown !! cls) + 1]> breakdown.

Inductive Strategy := CONSERVATIVE | MODERATE | AGGRESSIVE_OK.

(** The values that [printSummary] prints. *)
Record SummaryReport := {
  r_sof : Z;
  r_avgSR : Q;
  r_licenseDisplay : string;
  r_avgRisk : Q;
  r_highRisk : Z;
  r_moderate : Z;
  r_lowRisk : Z;
  r_carsToAvoid : list AnalyzedDriver;
  r_safeToRaceWith : list AnalyzedDriver;
  r_strategy : Strategy;
  r_rookieWarning : option (Z * Q);
  r_inexperiencedWarning : option (Z * Q);
  r_highSOFNote : option Z
}.

Section Output.

(** [parseFloat], whose result is [None] for [NaN]. *)
Variable parseFloat : string -> option Q.

Definition calculateFieldStats (analyses : list AnalyzedDriver) : FieldStats :=
  let iRatings := map iRating (List.filter (fun a => iRating a >? 0) analyses) in
  let sof :=
    if (0 <? length iRatings)%nat
    then Math_round (Zdivide (fold_left Z.add iRatings 0) (Z.of_nat (length iRatings)))
    else 0 in
  let licenseBreakdown := fold_left count_license analyses ∅ in
  let srValues :=
    List.filter (fun sr => Qgtb sr 0) (omap (fun a => parseFloat (sr a)) analyses) in
  let avgSR :=
    if (0 <? length srValues)%nat
    then (fold_left Qplus srValues 0 / inject_Z (Z.of_nat (length srValues)))%Q
    else 0%Q in
  let rookieCount := default 0 (licenseBreakdown !! "R"%string) in
  {| sof := sof; licenseBreakdown := licenseBreakdown; avgSR := avgSR;
     rookieCount := rookieCount |}.

(** [(count / analyses.length) * 100], [NaN] for no analyses. *)
Definition percent_of (count : Z) (analyses : list AnalyzedDriver) : option Q :=
  match analyses with
  | [] => None
  | _ => Some (Zdivide count (Z.of_nat (length analyses)) * 100)%Q
  end.

Definition printSummary (analyses : list AnalyzedDriver) : SummaryReport :=
  let highRisk := List.filter (fun a => String.eqb (riskLevel a) "HIGH") analyses in
  let moderate := List.filter (fun a => String.eqb (riskLevel a) "MODERATE") analyses in
  let lowRisk := List.filter (fun a => String.eqb (riskLevel a) "LOW") analyses in
  let analyzedDrivers :=
    List.filter (fun a => Qgeb (riskScore a) 0 && negb (isMe a)) analyses in
  let avgRisk :=
    if (0 <? length analyzedDrivers)%nat
    then (fold_left Qplus (map riskScore analyzedDrivers) 0
          / inject_Z (Z.of_nat (length analyzedDrivers)))%Q
    else 0%Q in
  let fieldStats := calculateFieldStats analyses in
  let licenseOrder := ["Pro"; "A"; "B"; "C"; "D"; "R"]%string in
  let licenseDisplay :=
    String.concat " | "
      (map (fun cls =>
              (cls +:+ ": " +:+ show (default 0 (licenseBreakdown fieldStats !! cls)))%string)
         (List.filter (fun cls => default 0 (licenseBreakdown fieldStats !! cls) >? 0)
            licenseOrder)) in
  let rookiePercent := percent_of (rookieCount fieldStats) analyses in
  let hasLotOfRookies := match rookiePercent with Some p => Qgeb p 30 | None => false end in
  let inexperiencedDrivers :=
    List.filter (fun a => (totalRaces a >? 0) && (totalRaces a <? 5) && negb (isMe a))
      analyses in
  let inexperiencedPercent :=
    percent_of (Z.of_nat (length inexperiencedDrivers)) analyses in
  let hasLotOfInexperienced :=
    match inexperiencedPercent with Some p => Qgeb p 40 | None => false end in
  let isHighSOF := sof fieldStats >=? 2200 in
  {| r_sof := sof fieldStats;
     r_avgSR := avgSR fieldStats;
     r_licenseDisplay := str_or licenseDisplay "Unknown";
     r_avgRisk := avgRisk;
     r_highRisk := Z.of_nat (length highRisk);
     r_moderate := Z.of_nat (length moderate);
     r_lowRisk := Z.of_nat (length lowRisk);
     r_carsToAvoid := slice0 highRisk 5;
     r_safeToRaceWith := slice0 lowRisk 3;
     r_strategy :=
       if Qgeb avgRisk 6 then CONSERVATIVE
       else if Qgeb avgRisk 4 then MODERATE
       else AGGRESSIVE_OK;
     r_rookieWarning :=
       if hasLotOfRookies
       then option_map (fun p => (rookieCount fieldStats, p)) rookiePercent else None;
     r_inexperiencedWarning :=
       if hasLotOfInexperienced
       then option_map (fun p => (Z.of_nat (length inexperiencedDrivers), p))
              inexperiencedPercent
       else None;
     r_highSOFNote := if isHighSOF then Some (sof fieldStats) else None |}.

End Output.

End Racesafe.

(** * Notions used in the statements *)

(** The decomposition as the specification words it: subtract [k] while
    the remainder is at least [k], counting the subtractions. *)
Inductive subtract_while (k : Z) : Z * Z -> Z * Z -> Prop :=
| subtract_stop count remaining :
    remaining < k -> subtract_while k (count, remaining) (count, remaining)
| subtract_once count remaining final :
    k <= remaining ->
    subtract_while k (count + 1, remaining - k) final ->
    subtract_while k (count, remaining) final.

Definition greedy_decomposition (delta : Z) (e : RiskAnalysis.Estimate) : Prop :=
  exists after4,
    subtract_while 4 (0, delta) (RiskAnalysis.x4 e, after4) /\
    subtract_while 2 (0, after4) (RiskAnalysis.x2 e, RiskAnalysis.x1 e).

(** The base score and the timing modifier as the specification words
    them. *)
Definition spec_base (a : Q) : Q :=
  (if Qlt_le_dec 2 a
   then if Qlt_le_dec 5 a then 6 + Qmin ((a - 5) * 0.8) 4 else 3 + (a - 2)
   else 1.5 * a)%Q.

Definition spec_modifier (t : RiskAnalysis.IncidentTiming) : Q :=
  ((if Qlt_le_dec 0.4 (RiskAnalysis.lap1_2 t) then 1.5
    else if Qlt_le_dec 0.3 (RiskAnalysis.lap1_2 t) then 0.5 else 0)
   + (if Qlt_le_dec 0.3 (RiskAnalysis.finalLap t) then 1.0
      else if Qlt_le_dec 0.25 (RiskAnalysis.finalLap t) then 0.5 else 0))%Q.

(** [r] is [x] rounded to one decimal, a tie going up. *)
Definition rounded_to_one_decimal (x r : Q) : Prop :=
  ((exists k : Z, r == inject_Z k / 10) /\ x - (1 # 20) < r /\ r <= x + (1 # 20))%Q.


(** An alert kind is gated by a switch when [playAlert] returns before any
    sound exactly if that switch of the current session type is off. *)
Definition gated_by (kind : Racesafe.AlertType)
  (switch : Racesafe.AlertSwitches -> bool) : Prop :=
  forall config execThrows s,
    Racesafe.playAlert config execThrows s kind = []
    <-> switch (Racesafe.sessionConfigOf config (Racesafe.currentSessionType s)) = false.



(** The incident points that one race shows: the sum of the positive
    differences between adjacent laps of its cumulative count. *)
Fixpoint observed_points (prev : RiskAnalysis.IRacingLapData)
  (rest : list RiskAnalysis.IRacingLapData) : Z :=
  match rest with
  | [] => 0
  | cur :: rest' =>
      Z.max 0 (RiskAnalysis.incident cur - RiskAnalysis.incident prev)
      + observed_points cur rest'
  end.

(** The same over the races whose lap data can be fetched. *)
Definition observed_in_race (client : RiskAnalysis.IRacingClient) (custId : Z)
  (race : RiskAnalysis.IRacingRecentRace) : Z :=
  match RiskAnalysis.getLapData client (RiskAnalysis.subsessionId race) custId with
  | inr (first :: rest) => observed_points first rest
  | _ => 0
  end.

Definition observed_total (client : RiskAnalysis.IRacingClient) (custId : Z)
  (races : list RiskAnalysis.IRacingRecentRace) : Z :=
  fold_right (fun race sum => observed_in_race client custId race + sum) 0 races.

(** The lap data of a race is unavailable: the fetch throws or returns no
    lap. *)
Definition laps_unavailable (client : RiskAnalysis.IRacingClient) (custId : Z)
  (race : RiskAnalysis.IRacingRecentRace) : Prop :=
  match RiskAnalysis.getLapData client (RiskAnalysis.subsessionId race) custId with
  | inr (_ :: _) => False
  | _ => True
  end.

(** What the counters hold: the points by window, and the points by
    estimated type. *)
Definition timing_points (c : RiskAnalysis.Counters) : Z :=
  RiskAnalysis.lap1_2Incidents c + RiskAnalysis.midRaceIncidents c
  + RiskAnalysis.finalLapIncidents c.
Definition type_points (c : RiskAnalysis.Counters) : Z :=
  4 * RiskAnalysis.c_contact4x c + 2 * RiskAnalysis.c_lostControl2x c
  + RiskAnalysis.c_offTrack1x c.
Definition types_nonneg (c : RiskAnalysis.Counters) : Prop :=
  0 <= RiskAnalysis.c_contact4x c /\ 0 <= RiskAnalysis.c_lostControl2x c /\
  0 <= RiskAnalysis.c_offTrack1x c.

(** The summed change of the safety sub-level over a list of races. *)
Definition sum_changes (races : list RiskAnalysis.IRacingRecentRace) : Z :=
  fold_right
    (fun race sum => (RiskAnalysis.newSubLevel race - RiskAnalysis.oldSubLevel race) + sum)
    0 races.

(** A race list is ordered most recent first. *)
Definition most_recent_first (races : list RiskAnalysis.IRacingRecentRace) : Prop :=
  StronglySorted
    (fun a b => RiskAnalysis.sessionStartTime b <= RiskAnalysis.sessionStartTime a)
    races.

(** How cautious a recommendation is. *)
Definition caution (r : GridAnalysis.Recommendation) : Z :=
  match r with
  | GridAnalysis.AGGRESSIVE => 0
  | GridAnalysis.MODERATE => 1
  | GridAnalysis.CONSERVATIVE => 2
  end.

(** The profiles of a grid, and the number of them with a given level. *)
Definition grid_profiles (grid : list GridAnalysis.GridEntry)
  : list RiskAnalysis.DriverRiskProfile :=
  omap GridAnalysis.riskProfile grid.

Definition has_level (level : RiskAnalysis.RiskLevel)
  (p : RiskAnalysis.DriverRiskProfile) : bool :=
  match level, RiskAnalysis.riskLevel p with
  | RiskAnalysis.LOW, RiskAnalysis.LOW
  | RiskAnalysis.MODERATE, RiskAnalysis.MODERATE
  | RiskAnalysis.HIGH, RiskAnalysis.HIGH => true
  | _, _ => false
  end.

Definition count_level (level : RiskAnalysis.RiskLevel)
  (grid : list GridAnalysis.GridEntry) : Z :=
  Z.of_nat (length (List.filter (has_level level) (grid_profiles grid))).

(** The user of the analysis is this driver of the results. *)
Definition is_user (userProfile : GridAnalysis.UserProfile)
  (driver : GridAnalysis.DriverResult) : Prop :=
  exists mine, GridAnalysis.custId userProfile = Some mine /\ mine <> 0 /\
               GridAnalysis.cust_id driver = mine.

(** The sum of the scores of a list of profiles. *)
Definition score_sum (profiles : list RiskAnalysis.DriverRiskProfile) : Q :=
  fold_right (fun p sum => (RiskAnalysis.riskScore p + sum)%Q) 0%Q profiles.

(** What the loop over the drivers of [analyzeRaceGrid] keeps true: its
    counters count the profiles of the grid built so far. *)
Definition loop_consistent (l : GridAnalysis.GridLoop) : Prop :=
  GridAnalysis.l_highRiskCount l = count_level RiskAnalysis.HIGH (GridAnalysis.l_grid l) /\
  GridAnalysis.l_cleanCount l = count_level RiskAnalysis.LOW (GridAnalysis.l_grid l) /\
  GridAnalysis.l_analyzedCount l
  = Z.of_nat (length (grid_profiles (GridAnalysis.l_grid l))) /\
  (GridAnalysis.l_totalRiskScore l == score_sum (grid_profiles (GridAnalysis.l_grid l)))%Q.

(** The grid entry that belongs to a driver of the results: the same
    customer id, no profile for the user, and for everyone else the
    profile of [analyzeDriver] or none when that fails. *)
Definition entry_of (client : RiskAnalysis.IRacingClient) (now : Z)
  (userProfile : GridAnalysis.UserProfile)
  (driver : GridAnalysis.DriverResult) (entry : GridAnalysis.GridEntry) : Prop :=
  GridAnalysis.g_custId entry = GridAnalysis.cust_id driver /\
  (is_user userProfile driver -> GridAnalysis.riskProfile entry = None) /\
  (~ is_user userProfile driver ->
   GridAnalysis.riskProfile entry
   = match RiskAnalysis.analyzeDriver client now (GridAnalysis.cust_id driver) 10 with
     | inr p => Some p
     | inl _ => None
     end).

(** The distance between two track fractions round the lap, as a
    fraction of the lap: the shorter way. *)
Definition lap_distance (d m : Q) : Q := Qmin (Qabs (d - m)) (1 - Qabs (d - m)).

(** Car at fraction [d] is up to half a lap ahead of the car at [m]. *)
Definition ahead_of (d m : Q) : Prop :=
  (0 < d - m /\ d - m <= 0.5)%Q \/ (-1 < d - m /\ d - m < -0.5)%Q.

(** A run of the telemetry handler over a sequence of updates: the final
    state and the whole trace. *)
Fixpoint telemetry_run (config : Racesafe.AlertConfig)
  (execThrows : Racesafe.Sound -> bool) (s : Racesafe.State)
  (updates : list Racesafe.Telemetry) : Racesafe.State * list Racesafe.Event :=
  match updates with
  | [] => (s, [])
  | telemetry :: rest =>
      let '(s1, out1) := Racesafe.handleTelemetry config execThrows s telemetry in
      let '(s2, out2) := telemetry_run config execThrows s1 rest in
      (s2, out1 ++ out2)
  end.

(** An update under a flag other than the checkered one. *)
Definition not_checkered (telemetry : Racesafe.Telemetry) : Prop :=
  Z.land (default 0 (Racesafe.SessionFlags telemetry)) 8 = 0.

(** The local incident count that an update carries. *)
Definition incident_count (telemetry : Racesafe.Telemetry) : Z :=
  default 0 (Racesafe.PlayerCarMyIncidentCount telemetry).

(** The number of times an event is in a trace. *)
Definition is_exec (sound : Racesafe.Sound) (e : Racesafe.Event) : bool :=
  match e, sound with
  | Racesafe.Exec Racesafe.ExclamationTwice, Racesafe.ExclamationTwice
  | Racesafe.Exec Racesafe.Beep, Racesafe.Beep
  | Racesafe.Exec Racesafe.Asterisk, Racesafe.Asterisk => true
  | _, _ => false
  end.

Definition is_banner (e : Racesafe.Event) : bool :=
  match e with Racesafe.DangerBanner _ => true | _ => false end.

Definition is_flash (e : Racesafe.Event) : bool :=
  match e with Racesafe.IncidentFlash _ _ => true | _ => false end.

Definition count_events (p : Racesafe.Event -> bool) (trace : list Racesafe.Event) : nat :=
  length (List.filter p trace).

Definition is_status (e : Racesafe.Event) : bool :=
  match e with Racesafe.StatusLine _ _ _ _ _ _ => true | _ => false end.

Definition is_summary (e : Racesafe.Event) : bool :=
  match e with Racesafe.CheckeredFlag _ => true | _ => false end.

(** The incident points announced by the flashes of a trace. *)
Definition flash_total (trace : list Racesafe.Event) : Z :=
  fold_right
    (fun e acc => match e with Racesafe.IncidentFlash n _ => n + acc | _ => acc end)
    0 trace.

(** The telemetry handler does not return at its guard. *)
Definition monitoring (s : Racesafe.State) : Prop :=
  Racesafe.myCarIdx s <> -1 /\ Racesafe.analyzedDrivers s <> [].

(** The parts of the state that telemetry never touches. *)
Definition same_session (s s' : Racesafe.State) : Prop :=
  Racesafe.client s' = Racesafe.client s /\
  Racesafe.authenticated s' = Racesafe.authenticated s /\
  Racesafe.sessionDrivers s' = Racesafe.sessionDrivers s /\
  Racesafe.analyzedDrivers s' = Racesafe.analyzedDrivers s /\
  Racesafe.myCarIdx s' = Racesafe.myCarIdx s /\
  Racesafe.preRaceAnalysisComplete s' = Racesafe.preRaceAnalysisComplete s /\
  Racesafe.currentSessionType s' = Racesafe.currentSessionType s /\
  Racesafe.tokenRefreshInterval s' = Racesafe.tokenRefreshInterval s /\
  Racesafe.trackName s' = Racesafe.trackName s /\
  Racesafe.seriesName s' = Racesafe.seriesName s /\
  Racesafe.driverSessionIncidents s' = Racesafe.driverSessionIncidents s /\
  Racesafe.iracingSDK s' = Racesafe.iracingSDK s /\
  Racesafe.isRunning s' = Racesafe.isRunning s /\
  Racesafe.isServiceMode s' = Racesafe.isServiceMode s.

(** The order of two nearby cars by their gaps, when both are numbers. *)
Definition gap_le (a b : Racesafe.NearbyDriver) : Prop :=
  match Racesafe.gap a, Racesafe.gap b with
  | Some x, Some y => (x <= y)%Q
  | _, _ => False
  end.

(** A car that an update lists as nearby, seen from the own car's track
    position. *)
Definition listed (s : Racesafe.State) (telemetry : Racesafe.Telemetry)
  (n : Racesafe.NearbyDriver) : Prop :=
  exists entry,
    In entry (Racesafe.analyzedDrivers s) /\
    Racesafe.nearby_entry s telemetry
      (default 0%Q (JS.at_index (Racesafe.CarIdxLapDistPct telemetry) (Racesafe.myCarIdx s)))
      entry = Some n.

(** The car shown on the status line for a direction is a nearest listed
    car of that direction; no car is shown only when none is listed. *)
Definition nearest (s : Racesafe.State) (telemetry : Racesafe.Telemetry)
  (dir : Racesafe.Direction) (shown : option Racesafe.NearbyDriver) : Prop :=
  match shown with
  | Some n =>
      listed s telemetry n /\ Racesafe.direction n = dir /\
      forall n', listed s telemetry n' -> Racesafe.direction n' = dir -> gap_le n n'
  | None => forall n', listed s telemetry n' -> Racesafe.direction n' <> dir
  end.

(** Every analysed car has a track position in the update. *)
Definition positions_known (s : Racesafe.State) (telemetry : Racesafe.Telemetry) : Prop :=
  forall idx a, In (idx, a) (Racesafe.analyzedDrivers s) ->
    JS.at_index (Racesafe.CarIdxLapDistPct telemetry) idx <> None.

(** The car numbers of the batches that a trace of the analysis starts. *)
Definition batches_of (out : list Racesafe.AnalysisEvent) : list (list string) :=
  omap (fun e => match e with
                 | Racesafe.BatchStart _ _ carNumbers => Some carNumbers
                 | _ => None
                 end) out.

(** The variables that a session info update may write before the
    analysis starts are the track and series names, the session type, the
    session's drivers, the own car slot and the incident map; the others
    are kept. *)
Definition session_data_only (s s' : Racesafe.State) : Prop :=
  Racesafe.client s' = Racesafe.client s /\
  Racesafe.authenticated s' = Racesafe.authenticated s /\
  Racesafe.analyzedDrivers s' = Racesafe.analyzedDrivers s /\
  Racesafe.currentPhase s' = Racesafe.currentPhase s /\
  Racesafe.preRaceAnalysisComplete s' = Racesafe.preRaceAnalysisComplete s /\
  Racesafe.driversInDangerZone s' = Racesafe.driversInDangerZone s /\
  Racesafe.tokenRefreshInterval s' = Racesafe.tokenRefreshInterval s /\
  Racesafe.mySessionIncidents s' = Racesafe.mySessionIncidents s /\
  Racesafe.lastKnownIncidents s' = Racesafe.lastKnownIncidents s /\
  Racesafe.iracingSDK s' = Racesafe.iracingSDK s /\
  Racesafe.isRunning s' = Racesafe.isRunning s /\
  Racesafe.isServiceMode s' = Racesafe.isServiceMode s.

(** The conditions under which a session info update starts the pre-race
    analysis. *)
Definition analysis_due (s : Racesafe.State) : Prop :=
  Racesafe.preRaceAnalysisComplete s = false /\
  Racesafe.currentPhase s = Racesafe.PRE_RACE /\
  Racesafe.authenticated s = true.

(** The keys of the session's drivers are distinct car slots, each the
    slot of its driver. *)
Definition well_keyed (drivers : list (Z * Racesafe.SessionDriver)) : Prop :=
  NoDup (map fst drivers) /\
  Forall (fun entry => Racesafe.sd_carIdx (snd entry) = fst entry) drivers.


(** The pre-race analysis writes the analysed drivers, the phase and its
    own flag only. *)
Definition analysis_only (s s' : Racesafe.State) : Prop :=
  Racesafe.client s' = Racesafe.client s /\
  Racesafe.authenticated s' = Racesafe.authenticated s /\
  Racesafe.sessionDrivers s' = Racesafe.sessionDrivers s /\
  Racesafe.myCarIdx s' = Racesafe.myCarIdx s /\
  Racesafe.currentSessionType s' = Racesafe.currentSessionType s /\
  Racesafe.driversInDangerZone s' = Racesafe.driversInDangerZone s /\
  Racesafe.tokenRefreshInterval s' = Racesafe.tokenRefreshInterval s /\
  Racesafe.trackName s' = Racesafe.trackName s /\
  Racesafe.seriesName s' = Racesafe.seriesName s /\
  Racesafe.mySessionIncidents s' = Racesafe.mySessionIncidents s /\
  Racesafe.lastKnownIncidents s' = Racesafe.lastKnownIncidents s /\
  Racesafe.driverSessionIncidents s' = Racesafe.driverSessionIncidents s /\
  Racesafe.iracingSDK s' = Racesafe.iracingSDK s /\
  Racesafe.isRunning s' = Racesafe.isRunning s /\
  Racesafe.isServiceMode s' = Racesafe.isServiceMode s.

(** What no session info update changes. *)
Definition session_info_frame (s s' : Racesafe.State) : Prop :=
  Racesafe.client s' = Racesafe.client s /\
  Racesafe.authenticated s' = Racesafe.authenticated s /\
  Racesafe.driversInDangerZone s' = Racesafe.driversInDangerZone s /\
  Racesafe.tokenRefreshInterval s' = Racesafe.tokenRefreshInterval s /\
  Racesafe.mySessionIncidents s' = Racesafe.mySessionIncidents s /\
  Racesafe.lastKnownIncidents s' = Racesafe.lastKnownIncidents s /\
  Racesafe.iracingSDK s' = Racesafe.iracingSDK s /\
  Racesafe.isRunning s' = Racesafe.isRunning s /\
  Racesafe.isServiceMode s' = Racesafe.isServiceMode s.

(** The session type that a list of sessions selects, starting from the
    current one: each recognised session overrides the ones before it. *)
Definition selected_type (current : Racesafe.SessionType) (sessions : list Racesafe.Session)
  : Racesafe.SessionType :=
  fold_left (fun t session => default t (Racesafe.session_type_of session)) sessions current.


(** The result entries of an update, in the order of its sessions, and the
    last of them for a car slot. *)
Definition listed_results (sessions : list Racesafe.Session) : list Racesafe.ResultPosition :=
  concat (omap Racesafe.ResultsPositions sessions).

Definition last_result (idx : Z) (results : list Racesafe.ResultPosition)
  : option Racesafe.ResultPosition :=
  List.find (fun r => Racesafe.rp_CarIdx r =? idx) (rev results).

(** The number of analyses of a licence class. *)
Definition class_count (cls : string) (analyses : list Racesafe.AnalyzedDriver) : Z :=
  Z.of_nat (length (List.filter
                      (fun a => String.eqb (JS.str_or (Racesafe.licenseClass a) "?") cls)
                      analyses)).

(** The classes of the analyses come from [extractLicenseClass]. *)
Definition classes_extracted (analyses : list Racesafe.AnalyzedDriver) : Prop :=
  Forall (fun a => exists text, Racesafe.licenseClass a = Racesafe.extractLicenseClass text)
    analyses.

(** The licence line for the classes of a list, in its order. *)
Definition license_line (order : list string) (analyses : list Racesafe.AnalyzedDriver)
  : string :=
  String.concat " | "
    (map (fun cls => (cls +:+ ": " +:+ JS.show (class_count cls analyses))%string)
       (List.filter (fun cls => class_count cls analyses >? 0) order)).

(** A driver that enters the overall grid risk: analysed, and not the
    user. *)
Definition rated (a : Racesafe.AnalyzedDriver) : bool :=
  JS.Qgeb (Racesafe.riskScore a) 0 && negb (Racesafe.isMe a).

(** The order of two rows of the driver table: the own car before any
    other, then a score that is not lower. *)
Definition table_before (a b : Racesafe.AnalyzedDriver) : Prop :=
  Racesafe.isMe a = true \/
  (Racesafe.isMe b = false /\ (Racesafe.riskScore b <= Racesafe.riskScore a)%Q).

(** The telemetry events of a session, delivered to the listener one
    after the other. *)
Fixpoint telemetry_events (config : Racesafe.AlertConfig)
  (execThrows : Racesafe.Sound -> bool) (s : Racesafe.State)
  (updates : list Racesafe.Telemetry) : Racesafe.State * list Racesafe.Event :=
  match updates with
  | [] => (s, [])
  | values :: rest =>
      let '(s1, out1) := Racesafe.onTelemetry config execThrows s values in
      let '(s2, out2) := telemetry_events config execThrows s1 rest in
      (s2, out1 ++ out2)
  end.

(** * Example inputs *)

(** A timing with every incident in mid-race: no timing modifier. *)
Definition mid_race_only : RiskAnalysis.IncidentTiming :=
  {| RiskAnalysis.lap1_2 := 0; RiskAnalysis.midRace := 1; RiskAnalysis.finalLap := 0 |}.

(** A history for examples: one race of seven laps with one incident
    point on lap 1, one on lap 3 and one on lap 6. *)
Definition example_race : RiskAnalysis.IRacingRecentRace :=
  {| RiskAnalysis.subsessionId := 1001;
     RiskAnalysis.sessionStartTime := 0;
     RiskAnalysis.incidents := 3;
     RiskAnalysis.oldSubLevel := 250;
     RiskAnalysis.newSubLevel := 240 |}.

Definition example_laps : list RiskAnalysis.IRacingLapData :=
  map (fun p => {| RiskAnalysis.lapNumber := fst p; RiskAnalysis.incident := snd p |})
    [(0, 0); (1, 1); (2, 1); (3, 2); (4, 2); (5, 2); (6, 3)].

Definition example_client : RiskAnalysis.IRacingClient :=
  {| RiskAnalysis.searchRaceResults := fun _ _ => [example_race];
     RiskAnalysis.getRecentRaces := fun _ => inr [];
     RiskAnalysis.getLapData := fun _ _ => inr example_laps;
     RiskAnalysis.getDriverInfo := fun _ => None |}.

(** Configurations and inputs for examples. *)
Definition all_on : Racesafe.AlertConfig :=
  let on := {| Racesafe.danger := true; Racesafe.incident := true |} in
  {| Racesafe.practice := on; Racesafe.qualify := on;
     Racesafe.race := on; Racesafe.warmup := on |}.

Definition all_off : Racesafe.AlertConfig :=
  let off := {| Racesafe.danger := false; Racesafe.incident := false |} in
  {| Racesafe.practice := off; Racesafe.qualify := off;
     Racesafe.race := off; Racesafe.warmup := off |}.

Definition never_throws : Racesafe.Sound -> bool := fun _ => false.

Definition example_telemetry : Racesafe.Telemetry :=
  {| Racesafe.SessionFlags := Some 4;
     Racesafe.CarIdxLap := [3; 3];
     Racesafe.CarIdxLapDistPct := [0.50; 0.51]%Q;
     Racesafe.CarIdxPosition := [1; 2];
     Racesafe.CarIdxClassPosition := [1; 2];
     Racesafe.CarIdxOnPitRoad := [false; false];
     Racesafe.PlayerCarMyIncidentCount := Some 0 |}.

(** An environment that sets every switch of a configuration. *)
Definition env_of (config : Racesafe.AlertConfig) : gmap string string :=
  let word (b : bool) : string := if b then "on" else "OFF" in
  list_to_map
    [ ("ALERTS_PRACTICE_DANGER", word (Racesafe.danger (Racesafe.practice config)));
      ("ALERTS_PRACTICE_INCIDENT", word (Racesafe.incident (Racesafe.practice config)));
      ("ALERTS_QUALIFY_DANGER", word (Racesafe.danger (Racesafe.qualify config)));
      ("ALERTS_QUALIFY_INCIDENT", word (Racesafe.incident (Racesafe.qualify config)));
      ("ALERTS_RACE_DANGER", word (Racesafe.danger (Racesafe.race config)));
      ("ALERTS_RACE_INCIDENT", word (Racesafe.incident (Racesafe.race config)));
      ("ALERTS_WARMUP_DANGER", word (Racesafe.danger (Racesafe.warmup config)));
      ("ALERTS_WARMUP_INCIDENT", word (Racesafe.incident (Racesafe.warmup config))) ].

(** A HIGH-risk driver in car slot 7, seen ahead at a given gap, and five
    ticks with the gaps 2.0, 1.0, 1.2, 1.5 and 0.5 seconds. *)
Definition example_high_driver : Racesafe.AnalyzedDriver :=
  {| Racesafe.carIdx := 7; Racesafe.carNumber := "77"; Racesafe.custId := 700;
     Racesafe.name := "Driver 700"; Racesafe.sr := "2.10";
     Racesafe.licenseClass := "D"; Racesafe.iRating := 1300;
     Racesafe.totalRaces := 12; Racesafe.recentRaces := 4;
     Racesafe.avgIncidents := 8.5; Racesafe.recentAvgIncidents := 9.0;
     Racesafe.lastRaceIncidents := 11;
     Racesafe.incidentTypes :=
       {| Racesafe.contact4x := 5; Racesafe.lostControl2x := 3;
          Racesafe.offTrack1x := 4; Racesafe.total := 12 |};
     Racesafe.riskScore := 8.8; Racesafe.riskLevel := "HIGH";
     Racesafe.patterns := ["Very high incident rate: 8.5 avg per race"];
     Racesafe.isMe := false |}.



(** The monitor in the RACING phase: the local car in slot 0, the
    HIGH-risk driver analysed in slot 7, incident tracking started at 0. *)
Definition racing_state : Racesafe.State :=
  Racesafe.set_incidents 0 0
    (Racesafe.set_currentPhase Racesafe.RACING
       {| Racesafe.client := None;
          Racesafe.authenticated := true;
          Racesafe.sessionDrivers := [];
          Racesafe.analyzedDrivers := [(7, example_high_driver)];
          Racesafe.myCarIdx := 0;
          Racesafe.currentPhase := Racesafe.PRE_RACE;
          Racesafe.preRaceAnalysisComplete := true;
          Racesafe.currentSessionType := Racesafe.Race;
          Racesafe.driversInDangerZone := ∅;
          Racesafe.tokenRefreshInterval := Some 1;
          Racesafe.trackName := "Spa";
          Racesafe.seriesName := "Series 1";
          Racesafe.mySessionIncidents := 0;
          Racesafe.lastKnownIncidents := -1;
          Racesafe.driverSessionIncidents := ∅;
          Racesafe.iracingSDK := Some 1;
          Racesafe.isRunning := true;
          Racesafe.isServiceMode := false |}).

(** A telemetry update under the green flag with the local car at the
    track fraction 0.50 and slot 7 at the fraction [pct]; the local
    incident count is [inc]. *)
Definition telemetry_at (pct : Q) (inc : Z) : Racesafe.Telemetry :=
  {| Racesafe.SessionFlags := Some 4;
     Racesafe.CarIdxLap := [3; 0; 0; 0; 0; 0; 0; 3];
     Racesafe.CarIdxLapDistPct := [0.50; 0; 0; 0; 0; 0; 0; pct]%Q;
     Racesafe.CarIdxPosition := [2; 0; 0; 0; 0; 0; 0; 1];
     Racesafe.CarIdxClassPosition := [2; 0; 0; 0; 0; 0; 0; 1];
     Racesafe.CarIdxOnPitRoad := [false; false; false; false; false; false; false; false];
     Racesafe.PlayerCarMyIncidentCount := Some inc |}.


(** A client whose every lap-data fetch fails. *)
Definition lapless_client : RiskAnalysis.IRacingClient :=
  {| RiskAnalysis.searchRaceResults := fun _ _ => [example_race];
     RiskAnalysis.getRecentRaces := fun _ => inr [];
     RiskAnalysis.getLapData :=
       fun _ _ => inl (RiskAnalysis.ApiRequestFailed "500 Internal Server Error");
     RiskAnalysis.getDriverInfo := fun _ => None |}.

(** A race at a given instant with a given change of the safety
    sub-level and a given incident count. *)
Definition race_at (start change inc : Z) : RiskAnalysis.IRacingRecentRace :=
  {| RiskAnalysis.subsessionId := start;
     RiskAnalysis.sessionStartTime := start;
     RiskAnalysis.incidents := inc;
     RiskAnalysis.oldSubLevel := 300;
     RiskAnalysis.newSubLevel := 300 + change |}.

(** A client whose search returns three races out of date order. *)
Definition unsorted_client : RiskAnalysis.IRacingClient :=
  {| RiskAnalysis.searchRaceResults :=
       fun _ _ => [race_at 100 10 2; race_at 300 10 7; race_at 200 10 4];
     RiskAnalysis.getRecentRaces := fun _ => inr [];
     RiskAnalysis.getLapData := fun _ _ => inr example_laps;
     RiskAnalysis.getDriverInfo := fun _ => None |}.

(** A user with customer id 42, and the results of a session with three
    drivers: the user, a driver with a history and a driver without. *)
Definition example_user : GridAnalysis.UserProfile :=
  {| GridAnalysis.custId := Some 42; GridAnalysis.sr := 2.5; GridAnalysis.srGoal := 2.0;
     GridAnalysis.irating := 1500; GridAnalysis.startingPosition := Some 3;
     GridAnalysis.goalDescription := "Maintain SR above 2.0" |}.

Definition example_results : GridAnalysis.RaceResults :=
  let driver id :=
    {| GridAnalysis.cust_id := id; GridAnalysis.finish_position := None;
       GridAnalysis.starting_position := None; GridAnalysis.display_name := None |} in
  {| GridAnalysis.series_name := Some "Series";
     GridAnalysis.track_name := None;
     GridAnalysis.event_strength_of_field := Some 1500;
     GridAnalysis.session_results :=
       [ {| GridAnalysis.simsession_type := 3; GridAnalysis.results := [driver 1] |};
         {| GridAnalysis.simsession_type := 6;
            GridAnalysis.results := [driver 42; driver 7; driver 8] |} ] |}.

(** A client that knows the history of driver 7 only. *)
Definition one_history_client : RiskAnalysis.IRacingClient :=
  {| RiskAnalysis.searchRaceResults :=
       fun custId _ => if custId =? 7 then [example_race] else [];
     RiskAnalysis.getRecentRaces :=
       fun custId =>
         if custId =? 8 then inl (RiskAnalysis.ApiRequestFailed "404 Not Found")
         else inr [];
     RiskAnalysis.getLapData := fun _ _ => inr example_laps;
     RiskAnalysis.getDriverInfo := fun _ => None |}.

(** The monitor connected and authenticated, before any session info. *)
Definition pre_race_state : Racesafe.State :=
  {| Racesafe.client := Some example_client;
     Racesafe.authenticated := true;
     Racesafe.sessionDrivers := [];
     Racesafe.analyzedDrivers := [];
     Racesafe.myCarIdx := -1;
     Racesafe.currentPhase := Racesafe.PRE_RACE;
     Racesafe.preRaceAnalysisComplete := false;
     Racesafe.currentSessionType := Racesafe.Race;
     Racesafe.driversInDangerZone := ∅;
     Racesafe.tokenRefreshInterval := Some 1;
     Racesafe.trackName := "";
     Racesafe.seriesName := "";
     Racesafe.mySessionIncidents := 0;
     Racesafe.lastKnownIncidents := -1;
     Racesafe.driverSessionIncidents := ∅;
     Racesafe.iracingSDK := Some 1;
     Racesafe.isRunning := true;
     Racesafe.isServiceMode := false |}.

(** A session info update of a race weekend: the pace car in slot 0, the
    user (customer 42) in slot 3 and another driver in slot 7. *)
Definition example_driver (slot user : Z) (userName : string) : Racesafe.Driver :=
  {| Racesafe.d_CarIdx := slot; Racesafe.d_UserID := user;
     Racesafe.d_UserName := Some userName; Racesafe.d_IRating := Some 1500;
     Racesafe.d_LicString := Some "C 3.21"; Racesafe.d_CarNumber := None |}.

Definition example_session_info : Racesafe.SessionInfo :=
  {| Racesafe.si_WeekendInfo :=
       Some {| Racesafe.TrackDisplayName := Some "Spa"; Racesafe.TrackName := Some "spa";
               Racesafe.SeriesID := Some 1 |};
     Racesafe.si_Sessions :=
       Some [ {| Racesafe.SessionType_ := Some "Practice"; Racesafe.ResultsPositions := None |};
              {| Racesafe.SessionType_ := Some "Lone Qualify";
                 Racesafe.ResultsPositions := None |};
              {| Racesafe.SessionType_ := Some "Race";
                 Racesafe.ResultsPositions :=
                   Some [ {| Racesafe.rp_CarIdx := 7; Racesafe.rp_Incidents := Some 2 |} ] |} ];
     Racesafe.si_Drivers :=
       Some [ example_driver 0 (-1) "Pace Car"; example_driver 3 42 "Me";
              example_driver 7 700 "Other" ] |}.

(** A clock that always reads 0 and a [parseInt] that knows no number. *)
Definition clock_zero : Racesafe.SessionDriver -> Z := fun _ => 0.
Definition parse_nothing : string -> option Z := fun _ => None.
Definition parse_nothing_float : string -> option Q := fun _ => None.

(** Three drivers that could not be analysed, with an A, a Pro and a
    rookie licence. *)
Definition licensed_driver (slot : Z) (license : string) : Racesafe.AnalyzedDriver :=
  Racesafe.unanalyzed
    {| Racesafe.sd_carIdx := slot; Racesafe.sd_custId := 100 + slot;
       Racesafe.sd_name := "Driver"; Racesafe.sd_iRating := 1500;
       Racesafe.sd_licenseLevel := license; Racesafe.sd_carNumber := JS.show slot |}
    false "UNKNOWN".

Definition example_field : list Racesafe.AnalyzedDriver :=
  [licensed_driver 1 "A 4.99"; licensed_driver 2 "Pro 4.50"; licensed_driver 3 "R 2.50"].

(** * Properties *)

(** ** The embedding on concrete inputs *)

Example estimateIncidentTypes_examples :
  RiskAnalysis.estimateIncidentTypes 7
  = {| RiskAnalysis.x4 := 1; RiskAnalysis.x2 := 1; RiskAnalysis.x1 := 1 |} /\
  RiskAnalysis.estimateIncidentTypes 3
  = {| RiskAnalysis.x4 := 0; RiskAnalysis.x2 := 1; RiskAnalysis.x1 := 1 |} /\
  RiskAnalysis.estimateIncidentTypes (-2)
  = {| RiskAnalysis.x4 := 0; RiskAnalysis.x2 := 0; RiskAnalysis.x1 := 0 |}.
Proof. repeat split. Qed.

Example calculateRiskScore_example :
  let t := {| RiskAnalysis.lap1_2 := 0.5; RiskAnalysis.midRace := 0.3;
              RiskAnalysis.finalLap := 0.2 |} in
  (RiskAnalysis.calculateRiskScore 8.5 t == 10)%Q /\
  RiskAnalysis.classifyRisk (RiskAnalysis.calculateRiskScore 8.5 t) = RiskAnalysis.HIGH /\
  (RiskAnalysis.calculateRiskScore 3 mid_race_only == 4)%Q.
Proof. repeat split. Qed.

Example analyzeDriver_example :
  exists profile,
    RiskAnalysis.analyzeDriver example_client 0 42 10 = inr profile /\
    RiskAnalysis.p_displayName profile = "Driver 42" /\
    RiskAnalysis.totalRacesAnalyzed profile = 1 /\
    (RiskAnalysis.avgIncidentsPerRace profile == 3)%Q /\
    RiskAnalysis.incidentTypes profile
    = {| RiskAnalysis.contact4x := 0; RiskAnalysis.lostControl2x := 0;
         RiskAnalysis.offTrack1x := 3; RiskAnalysis.total := 3 |} /\
    (RiskAnalysis.riskScore profile == 5.5)%Q /\
    RiskAnalysis.riskLevel profile = RiskAnalysis.MODERATE /\
    RiskAnalysis.srTrend profile = RiskAnalysis.stable /\
    RiskAnalysis.keyPatterns profile
    = ["Late race risk: 33% of incidents near finish"] /\
    RiskAnalysis.recommendation profile
    = "Reasonable to race with - stay alert but not overly cautious".
Proof. eexists. split; [reflexivity |]. vm_compute. repeat split. Qed.

(** Slot 7 at the fraction 0.51 is 0.9 seconds ahead: the first update
    raises the danger alert, the second, with the car still there, does
    not, and a rise of the incident count raises the incident alert. *)
Example handleTelemetry_example :
  let run := Racesafe.handleTelemetry all_on never_throws in
  let threat :=
    {| Racesafe.driver := example_high_driver; Racesafe.gap := Some 0.9%Q;
       Racesafe.direction := Racesafe.AHEAD; Racesafe.sessionIncidents := 0 |} in
  let s1 := fst (run racing_state (telemetry_at 0.51 0)) in
  exists g,
    (g == 0.9)%Q /\
    snd (run racing_state (telemetry_at 0.51 0))
    = [ Racesafe.StatusLine 3 2 1 0
          (Some {| Racesafe.driver := example_high_driver; Racesafe.gap := Some g;
                   Racesafe.direction := Racesafe.AHEAD;
                   Racesafe.sessionIncidents := 0 |}) None;
        Racesafe.Exec Racesafe.ExclamationTwice;
        Racesafe.DangerBanner
          {| Racesafe.driver := example_high_driver; Racesafe.gap := Some g;
             Racesafe.direction := Racesafe.AHEAD; Racesafe.sessionIncidents := 0 |} ] /\
    snd (run s1 (telemetry_at 0.51 4))
    = [ Racesafe.Exec Racesafe.Asterisk;
        Racesafe.IncidentFlash 4 4;
        Racesafe.StatusLine 3 2 1 4
          (Some {| Racesafe.driver := example_high_driver; Racesafe.gap := Some g;
                   Racesafe.direction := Racesafe.AHEAD;
                   Racesafe.sessionIncidents := 0 |}) None ].
Proof. cbv zeta. eexists. split; [| split; vm_compute; reflexivity]. reflexivity. Qed.

(** ** The greedy severity decomposition *)

Section Greedy.
Import RiskAnalysis.

Lemma while_sub_subtract_while k count remaining :
  subtract_while (Zpos k) (count, remaining) (while_sub k count remaining).
Proof.
  funelim (while_sub k count remaining).
  - eapply subtract_once; [assumption|]. assumption.
  - apply subtract_stop. lia.
Qed.

Lemma while_sub_div_mod k count remaining :
  0 <= remaining ->
  while_sub k count remaining
  = (count + remaining / Zpos k, remaining mod Zpos k).
Proof.
  funelim (while_sub k count remaining); intros Hpos.
  - rewrite H by lia.
    replace remaining with ((remaining - Z.pos k) + 1 * Z.pos k) at 3 4 by lia.
    rewrite Z.div_add, Z.mod_add by lia. f_equal. lia.
  - rewrite Z.div_small, Z.mod_small by lia. f_equal. lia.
Qed.

Lemma subtract_while_deterministic k a b c :
  subtract_while k a b -> subtract_while k a c -> b = c.
Proof.
  intros Hb. revert c.
  induction Hb as [count remaining Hlt | count remaining final Hle _ IH]; intros c Hc.
  - inversion Hc; subst; [reflexivity | lia].
  - inversion Hc; subst; [lia |]. now apply IH.
Qed.

Lemma greedy_decomposition_unique delta e1 e2 :
  greedy_decomposition delta e1 -> greedy_decomposition delta e2 -> e1 = e2.
Proof.
  intros (r1 & H41 & H21) (r2 & H42 & H22).
  pose proof (subtract_while_deterministic _ _ _ _ H41 H42) as E4.
  injection E4 as E4 Er. subst r2.
  pose proof (subtract_while_deterministic _ _ _ _ H21 H22) as E2.
  injection E2 as E2 E1.
  destruct e1, e2. cbn in *. congruence.
Qed.

End Greedy.

(** C1.  For every non-negative integer lap delta, the counts returned by
    [estimateIncidentTypes] are non-negative, their weighted sum
    [4*x4 + 2*x2 + 1*x1] is the delta, and they are the greedy
    highest-first decomposition: 4 is subtracted while the remainder is at
    least 4, then 2 while the remainder is at least 2, and what is left,
    0 or 1, is the off-track count; no other counts satisfy that
    description.  In closed form the counts are [delta / 4],
    [(delta mod 4) / 2] and [delta mod 2]. *)
Theorem estimateIncidentTypes_greedy (delta : Z) :
  0 <= delta ->
  let e := RiskAnalysis.estimateIncidentTypes delta in
  (0 <= RiskAnalysis.x4 e /\ 0 <= RiskAnalysis.x2 e /\ 0 <= RiskAnalysis.x1 e) /\
  4 * RiskAnalysis.x4 e + 2 * RiskAnalysis.x2 e + 1 * RiskAnalysis.x1 e = delta /\
  (greedy_decomposition delta e /\
   forall e', greedy_decomposition delta e' -> e' = e) /\
  (RiskAnalysis.x1 e = 0 \/ RiskAnalysis.x1 e = 1) /\
  e = {| RiskAnalysis.x4 := delta / 4;
         RiskAnalysis.x2 := (delta mod 4) / 2;
         RiskAnalysis.x1 := delta mod 2 |}.
Proof.
  intros Hdelta e.
  assert (Hmm : (delta mod 4) mod 2 = delta mod 2).
  { change 4 with (2 * 2). rewrite Z.rem_mul_r by lia.
    rewrite Z.mul_comm, Z.mod_add by lia. apply Z.mod_mod. lia. }
  assert (Hform : e = {| RiskAnalysis.x4 := delta / 4;
                         RiskAnalysis.x2 := (delta mod 4) / 2;
                         RiskAnalysis.x1 := delta mod 2 |}).
  { subst e. unfold RiskAnalysis.estimateIncidentTypes.
    destruct (Z.leb_spec delta 0) as [Hle | Hlt].
    - assert (delta = 0) by lia. subst delta. reflexivity.
    - rewrite while_sub_div_mod by lia. cbn zeta iota beta.
      rewrite while_sub_div_mod by (apply Z.mod_pos_bound; lia).
      cbn zeta iota beta. rewrite Hmm, !Z.add_0_l. reflexivity. }
  assert (Hgreedy : greedy_decomposition delta e).
  { subst e. unfold RiskAnalysis.estimateIncidentTypes, greedy_decomposition.
    destruct (Z.leb_spec delta 0) as [Hle | Hlt].
    - assert (delta = 0) by lia. subst delta. exists 0. cbn.
      split; apply subtract_stop; lia.
    - pose proof (while_sub_subtract_while 4 0 delta) as H4.
      destruct (RiskAnalysis.while_sub 4 0 delta) as [c4 r4].
      pose proof (while_sub_subtract_while 2 0 r4) as H2.
      destruct (RiskAnalysis.while_sub 2 0 r4) as [c2 r2].
      exists r4. cbn. split; assumption. }
  pose proof (Z.mod_pos_bound delta 4 ltac:(lia)) as Hm4.
  pose proof (Z.mod_pos_bound delta 2 ltac:(lia)) as Hm2.
  pose proof (Z.div_mod delta 4 ltac:(lia)) as Hd4.
  pose proof (Z.div_mod (delta mod 4) 2 ltac:(lia)) as Hd2.
  assert (0 <= delta / 4) by (apply Z.div_pos; lia).
  assert (0 <= (delta mod 4) / 2) by (apply Z.div_pos; lia).
  assert (Huniq : forall e', greedy_decomposition delta e' -> e' = e)
    by (intros e' He'; exact (greedy_decomposition_unique delta e' e He' Hgreedy)).
  rewrite Hform in *. cbn [RiskAnalysis.x4 RiskAnalysis.x2 RiskAnalysis.x1].
  repeat split; try assumption; try lia.
Qed.

Lemma estimateIncidentTypes_greedy_witness :
  let e := RiskAnalysis.estimateIncidentTypes 7 in
  (0 <= RiskAnalysis.x4 e /\ 0 <= RiskAnalysis.x2 e /\ 0 <= RiskAnalysis.x1 e) /\
  4 * RiskAnalysis.x4 e + 2 * RiskAnalysis.x2 e + 1 * RiskAnalysis.x1 e = 7 /\
  (greedy_decomposition 7 e /\
   forall e', greedy_decomposition 7 e' -> e' = e) /\
  (RiskAnalysis.x1 e = 0 \/ RiskAnalysis.x1 e = 1) /\
  e = {| RiskAnalysis.x4 := 7 / 4;
         RiskAnalysis.x2 := (7 mod 4) / 2;
         RiskAnalysis.x1 := 7 mod 2 |}.
Proof. apply (estimateIncidentTypes_greedy 7). lia. Defined.

(** ** Arithmetic of the JavaScript primitives *)

Section Primitives.
Import JS.
Local Open Scope Q_scope.

Lemma Qleb_spec a b : reflect (a <= b) (Qleb a b).
Proof.
  unfold Qleb. destruct (Qle_bool a b) eqn:E; constructor.
  - now apply Qle_bool_iff.
  - intros H. apply Qle_bool_iff in H. congruence.
Qed.

Lemma Qltb_spec a b : reflect (a < b) (Qltb a b).
Proof.
  unfold Qltb. change (Qle_bool b a) with (Qleb b a).
  destruct (Qleb_spec b a) as [H | H]; constructor.
  - now apply Qle_not_lt.
  - now apply Qnot_le_lt.
Qed.

Lemma Qgtb_spec a b : reflect (b < a) (Qgtb a b).
Proof. apply Qltb_spec. Qed.

Lemma Qgeb_spec a b : reflect (b <= a) (Qgeb a b).
Proof. apply Qleb_spec. Qed.

Lemma Math_min_spec a b :
  (a <= b /\ Math_min a b = a) \/ (b < a /\ Math_min a b = b).
Proof.
  unfold Math_min. destruct (Qleb_spec a b) as [H | H]; [left | right]; split; trivial.
  now apply Qnot_le_lt.
Qed.

Lemma Math_min_Qmin a b : Math_min a b == Qmin a b.
Proof.
  destruct (Math_min_spec a b) as [[H ->] | [H ->]].
  - symmetry. now apply Q.min_l.
  - symmetry. apply Q.min_r. now apply Qlt_le_weak.
Qed.

Lemma Math_round_mono x y : x <= y -> (Math_round x <= Math_round y)%Z.
Proof. intros H. apply Qfloor_resp_le. lra. Qed.

Lemma Math_round_lower x : x - (1 # 2) < inject_Z (Math_round x).
Proof.
  unfold Math_round. pose proof (Qlt_floor (x + (1 # 2))) as H.
  rewrite inject_Z_plus in H. change (inject_Z 1) with 1 in H. lra.
Qed.

Lemma Math_round_upper x : inject_Z (Math_round x) <= x + (1 # 2).
Proof. apply Qfloor_le. Qed.

Lemma Math_round_Z z : Math_round (inject_Z z) = z.
Proof.
  apply Z.le_antisymm.
  - pose proof (Math_round_upper (inject_Z z)) as H.
    assert (inject_Z (Math_round (inject_Z z)) < inject_Z (z + 1)) as H'.
    { rewrite inject_Z_plus. change (inject_Z 1) with 1. lra. }
    rewrite <- Zlt_Qlt in H'. lia.
  - pose proof (Math_round_lower (inject_Z z)) as H.
    assert (inject_Z (z - 1) < inject_Z (Math_round (inject_Z z))) as H'.
    { unfold Z.sub. rewrite inject_Z_plus, inject_Z_opp.
      change (inject_Z 1) with 1. lra. }
    rewrite <- Zlt_Qlt in H'. lia.
Qed.

Lemma Math_round_comp x y : x == y -> Math_round x = Math_round y.
Proof. intros H. apply Qfloor_comp. now rewrite H. Qed.

End Primitives.

(** Division by the constants 10 and 100, made linear. *)
Ltac linear_div :=
  unfold Qdiv in *;
  change (/ 10)%Q with (1 # 10)%Q in *;
  change (/ 100)%Q with (1 # 100)%Q in *.

(** ** Risk score and classification *)

Section Score.
Import JS RiskAnalysis.
Local Open Scope Q_scope.

Lemma baseScore_spec a : baseScore a == spec_base a.
Proof.
  unfold baseScore, spec_base.
  destruct (Qleb_spec a 2), (Qlt_le_dec 2 a); try lra.
  destruct (Qleb_spec a 5), (Qlt_le_dec 5 a); try lra.
  rewrite Math_min_Qmin. reflexivity.
Qed.

Lemma timingModifier_spec t : timingModifier t == spec_modifier t.
Proof.
  unfold timingModifier, spec_modifier. cbv zeta.
  destruct (Qgtb_spec (lap1_2 t) 0.4), (Qlt_le_dec 0.4 (lap1_2 t)); try lra;
  destruct (Qgtb_spec (finalLap t) 0.3), (Qlt_le_dec 0.3 (finalLap t)); try lra;
  repeat match goal with
         | |- context [Qgtb ?x ?y] => destruct (Qgtb_spec x y)
         | |- context [Qlt_le_dec ?x ?y] => destruct (Qlt_le_dec x y)
         end; lra.
Qed.

Lemma baseScore_mono a1 a2 : a1 <= a2 -> baseScore a1 <= baseScore a2.
Proof.
  intros H. unfold baseScore.
  destruct (Qleb_spec a1 2), (Qleb_spec a2 2), (Qleb_spec a1 5), (Qleb_spec a2 5);
    try lra;
    try (destruct (Math_min_spec ((a2 - 5) * 0.8) 4) as [[? ->] | [? ->]]);
    try (destruct (Math_min_spec ((a1 - 5) * 0.8) 4) as [[? ->] | [? ->]]);
    lra.
Qed.

Lemma baseScore_nonneg a : 0 <= a -> 0 <= baseScore a.
Proof.
  intros H. unfold baseScore.
  destruct (Qleb_spec a 2), (Qleb_spec a 5); try lra.
  destruct (Math_min_spec ((a - 5) * 0.8) 4) as [[? ->] | [? ->]]; lra.
Qed.

Lemma timingModifier_nonneg t : 0 <= timingModifier t.
Proof.
  unfold timingModifier. cbv zeta.
  destruct (Qgtb (lap1_2 t) 0.4), (Qgtb (lap1_2 t) 0.3),
    (Qgtb (finalLap t) 0.3), (Qgtb (finalLap t) 0.25); lra.
Qed.

Lemma Math_min_mono a b c : a <= b -> Math_min a c <= Math_min b c.
Proof.
  intros H.
  destruct (Math_min_spec a c) as [[? ->] | [? ->]],
           (Math_min_spec b c) as [[? ->] | [? ->]]; lra.
Qed.

(** The last line of [calculateRiskScore]. *)
Lemma round_tenth_mono x y :
  x <= y ->
  inject_Z (Math_round (x * 10)) / 10 <= inject_Z (Math_round (y * 10)) / 10.
Proof.
  intros H. assert (Math_round (x * 10) <= Math_round (y * 10))%Z as Hz
    by (apply Math_round_mono; lra).
  rewrite Zle_Qle in Hz. linear_div. lra.
Qed.

Lemma round_tenth_rounded x :
  rounded_to_one_decimal x (inject_Z (Math_round (x * 10)) / 10).
Proof.
  split; [eexists; reflexivity |].
  pose proof (Math_round_lower (x * 10)). pose proof (Math_round_upper (x * 10)).
  linear_div. split; lra.
Qed.

Lemma round_tenth_le_10 x :
  x <= 10 -> inject_Z (Math_round (x * 10)) / 10 <= 10.
Proof.
  intros H. assert (Math_round (x * 10) <= Math_round (inject_Z 100))%Z as Hz
    by (apply Math_round_mono; change (inject_Z 100) with 100; lra).
  rewrite Math_round_Z in Hz. rewrite Zle_Qle in Hz.
  change (inject_Z 100) with 100 in Hz. linear_div. lra.
Qed.

Lemma round_tenth_nonneg x :
  0 <= x -> 0 <= inject_Z (Math_round (x * 10)) / 10.
Proof.
  intros H. assert (Math_round (inject_Z 0) <= Math_round (x * 10))%Z as Hz
    by (apply Math_round_mono; change (inject_Z 0) with 0; lra).
  rewrite Math_round_Z in Hz. rewrite Zle_Qle in Hz.
  change (inject_Z 0) with 0 in Hz. linear_div. lra.
Qed.

(** The clamped sum of the code is the one of the specification. *)
Lemma final_score_spec a t :
  Math_min (baseScore a + timingModifier t) 10.0
  == Qmin (spec_base a + spec_modifier t) 10.
Proof.
  rewrite Math_min_Qmin.
  pose proof (baseScore_spec a). pose proof (timingModifier_spec t).
  destruct (Q.min_spec (baseScore a + timingModifier t) 10.0) as [[? ->] | [? ->]],
           (Q.min_spec (spec_base a + spec_modifier t) 10) as [[? ->] | [? ->]]; lra.
Qed.

End Score.

(** C3, as the code has it.  For a fixed timing the score is monotonically
    non-decreasing in the average incidents; for every input it is at most
    10 and is [min(base + timing modifier, 10)] rounded to one decimal,
    with the base and the modifier of the specification; it is at least 0
    whenever the average incidents are not negative. *)
Theorem calculateRiskScore_monotone_clamped
  (timing : RiskAnalysis.IncidentTiming) (a1 a2 : Q) :
  (a1 <= a2 ->
   RiskAnalysis.calculateRiskScore a1 timing
   <= RiskAnalysis.calculateRiskScore a2 timing)%Q /\
  (RiskAnalysis.calculateRiskScore a1 timing <= 10)%Q /\
  (0 <= a1 -> 0 <= RiskAnalysis.calculateRiskScore a1 timing)%Q /\
  rounded_to_one_decimal (Qmin (spec_base a1 + spec_modifier timing) 10)
    (RiskAnalysis.calculateRiskScore a1 timing).
Proof.
  unfold RiskAnalysis.calculateRiskScore. cbv zeta.
  repeat split.
  - intros H. apply round_tenth_mono. apply Math_min_mono.
    pose proof (baseScore_mono a1 a2 H). lra.
  - apply round_tenth_le_10.
    destruct (Math_min_spec
                (RiskAnalysis.baseScore a1 + RiskAnalysis.timingModifier timing) 10.0)
      as [[? ->] | [? ->]]; lra.
  - intros H. apply round_tenth_nonneg.
    pose proof (baseScore_nonneg a1 H). pose proof (timingModifier_nonneg timing).
    destruct (Math_min_spec
                (RiskAnalysis.baseScore a1 + RiskAnalysis.timingModifier timing) 10.0)
      as [[? ->] | [? ->]]; lra.
  - eexists. reflexivity.
  - pose proof (final_score_spec a1 timing) as Hm.
    pose proof (round_tenth_rounded
        (JS.Math_min (RiskAnalysis.baseScore a1 + RiskAnalysis.timingModifier timing) 10.0))
      as [_ [Hlo _]].
    lra.
  - pose proof (final_score_spec a1 timing) as Hm.
    pose proof (round_tenth_rounded
        (JS.Math_min (RiskAnalysis.baseScore a1 + RiskAnalysis.timingModifier timing) 10.0))
      as [_ [_ Hhi]].
    lra.
Qed.

Lemma calculateRiskScore_monotone_clamped_witness :
  (RiskAnalysis.calculateRiskScore 1 mid_race_only
   <= RiskAnalysis.calculateRiskScore 8.5 mid_race_only)%Q /\
  (0 <= RiskAnalysis.calculateRiskScore 1 mid_race_only)%Q.
Proof.
  destruct (calculateRiskScore_monotone_clamped mid_race_only 1 8.5)
    as [Hmono [_ [Hpos _]]].
  split; [apply Hmono | apply Hpos]; vm_compute; discriminate.
Defined.

(** C3, as stated, fails below zero: an average of -1 with no timing
    modifier scores -1.5, outside [0,10]. *)
Lemma calculateRiskScore_negative :
  (RiskAnalysis.calculateRiskScore (-1) mid_race_only == -1.5)%Q /\
  ~ (0 <= RiskAnalysis.calculateRiskScore (-1) mid_race_only)%Q.
Proof. split; vm_compute; [reflexivity | intros H; apply H; reflexivity]. Qed.

(** C4.  [classifyRisk] returns LOW exactly when the score is below 4,
    MODERATE exactly when it is at least 4 and below 7, and HIGH exactly
    when it is at least 7; at the boundaries, 3.9 is LOW, 4.0 and 6.9 are
    MODERATE and 7.0 is HIGH. *)
Theorem classifyRisk_thresholds (score : Q) :
  (RiskAnalysis.classifyRisk score = RiskAnalysis.LOW <-> (score < 4)%Q) /\
  (RiskAnalysis.classifyRisk score = RiskAnalysis.MODERATE
   <-> (4 <= score)%Q /\ (score < 7)%Q) /\
  (RiskAnalysis.classifyRisk score = RiskAnalysis.HIGH <-> (7 <= score)%Q) /\
  RiskAnalysis.classifyRisk 3.9 = RiskAnalysis.LOW /\
  RiskAnalysis.classifyRisk 4.0 = RiskAnalysis.MODERATE /\
  RiskAnalysis.classifyRisk 6.9 = RiskAnalysis.MODERATE /\
  RiskAnalysis.classifyRisk 7.0 = RiskAnalysis.HIGH.
Proof.
  unfold RiskAnalysis.classifyRisk at 1 2 3.
  destruct (Qltb_spec score 4), (Qltb_spec score 7);
    (split; [| split; [| split; [| repeat split]]]);
    try (split; intros H;
         [first [discriminate H | lra | split; lra]
         | first [reflexivity | exfalso; lra | exfalso; destruct H; lra]]).
Qed.

(** C7.  The field recommendation is CONSERVATIVE exactly when the buffer
    of the safety rating above its floor is below 0.2 and the overall risk
    is at least 5, or the overall risk is at least 7, or at least five
    drivers are high risk; otherwise MODERATE exactly when the overall risk
    is at least 5 or at least three drivers are high risk; otherwise
    AGGRESSIVE.  Six high-risk drivers with a mean score of 7.2 give
    CONSERVATIVE for every user. *)
Theorem generateGridRecommendation_cases
  (overallRisk : Q) (highRiskCount : Z) (user : GridAnalysis.UserProfile) :
  let conservative :=
    ((GridAnalysis.sr user - GridAnalysis.srGoal user < 0.2)%Q /\ (5 <= overallRisk)%Q)
    \/ (7 <= overallRisk)%Q \/ 5 <= highRiskCount in
  let moderate := (5 <= overallRisk)%Q \/ 3 <= highRiskCount in
  let r := GridAnalysis.generateGridRecommendation overallRisk highRiskCount user in
  (r = GridAnalysis.CONSERVATIVE <-> conservative) /\
  (r = GridAnalysis.MODERATE <-> ~ conservative /\ moderate) /\
  (r = GridAnalysis.AGGRESSIVE <-> ~ conservative /\ ~ moderate) /\
  GridAnalysis.generateGridRecommendation 7.2 6 user = GridAnalysis.CONSERVATIVE.
Proof.
  cbv zeta. split; [| split; [| split]].
  4: { unfold GridAnalysis.generateGridRecommendation. cbv zeta.
       destruct (JS.Qltb _ _); reflexivity. }
  all: unfold GridAnalysis.generateGridRecommendation; cbv zeta;
    destruct (Qltb_spec (GridAnalysis.sr user - GridAnalysis.srGoal user) 0.2),
      (Qgeb_spec overallRisk 5), (Qgeb_spec overallRisk 7),
      (Z.geb_spec highRiskCount 5), (Z.geb_spec highRiskCount 3);
    cbn [andb orb];
    (split; intros Hyp; first [discriminate Hyp | reflexivity | idtac]);
    try (exfalso; lra); try (exfalso; lia);
    try solve [intuition (first [lra | lia])].
Qed.

(** ** Incident timing *)

Section Timing.
Import JS RiskAnalysis.





Local Open Scope Q_scope.


End Timing.

Section TimingResult.
Import JS RiskAnalysis.
Local Open Scope Q_scope.



End TimingResult.



(** ** The driver analysis and its error *)

Section Driver.
Import JS RiskAnalysis.

Lemma sort_insert_not_nil {A} (after : A -> A -> bool) x l :
  sort_insert after x l <> [].
Proof. destruct l as [| y l]; cbn; [| destruct (after x y)]; discriminate. Qed.

Lemma Array_sort_nil_iff {A} (after : A -> A -> bool) l :
  Array_sort after l = [] <-> l = [].
Proof.
  split; intros H; [| now subst].
  destruct l as [| x l]; [reflexivity |].
  cbn in H. now apply sort_insert_not_nil in H.
Qed.

Lemma slice0_nil_iff {A} (l : list A) (e : Z) :
  1 <= e -> (slice0 l e = [] <-> l = []).
Proof.
  intros He. unfold slice0. destruct (Z.ltb_spec e 0) as [? | _]; [lia |].
  destruct l as [| x l]; [now destruct (Z.to_nat _) |].
  split; [| discriminate].
  cbn [length]. destruct (Z.to_nat (Z.min e (Z.of_nat (S (length l))))) eqn:E; [lia |].
  discriminate.
Qed.

(** The error that names the driver is thrown exactly when the subset to
    analyse in depth is empty, whatever [numRaces] is. *)
Lemma analyzeDriver_error_iff client now custId numRaces races :
  lookupRaces client now custId = inr races ->
  (analyzeDriver client now custId numRaces = inl (NoRecentRaces custId)
   <-> slice0 races numRaces = []) /\
  (slice0 races numRaces <> [] ->
   exists profile, analyzeDriver client now custId numRaces = inr profile).
Proof.
  intros Hl. unfold analyzeDriver. rewrite Hl.
  destruct (slice0 races numRaces) as [| r rs].
  - split; [easy | intros H; now contradiction H].
  - split; [split; discriminate | intros _; eexists; reflexivity].
Qed.

Lemma lookupRaces_cases client now custId :
  let searched := searchRaceResults client custId (now - 30 * msPerDay) in
  (searched = [] /\ lookupRaces client now custId = getRecentRaces client custId)
  \/ (searched <> [] /\ exists r rs, lookupRaces client now custId = inr (r :: rs)).
Proof.
  cbv zeta. unfold lookupRaces. cbv zeta.
  set (searched := searchRaceResults client custId (now - 30 * msPerDay)).
  destruct (Array_sort _ searched) as [| r rs] eqn:E.
  - left. apply Array_sort_nil_iff in E. split; [assumption | reflexivity].
  - right. split; [| now exists r, rs].
    intros H. rewrite H in E. discriminate.
Qed.

End Driver.

(** C6, as the code has it.  When at least one race is asked for
    ([numRaces >= 1]), [analyzeDriver] fails with the error that names the
    driver if and only if zero races are found, that is, the 30-day search
    is empty and the recent-races fallback returns none; whenever at least
    one race is found, a profile is returned.  A fallback lookup that
    throws is passed on as its own error. *)
Theorem analyzeDriver_no_history
  (client : RiskAnalysis.IRacingClient) (now custId numRaces : Z) :
  1 <= numRaces ->
  let searched :=
    RiskAnalysis.searchRaceResults client custId (now - 30 * RiskAnalysis.msPerDay) in
  let fallback := RiskAnalysis.getRecentRaces client custId in
  let result := RiskAnalysis.analyzeDriver client now custId numRaces in
  (result = inl (RiskAnalysis.NoRecentRaces custId)
   <-> searched = [] /\ fallback = inr []) /\
  (searched <> [] \/ (exists r rs, fallback = inr (r :: rs)) ->
   exists profile, result = inr profile) /\
  (forall e, searched = [] -> fallback = inl e ->
             result = inl (RiskAnalysis.Fetch e)) /\
  RiskAnalysis.error_message (RiskAnalysis.NoRecentRaces custId)
  = ("No recent races found for driver " +:+ JS.show custId)%string.
Proof.
  intros Hn. cbv zeta.
  remember (RiskAnalysis.searchRaceResults client custId
              (now - 30 * RiskAnalysis.msPerDay)) as searched eqn:Es.
  remember (RiskAnalysis.getRecentRaces client custId) as fallback eqn:Ef.
  remember (RiskAnalysis.analyzeDriver client now custId numRaces) as result eqn:Er.
  assert (Hsome : forall r rs,
             RiskAnalysis.lookupRaces client now custId = inr (r :: rs) ->
             (exists profile, result = inr profile)
             /\ result <> inl (RiskAnalysis.NoRecentRaces custId)).
  { intros r rs Hl. rewrite Er.
    destruct (analyzeDriver_error_iff client now custId numRaces _ Hl) as [Hiff Hok].
    assert (JS.slice0 (r :: rs) numRaces <> []) as Hne.
    { intros H. apply slice0_nil_iff in H; [discriminate | assumption]. }
    split; [now apply Hok |]. intros H. now apply Hiff in H. }
  assert (Hlook : forall l,
             RiskAnalysis.lookupRaces client now custId = l ->
             result = match l with
                      | inl e => inl (RiskAnalysis.Fetch e)
                      | inr races =>
                          RiskAnalysis.analyzeDriver client now custId numRaces
                      end).
  { intros l Hl. rewrite Er. destruct l; [| reflexivity].
    unfold RiskAnalysis.analyzeDriver. now rewrite Hl. }
  split; [| split; [| split; [| reflexivity]]];
    (destruct (lookupRaces_cases client now custId)
       as [[Hs Hl] | [Hs (r & rs & Hl)]];
     cbv zeta in Hs; rewrite <- Es in Hs; [rewrite <- Ef in Hl |]).
  - (* the search is empty: the fallback decides *)
    destruct fallback as [e | [| r rs]].
    + rewrite (Hlook _ Hl). split; [discriminate | intros [_ H]; discriminate H].
    + split; [intros _; now split |]. intros _.
      rewrite Er. unfold RiskAnalysis.analyzeDriver. rewrite Hl.
      now destruct numRaces.
    + destruct (Hsome r rs Hl) as [_ Hne].
      split; [intros H; contradiction | intros [_ H]; discriminate H].
  - destruct (Hsome r rs Hl) as [_ Hne].
    split; [intros H; contradiction | intros [H _]; contradiction].
  - intros [H | (r & rs & H)]; [contradiction |].
    rewrite H in Hl. now destruct (Hsome r rs Hl).
  - intros _. now destruct (Hsome r rs Hl).
  - intros e _ He. rewrite He in Hl. now rewrite (Hlook _ Hl).
  - intros e H. contradiction.
Qed.

Lemma analyzeDriver_no_history_witness :
  exists profile, RiskAnalysis.analyzeDriver example_client 0 42 10 = inr profile.
Proof.
  destruct (analyzeDriver_no_history example_client 0 42 10) as (_ & H & _).
  - lia.
  - apply H. left. discriminate.
Defined.

(** C6, as stated, fails when no race is asked for: with [numRaces = 0]
    the search finds a race and the error naming the driver is thrown all
    the same. *)
Lemma analyzeDriver_zero_races_asked :
  RiskAnalysis.searchRaceResults example_client 42 (0 - 30 * RiskAnalysis.msPerDay)
  = [example_race] /\
  RiskAnalysis.analyzeDriver example_client 0 42 0
  = inl (RiskAnalysis.NoRecentRaces 42).
Proof. split; reflexivity. Qed.

(** ** The session monitor *)

Lemma alertConfig_env_of config : Racesafe.alertConfig (env_of config) = config.
Proof.
  destruct config as [[a b] [c d] [e f] [g h]].
  destruct a, b, c, d, e, f, g, h; vm_compute; reflexivity.
Qed.

(** C9.  [resetSessionState] gives every session-scoped variable its
    initial value (the driver map, the analysed-driver map, the per-driver
    incident map, the danger-zone set, the local car slot, the phase
    WAITING, the session type, the analysis-complete flag, the track and
    series names, the two incident counters, and the refresh timer, which
    it also clears) and leaves the API client and the authenticated flag
    as they were. *)
Theorem resetSessionState_frame (s : Racesafe.State) :
  let s' := fst (Racesafe.resetSessionState s) in
  let init := Racesafe.initial_state in
  (Racesafe.sessionDrivers s' = [] /\
   Racesafe.analyzedDrivers s' = [] /\
   Racesafe.driverSessionIncidents s' = ∅ /\
   Racesafe.driversInDangerZone s' = ∅ /\
   Racesafe.myCarIdx s' = -1 /\
   Racesafe.currentPhase s' = Racesafe.WAITING /\
   Racesafe.currentSessionType s' = Racesafe.currentSessionType init /\
   Racesafe.preRaceAnalysisComplete s' = false /\
   Racesafe.trackName s' = Racesafe.trackName init /\
   Racesafe.seriesName s' = Racesafe.seriesName init /\
   Racesafe.mySessionIncidents s' = 0 /\
   Racesafe.lastKnownIncidents s' = -1 /\
   Racesafe.tokenRefreshInterval s' = None) /\
  (forall timer,
     Racesafe.tokenRefreshInterval s = Some timer ->
     In (Racesafe.ClearInterval timer) (snd (Racesafe.resetSessionState s))) /\
  (Racesafe.client s' = Racesafe.client s /\
   Racesafe.authenticated s' = Racesafe.authenticated s) /\
  s' = {| Racesafe.client := Racesafe.client s;
          Racesafe.authenticated := Racesafe.authenticated s;
          Racesafe.sessionDrivers := Racesafe.sessionDrivers init;
          Racesafe.analyzedDrivers := Racesafe.analyzedDrivers init;
          Racesafe.myCarIdx := Racesafe.myCarIdx init;
          Racesafe.currentPhase := Racesafe.currentPhase init;
          Racesafe.preRaceAnalysisComplete := Racesafe.preRaceAnalysisComplete init;
          Racesafe.currentSessionType := Racesafe.currentSessionType init;
          Racesafe.driversInDangerZone := Racesafe.driversInDangerZone init;
          Racesafe.tokenRefreshInterval := Racesafe.tokenRefreshInterval init;
          Racesafe.trackName := Racesafe.trackName init;
          Racesafe.seriesName := Racesafe.seriesName init;
          Racesafe.mySessionIncidents := Racesafe.mySessionIncidents init;
          Racesafe.lastKnownIncidents := Racesafe.lastKnownIncidents init;
          Racesafe.driverSessionIncidents := Racesafe.driverSessionIncidents init;
          Racesafe.iracingSDK := Racesafe.iracingSDK s;
          Racesafe.isRunning := Racesafe.isRunning s;
          Racesafe.isServiceMode := Racesafe.isServiceMode s |}.
Proof.
  cbv zeta. repeat split.
  intros timer H. cbn. rewrite H. right. left. reflexivity.
Qed.

(** C10.  While the local car slot is unknown ([myCarIdx = -1]) or no
    driver has been analysed, [handleTelemetry] returns at once: the state
    is unchanged and the trace is empty, so neither a danger nor an
    incident alert is produced. *)
Theorem handleTelemetry_guard
  (config : Racesafe.AlertConfig) (execThrows : Racesafe.Sound -> bool)
  (s : Racesafe.State) (telemetry : Racesafe.Telemetry) :
  Racesafe.myCarIdx s = -1 \/ Racesafe.analyzedDrivers s = [] ->
  Racesafe.handleTelemetry config execThrows s telemetry = (s, []).
Proof.
  intros [H | H]; unfold Racesafe.handleTelemetry; rewrite H.
  - reflexivity.
  - cbn [length Nat.eqb]. rewrite orb_true_r. reflexivity.
Qed.

Lemma handleTelemetry_guard_witness :
  Racesafe.handleTelemetry all_on never_throws Racesafe.initial_state example_telemetry
  = (Racesafe.initial_state, []).
Proof. apply handleTelemetry_guard. left. reflexivity. Defined.

(** C8, as the code has it.  The danger and the incident alert are each
    gated by their own switch of the current session type: [playAlert]
    returns before any sound exactly when that switch is off.  The warning
    alert has no switch and always plays; the clear alert never plays.
    The eight switches are independent, every combination being the
    configuration of some environment, and a switch is off only when its
    variable is set to a value whose lower-case form is [off]. *)
Theorem playAlert_gating
  (env : gmap string string) (execThrows : Racesafe.Sound -> bool) (s : Racesafe.State) :
  let config := Racesafe.alertConfig env in
  (gated_by Racesafe.Danger Racesafe.danger /\
   gated_by Racesafe.Incident Racesafe.incident) /\
  Racesafe.playAlert config execThrows s Racesafe.Warning <> [] /\
  Racesafe.playAlert config execThrows s Racesafe.Clear = [] /\
  (forall any : Racesafe.AlertConfig, exists env', Racesafe.alertConfig env' = any) /\
  (forall name,
     Racesafe.switch_on env name = false
     <-> exists v, env !! name = Some v /\ JS.toLowerCase v = "off").
Proof.
  cbv zeta. repeat split.
  - unfold Racesafe.playAlert.
    destruct (Racesafe.danger _); [discriminate | reflexivity].
  - unfold Racesafe.playAlert. intros ->. reflexivity.
  - unfold Racesafe.playAlert.
    destruct (Racesafe.incident _); [discriminate | reflexivity].
  - unfold Racesafe.playAlert. intros ->. reflexivity.
  - discriminate.
  - intros any. exists (env_of any). apply alertConfig_env_of.
  - unfold Racesafe.switch_on. destruct (env !! name) as [v |]; [| discriminate].
    intros H. exists v. split; [reflexivity |].
    apply negb_false_iff in H. now apply String.eqb_eq.
  - intros (v & Hl & Hv). unfold Racesafe.switch_on. rewrite Hl.
    apply negb_false_iff. now apply String.eqb_eq.
Qed.

(** C8, as stated, fails for two of the four kinds: with every switch off
    the warning alert still plays, and with every switch on the clear alert
    is still silent, so neither is gated by a switch. *)
Lemma playAlert_warning_clear_ungated :
  Racesafe.playAlert all_off never_throws Racesafe.initial_state Racesafe.Warning
  = [Racesafe.Exec Racesafe.Beep] /\
  Racesafe.playAlert all_on never_throws Racesafe.initial_state Racesafe.Clear = [] /\
  ~ (gated_by Racesafe.Warning Racesafe.danger \/
     gated_by Racesafe.Warning Racesafe.incident) /\
  ~ (gated_by Racesafe.Clear Racesafe.danger \/
     gated_by Racesafe.Clear Racesafe.incident).
Proof.
  split; [reflexivity |]. split; [reflexivity |]. split.
  - intros [H | H];
      specialize (H all_off never_throws Racesafe.initial_state);
      destruct H as [_ H]; specialize (H eq_refl); discriminate H.
  - intros [H | H];
      specialize (H all_on never_throws Racesafe.initial_state);
      destruct H as [H _]; specialize (H eq_refl); discriminate H.
Qed.

(** ** Edge-triggered danger alerts *)

Section Edge.
Import JS Racesafe.

Variable config : AlertConfig.
Variable execThrows : Sound -> bool.










End Edge.




(** * Further properties of the code *)

(** ** Incident analysis *)

Section IncidentPoints.
Import JS RiskAnalysis.

(** The weighted sum of an estimate is the lap delta, or 0 for a delta
    that is not positive. *)
Lemma estimateIncidentTypes_weighted delta :
  let e := estimateIncidentTypes delta in
  4 * x4 e + 2 * x2 e + x1 e = Z.max 0 delta /\ 0 <= x4 e /\ 0 <= x2 e /\ 0 <= x1 e.
Proof.
  cbv zeta. unfold estimateIncidentTypes.
  destruct (Z.leb_spec delta 0) as [Hle | Hlt]; [cbn; lia |].
  rewrite while_sub_div_mod by lia. cbn zeta iota beta.
  rewrite while_sub_div_mod by (apply Z.mod_pos_bound; lia).
  cbn [x4 x2 x1].
  pose proof (Z.mod_pos_bound delta 4 ltac:(lia)).
  pose proof (Z.div_mod delta 4 ltac:(lia)).
  pose proof (Z.div_mod (delta mod 4) 2 ltac:(lia)).
  pose proof (Z.mod_pos_bound (delta mod 4) 2 ltac:(lia)).
  assert (0 <= delta / 4) by (apply Z.div_pos; lia).
  assert (0 <= (delta mod 4) / 2) by (apply Z.div_pos; lia).
  lia.
Qed.

Lemma count_lap_points totalLaps prev cur c :
  let c' := count_lap totalLaps prev cur c in
  timing_points c' = timing_points c + Z.max 0 (incident cur - incident prev) /\
  type_points c' = type_points c + Z.max 0 (incident cur - incident prev) /\
  (types_nonneg c -> types_nonneg c').
Proof.
  cbv zeta. unfold count_lap, timing_points, type_points, types_nonneg. cbv zeta.
  destruct (Z.leb_spec (incident cur - incident prev) 0) as [Hle | Hlt].
  - unfold timing_points, type_points, types_nonneg in *; intuition lia.
  - pose proof (estimateIncidentTypes_weighted (incident cur - incident prev)) as H.
    cbv zeta in H. cbn.
    destruct (lapNumber cur <=? 2), (lapNumber cur >=? totalLaps - 1); lia.
Qed.

Lemma count_laps_points totalLaps rest : forall prev c,
  let c' := count_laps totalLaps prev rest c in
  timing_points c' = timing_points c + observed_points prev rest /\
  type_points c' = type_points c + observed_points prev rest /\
  (types_nonneg c -> types_nonneg c').
Proof.
  induction rest as [| cur rest IH]; intros prev c; cbn zeta.
  - cbn. unfold timing_points, type_points, types_nonneg in *; intuition lia.
  - cbn [count_laps observed_points].
    destruct (IH cur (count_lap totalLaps prev cur c)) as (H1 & H2 & H3).
    destruct (count_lap_points totalLaps prev cur c) as (G1 & G2 & G3).
    cbv zeta in *. unfold timing_points, type_points, types_nonneg in *; intuition lia.
Qed.

Lemma count_race_points client custId c race :
  let c' := count_race client custId c race in
  timing_points c' = timing_points c + observed_in_race client custId race /\
  type_points c' = type_points c + observed_in_race client custId race /\
  (types_nonneg c -> types_nonneg c').
Proof.
  cbv zeta. unfold count_race, observed_in_race.
  destruct (getLapData client (subsessionId race) custId) as [e | [| first rest]].
  - unfold timing_points, type_points, types_nonneg in *; intuition lia.
  - unfold timing_points, type_points, types_nonneg in *; intuition lia.
  - apply count_laps_points.
Qed.

Lemma count_races_points client custId races : forall c,
  let c' := fold_left (count_race client custId) races c in
  timing_points c' = timing_points c + observed_total client custId races /\
  type_points c' = type_points c + observed_total client custId races /\
  (types_nonneg c -> types_nonneg c').
Proof.
  induction races as [| race races IH]; intros c; cbn zeta.
  - cbn. unfold timing_points, type_points, types_nonneg in *; intuition lia.
  - cbn [fold_left observed_total fold_right].
    destruct (IH (count_race client custId c race)) as (H1 & H2 & H3).
    destruct (count_race_points client custId c race) as (G1 & G2 & G3).
    cbv zeta in *. fold (observed_total client custId races).
    unfold timing_points, type_points, types_nonneg in *; intuition lia.
Qed.

(** A race without lap data leaves the counters as they are. *)
Lemma count_race_unavailable client custId c race :
  laps_unavailable client custId race -> count_race client custId c race = c.
Proof.
  unfold laps_unavailable, count_race.
  destruct (getLapData client (subsessionId race) custId) as [e | [| first rest]];
    [reflexivity | reflexivity | contradiction].
Qed.

Lemma count_races_unavailable client custId races : forall c,
  Forall (laps_unavailable client custId) races ->
  fold_left (count_race client custId) races c = c.
Proof.
  induction races as [| race races IH]; intros c H; [reflexivity |].
  inversion H; subst. cbn. rewrite count_race_unavailable by assumption.
  now apply IH.
Qed.

End IncidentPoints.

(** X1.  The estimated incident types account for every incident point
    that the analysed laps show: with weights 4, 2 and 1 the three counts
    of the breakdown add up to the sum of the positive lap-to-lap
    differences over all races whose lap data could be fetched; the counts
    are never negative and [total] is their plain sum. *)
Theorem analyzeIncidentTiming_conserves_points
  (client : RiskAnalysis.IRacingClient) (races : list RiskAnalysis.IRacingRecentRace)
  (custId : Z) :
  let t := RiskAnalysis.types (RiskAnalysis.analyzeIncidentTiming client races custId) in
  4 * RiskAnalysis.contact4x t + 2 * RiskAnalysis.lostControl2x t
  + RiskAnalysis.offTrack1x t = observed_total client custId races /\
  (0 <= RiskAnalysis.contact4x t /\ 0 <= RiskAnalysis.lostControl2x t /\
   0 <= RiskAnalysis.offTrack1x t) /\
  RiskAnalysis.total t
  = RiskAnalysis.contact4x t + RiskAnalysis.lostControl2x t + RiskAnalysis.offTrack1x t.
Proof.
  cbv zeta. unfold RiskAnalysis.analyzeIncidentTiming. cbn [RiskAnalysis.types].
  destruct (count_races_points client custId races RiskAnalysis.no_incidents)
    as (_ & H2 & H3).
  cbv zeta in H2, H3. unfold type_points, types_nonneg in *.
  unfold RiskAnalysis.types_of_counters.
  cbn [RiskAnalysis.contact4x RiskAnalysis.lostControl2x RiskAnalysis.offTrack1x
       RiskAnalysis.total].
  cbn in H2. split; [lia |]. split; [| reflexivity].
  apply H3. cbn. lia.
Qed.

(** X2.  Lap data that cannot be fetched never fails the analysis: when
    the fetch throws or returns no lap for every race, the result is the
    fallback timing 0.33, 0.34, 0.33 and an empty breakdown. *)
Theorem analyzeIncidentTiming_without_laps
  (client : RiskAnalysis.IRacingClient) (races : list RiskAnalysis.IRacingRecentRace)
  (custId : Z) :
  Forall (laps_unavailable client custId) races ->
  RiskAnalysis.analyzeIncidentTiming client races custId
  = {| RiskAnalysis.timing :=
         {| RiskAnalysis.lap1_2 := 0.33; RiskAnalysis.midRace := 0.34;
            RiskAnalysis.finalLap := 0.33 |};
       RiskAnalysis.types :=
         {| RiskAnalysis.contact4x := 0; RiskAnalysis.lostControl2x := 0;
            RiskAnalysis.offTrack1x := 0; RiskAnalysis.total := 0 |} |}.
Proof.
  intros H. unfold RiskAnalysis.analyzeIncidentTiming.
  rewrite count_races_unavailable by assumption. reflexivity.
Qed.

Lemma analyzeIncidentTiming_without_laps_witness :
  RiskAnalysis.analyzeIncidentTiming lapless_client [example_race; example_race] 42
  = {| RiskAnalysis.timing :=
         {| RiskAnalysis.lap1_2 := 0.33; RiskAnalysis.midRace := 0.34;
            RiskAnalysis.finalLap := 0.33 |};
       RiskAnalysis.types :=
         {| RiskAnalysis.contact4x := 0; RiskAnalysis.lostControl2x := 0;
            RiskAnalysis.offTrack1x := 0; RiskAnalysis.total := 0 |} |}.
Proof.
  apply analyzeIncidentTiming_without_laps.
  repeat constructor.
Defined.

(** ** Safety-rating trend *)

Section Trend.
Import JS RiskAnalysis.

Lemma slice0_firstn {A} (l : list A) (e : Z) :
  0 <= e -> slice0 l e = firstn (Z.to_nat e) l.
Proof.
  intros He. unfold slice0. destruct (Z.ltb_spec e 0) as [? | _]; [lia |].
  destruct (Z.le_gt_cases e (Z.of_nat (length l))) as [Hle | Hgt].
  - now rewrite Z.min_l by assumption.
  - rewrite Z.min_r by lia. rewrite Nat2Z.id.
    rewrite firstn_all. symmetry. apply firstn_all2. lia.
Qed.

Lemma fold_left_add_shift (l : list Z) : forall a,
  fold_left Z.add l a = a + fold_right Z.add 0 l.
Proof.
  induction l as [| x l IH]; intros a; cbn; [lia |]. rewrite IH. lia.
Qed.

Lemma sum_changes_fold races :
  fold_left Z.add (map (fun race => newSubLevel race - oldSubLevel race) races) 0
  = sum_changes races.
Proof.
  rewrite fold_left_add_shift. unfold sum_changes.
  induction races as [| r races IH]; cbn; [reflexivity |]. cbn in IH. lia.
Qed.

(** A quotient of integers against an integer bound. *)
Lemma Zdivide_gt (s n k : Z) :
  0 < n -> (inject_Z k < Zdivide s n)%Q <-> k * n < s.
Proof.
  intros Hn. unfold Zdivide.
  assert (HN : (0 < inject_Z n)%Q)
    by (change 0%Q with (inject_Z 0); now rewrite <- Zlt_Qlt).
  split; intros H.
  - assert (inject_Z k * inject_Z n < inject_Z s)%Q as H'.
    { apply Qmult_lt_r with (z := / inject_Z n); [now apply Qinv_lt_0_compat |].
      rewrite <- Qmult_assoc, Qmult_inv_r, Qmult_1_r by lra. exact H. }
    rewrite <- inject_Z_mult, <- Zlt_Qlt in H'. exact H'.
  - apply Qlt_shift_div_l; [assumption |].
    rewrite <- inject_Z_mult, <- Zlt_Qlt. exact H.
Qed.

Lemma Zdivide_lt (s n k : Z) :
  0 < n -> (Zdivide s n < inject_Z k)%Q <-> s < k * n.
Proof.
  intros Hn. unfold Zdivide.
  assert (HN : (0 < inject_Z n)%Q)
    by (change 0%Q with (inject_Z 0); now rewrite <- Zlt_Qlt).
  split; intros H.
  - assert (inject_Z s < inject_Z k * inject_Z n)%Q as H'.
    { apply Qmult_lt_r with (z := / inject_Z n); [now apply Qinv_lt_0_compat |].
      rewrite <- (Qmult_assoc (inject_Z k)), Qmult_inv_r, Qmult_1_r by lra. exact H. }
    rewrite <- inject_Z_mult, <- Zlt_Qlt in H'. exact H'.
  - apply Qlt_shift_div_r; [assumption |].
    rewrite <- inject_Z_mult, <- Zlt_Qlt. exact H.
Qed.

End Trend.

(** X3.  The safety-rating trend looks at the first five races only.  With
    fewer than three races it is [stable]; otherwise, with [n] the number
    of races looked at and [change] their summed change of sub-level, it
    is [improving] exactly when [change > 5 n] and [declining] exactly when
    [change < -5 n]. *)
Theorem calculateSRTrend_cases (races : list RiskAnalysis.IRacingRecentRace) :
  let recent := firstn 5 races in
  let n := Z.of_nat (length recent) in
  let trend := RiskAnalysis.calculateSRTrend races in
  ((length races < 3)%nat -> trend = RiskAnalysis.stable) /\
  ((3 <= length races)%nat ->
   (trend = RiskAnalysis.improving <-> 5 * n < sum_changes recent) /\
   (trend = RiskAnalysis.declining <-> sum_changes recent < -5 * n)) /\
  trend = RiskAnalysis.calculateSRTrend recent.
Proof.
  cbv zeta.
  assert (Hcases : forall rs : list RiskAnalysis.IRacingRecentRace,
    (3 <= length rs)%nat ->
    RiskAnalysis.calculateSRTrend rs
    = if JS.Qgtb (JS.Zdivide (sum_changes (firstn 5 rs))
                    (Z.of_nat (length (firstn 5 rs)))) 5
      then RiskAnalysis.improving
      else if JS.Qltb (JS.Zdivide (sum_changes (firstn 5 rs))
                         (Z.of_nat (length (firstn 5 rs)))) (-5)
           then RiskAnalysis.declining else RiskAnalysis.stable).
  { intros rs H. unfold RiskAnalysis.calculateSRTrend.
    destruct (Nat.ltb_spec (length rs) 3) as [? | _]; [lia |].
    cbv zeta. rewrite slice0_firstn by lia. change (Z.to_nat 5) with 5%nat.
    rewrite sum_changes_fold, length_map. reflexivity. }
  split; [| split].
  - intros H. unfold RiskAnalysis.calculateSRTrend.
    destruct (Nat.ltb_spec (length races) 3) as [_ | ?]; [reflexivity | lia].
  - intros H. rewrite (Hcases races H).
    assert (Hn : 0 < Z.of_nat (length (firstn 5 races)))
      by (rewrite length_firstn; lia).
    pose proof (Zdivide_gt (sum_changes (firstn 5 races)) _ 5 Hn) as Hgt.
    pose proof (Zdivide_lt (sum_changes (firstn 5 races)) _ (-5) Hn) as Hlt.
    change (inject_Z 5) with 5%Q in Hgt. change (inject_Z (-5)) with (-5)%Q in Hlt.
    destruct (Qgtb_spec (JS.Zdivide (sum_changes (firstn 5 races))
                           (Z.of_nat (length (firstn 5 races)))) 5) as [G | G];
      destruct (Qltb_spec (JS.Zdivide (sum_changes (firstn 5 races))
                             (Z.of_nat (length (firstn 5 races)))) (-5)) as [L | L];
      rewrite Hgt in G; rewrite Hlt in L;
      (split; split; intros Hyp; first [discriminate Hyp | reflexivity | lia]).
  - destruct (Nat.lt_ge_cases (length races) 3) as [Hlt | Hge].
    + rewrite firstn_all2 by lia. reflexivity.
    + rewrite (Hcases races Hge).
      assert (3 <= length (firstn 5 races))%nat as Hge' by (rewrite length_firstn; lia).
      rewrite (Hcases (firstn 5 races) Hge'). rewrite firstn_firstn. reflexivity.
Qed.

Lemma calculateSRTrend_cases_witness :
  RiskAnalysis.calculateSRTrend [race_at 300 10 7; race_at 200 10 4; race_at 100 10 2]
  = RiskAnalysis.improving /\
  RiskAnalysis.calculateSRTrend [race_at 300 (-50) 7; race_at 200 (-50) 4]
  = RiskAnalysis.stable.
Proof.
  split.
  - destruct (calculateSRTrend_cases
                [race_at 300 10 7; race_at 200 10 4; race_at 100 10 2]) as (_ & H & _).
    apply H; [cbn; lia | vm_compute; reflexivity].
  - destruct (calculateSRTrend_cases
                [race_at 300 (-50) 7; race_at 200 (-50) 4]) as (H & _ & _).
    apply H. cbn. lia.
Defined.

(** ** Risk level as a function of the average *)

Section Levels.
Import JS RiskAnalysis.
Local Open Scope Q_scope.

Lemma Math_round_ge (k : Z) (x : Q) :
  (k <= Math_round x)%Z <-> inject_Z k - (1 # 2) <= x.
Proof.
  split; intros H.
  - rewrite Zle_Qle in H. pose proof (Math_round_upper x). lra.
  - pose proof (Math_round_lower x) as Hl.
    assert (inject_Z (k - 1) < inject_Z (Math_round x)) as H'.
    { unfold Z.sub. rewrite inject_Z_plus, inject_Z_opp.
      change (inject_Z 1) with 1. lra. }
    rewrite <- Zlt_Qlt in H'. lia.
Qed.

(** The level of a final score [f] after the rounding to one decimal. *)
Lemma classify_rounded (f : Q) :
  let level := classifyRisk (inject_Z (Math_round (f * 10)) / 10) in
  (level = HIGH <-> 6.95 <= f) /\ (level = LOW <-> f < 3.95).
Proof.
  cbv zeta. unfold classifyRisk.
  pose proof (Math_round_ge 70 (f * 10)) as H70.
  pose proof (Math_round_ge 40 (f * 10)) as H40.
  change (inject_Z 70) with 70 in H70. change (inject_Z 40) with 40 in H40.
  rewrite Zle_Qle in H70, H40.
  change (inject_Z 70) with 70 in H70. change (inject_Z 40) with 40 in H40.
  destruct (Qltb_spec (inject_Z (Math_round (f * 10)) / 10) 4) as [L4 | L4];
    destruct (Qltb_spec (inject_Z (Math_round (f * 10)) / 10) 7) as [L7 | L7];
    linear_div;
    (split; split; intros Hyp; first [discriminate Hyp | reflexivity | idtac]);
    try lra; exfalso; lra.
Qed.

Lemma timingModifier_zero t :
  lap1_2 t <= 0.3 -> finalLap t <= 0.25 -> timingModifier t == 0.
Proof.
  intros H1 H2. unfold timingModifier. cbv zeta.
  destruct (Qgtb_spec (lap1_2 t) 0.4), (Qgtb_spec (lap1_2 t) 0.3),
    (Qgtb_spec (finalLap t) 0.3), (Qgtb_spec (finalLap t) 0.25); lra.
Qed.

End Levels.

(** X4.  An average of at least 6.1875 incidents per race is classified
    HIGH whatever the timing, and from an average of 10 on the score is
    exactly 10.  When the timing adds no modifier (at most 0.3 of the
    points in the first two laps and at most 0.25 in the final lap) the
    level is HIGH exactly from 6.1875 on and LOW exactly below 2.95. *)
Theorem risk_level_by_average (a : Q) (t : RiskAnalysis.IncidentTiming) :
  let level := RiskAnalysis.classifyRisk (RiskAnalysis.calculateRiskScore a t) in
  ((6.1875 <= a)%Q -> level = RiskAnalysis.HIGH) /\
  ((10 <= a)%Q -> (RiskAnalysis.calculateRiskScore a t == 10)%Q) /\
  ((RiskAnalysis.lap1_2 t <= 0.3)%Q -> (RiskAnalysis.finalLap t <= 0.25)%Q ->
   (level = RiskAnalysis.HIGH <-> (6.1875 <= a)%Q) /\
   (level = RiskAnalysis.LOW <-> (a < 2.95)%Q)).
Proof.
  cbv zeta. unfold RiskAnalysis.calculateRiskScore. cbv zeta.
  set (f := JS.Math_min (RiskAnalysis.baseScore a + RiskAnalysis.timingModifier t) 10.0).
  destruct (classify_rounded f) as [Hhigh Hlow]. cbv zeta in Hhigh, Hlow.
  pose proof (timingModifier_nonneg t) as Hm.
  assert (Hf : (f <= RiskAnalysis.baseScore a + RiskAnalysis.timingModifier t
                /\ f <= 10 /\
                (f == RiskAnalysis.baseScore a + RiskAnalysis.timingModifier t
                 \/ f == 10))%Q).
  { subst f. destruct (Math_min_spec
      (RiskAnalysis.baseScore a + RiskAnalysis.timingModifier t) 10.0)
      as [[? ->] | [? ->]];
      (split; [lra | split; [lra | first [left; lra | right; lra]]]). }
  assert (Hbase : ((a <= 2 /\ RiskAnalysis.baseScore a == a * 1.5)
                   \/ (2 < a /\ a <= 5 /\ RiskAnalysis.baseScore a == 3 + (a - 2))
                   \/ (5 < a /\ (a - 5) * 0.8 <= 4
                       /\ RiskAnalysis.baseScore a == 6 + (a - 5) * 0.8)
                   \/ (5 < a /\ 4 < (a - 5) * 0.8
                       /\ RiskAnalysis.baseScore a == 10))%Q).
  { unfold RiskAnalysis.baseScore.
    destruct (Qleb_spec a 2); [left; split; [assumption | reflexivity] |].
    destruct (Qleb_spec a 5); [right; left; split; [lra | split; [lra | lra]] |].
    destruct (Math_min_spec ((a - 5) * 0.8)%Q 4) as [[? ->] | [? ->]];
      right; right; [left | right]; (split; [lra | split; [lra | lra]]). }
  split; [| split].
  - intros Ha. apply Hhigh.
    destruct Hf as (Hf1 & Hf2 & [Hf | Hf]), Hbase as [H | [H | [H | H]]]; lra.
  - intros Ha.
    assert (f == 10)%Q as E
      by (destruct Hf as (Hf1 & Hf2 & [Hf | Hf]), Hbase as [H | [H | [H | H]]]; lra).
    assert (JS.Math_round (f * 10) = 100%Z) as ->.
    { rewrite (Math_round_comp (f * 10) (inject_Z 100)).
      - apply Math_round_Z.
      - change (inject_Z 100) with 100%Q. lra. }
    reflexivity.
  - intros H1 H2. pose proof (timingModifier_zero t H1 H2) as Hz.
    rewrite Hhigh, Hlow.
    destruct Hf as (Hf1 & Hf2 & [Hf | Hf]), Hbase as [H | [H | [H | H]]];
      split; split; intros Hyp; lra.
Qed.

Lemma risk_level_by_average_witness :
  RiskAnalysis.classifyRisk (RiskAnalysis.calculateRiskScore 6.5 mid_race_only)
  = RiskAnalysis.HIGH /\
  RiskAnalysis.classifyRisk (RiskAnalysis.calculateRiskScore 6 mid_race_only)
  <> RiskAnalysis.HIGH.
Proof.
  destruct (risk_level_by_average 6.5 mid_race_only) as (H & _ & _).
  destruct (risk_level_by_average 6 mid_race_only) as (_ & _ & G).
  split.
  - apply H. vm_compute. discriminate.
  - destruct G as [G _]; [vm_compute; discriminate | vm_compute; discriminate |].
    intros Hyp. apply G in Hyp. vm_compute in Hyp. apply Hyp. reflexivity.
Defined.

(** ** Patterns and recommendation *)

Section Patterns.
Import JS RiskAnalysis.

Lemma turn_one_pattern a t trend ty :
  (0.4 <= lap1_2 t)%Q ->
  exists p, In p (identifyPatterns a t trend ty) /\
            (includes p "T1" || includes p "Lap 1") = true.
Proof.
  intros H. unfold identifyPatterns.
  destruct (Qgeb_spec (lap1_2 t) 0.5) as [H5 | H5].
  - eexists. split.
    + apply in_or_app. right. apply in_or_app. left. left. reflexivity.
    + reflexivity.
  - destruct (Qgeb_spec (lap1_2 t) 0.4) as [H4 | H4]; [| contradiction].
    eexists. split.
    + apply in_or_app. right. apply in_or_app. left. left. reflexivity.
    + apply orb_true_iff. right. reflexivity.
Qed.

End Patterns.

(** X5.  A driver with at least 0.4 of the incident points in the first
    two laps always carries a start pattern, so the recommendation for a
    HIGH-risk driver is to stay clear in turn 1 and the one for a
    MODERATE-risk driver is caution at the start; a LOW-risk driver is
    always called safe to race. *)
Theorem early_incidents_recommendation
  (a : Q) (t : RiskAnalysis.IncidentTiming) (trend : RiskAnalysis.SRTrend)
  (ty : RiskAnalysis.IncidentTypeBreakdown) :
  (0.4 <= RiskAnalysis.lap1_2 t)%Q ->
  let patterns := RiskAnalysis.identifyPatterns a t trend ty in
  RiskAnalysis.generateRecommendation RiskAnalysis.HIGH patterns
  = "Avoid close racing in turn 1 - let them go, collect later" /\
  RiskAnalysis.generateRecommendation RiskAnalysis.MODERATE patterns
  = "Exercise caution at race start, safe to race mid-race" /\
  RiskAnalysis.generateRecommendation RiskAnalysis.LOW patterns
  = "Safe to race wheel-to-wheel - clean driver".
Proof.
  intros H patterns.
  assert (existsb (fun p => JS.includes p "T1" || JS.includes p "Lap 1") patterns = true)
    as E by (apply existsb_exists; now apply turn_one_pattern).
  unfold RiskAnalysis.generateRecommendation. cbv zeta. rewrite E.
  repeat split.
Qed.

Lemma early_incidents_recommendation_witness :
  RiskAnalysis.generateRecommendation RiskAnalysis.HIGH
    (RiskAnalysis.identifyPatterns 8.5
       {| RiskAnalysis.lap1_2 := 0.5; RiskAnalysis.midRace := 0.3;
          RiskAnalysis.finalLap := 0.2 |}
       RiskAnalysis.stable
       {| RiskAnalysis.contact4x := 0; RiskAnalysis.lostControl2x := 0;
          RiskAnalysis.offTrack1x := 0; RiskAnalysis.total := 0 |})
  = "Avoid close racing in turn 1 - let them go, collect later".
Proof.
  apply (early_incidents_recommendation 8.5
           {| RiskAnalysis.lap1_2 := 0.5; RiskAnalysis.midRace := 0.3;
              RiskAnalysis.finalLap := 0.2 |}).
  vm_compute. discriminate.
Defined.

(** ** Sorting *)

Section Sorting.
Import JS.
Context {A : Type} (after : A -> A -> bool) (R : A -> A -> Prop).

Lemma sort_insert_perm x l : Permutation (sort_insert after x l) (x :: l).
Proof.
  induction l as [| y l IH]; cbn; [reflexivity |].
  destruct (after x y); [| reflexivity].
  rewrite IH. apply perm_swap.
Qed.

Lemma Array_sort_perm l : Permutation (Array_sort after l) l.
Proof.
  induction l as [| x l IH]; cbn; [reflexivity |].
  fold (Array_sort after l). rewrite sort_insert_perm. now constructor.
Qed.

Hypothesis after_true : forall x y, after x y = true -> R y x.
Hypothesis after_false : forall x y, after x y = false -> R x y.
Hypothesis R_trans : forall x y z, R x y -> R y z -> R x z.

Lemma sort_insert_sorted x l :
  StronglySorted R l -> StronglySorted R (sort_insert after x l).
Proof.
  induction 1 as [| y l Hs IH Hy]; cbn; [repeat constructor |].
  destruct (after x y) eqn:E.
  - constructor; [assumption |].
    eapply Permutation_Forall; [symmetry; apply sort_insert_perm |].
    constructor; [now apply after_true | assumption].
  - constructor; [now constructor |].
    constructor; [now apply after_false |].
    apply after_false in E.
    eapply List.Forall_impl; [| exact Hy]. intros z Hz. now apply (R_trans x y z).
Qed.

Lemma Array_sort_sorted l : StronglySorted R (Array_sort after l).
Proof.
  induction l as [| x l IH]; cbn; [constructor |].
  now apply sort_insert_sorted.
Qed.

End Sorting.

(** ** The race history behind a profile *)

Section History.
Import JS RiskAnalysis.

Lemma sum_incidents_shift races : forall a,
  fold_left (fun sum race => sum + incidents race) races a
  = a + sum_incidents races.
Proof.
  unfold sum_incidents.
  induction races as [| r races IH]; intros a; cbn; [lia |].
  rewrite IH, (IH (0 + incidents r)). lia.
Qed.

Lemma sum_incidents_nonneg races :
  Forall (fun r => 0 <= incidents r) races -> 0 <= sum_incidents races.
Proof.
  induction 1 as [| r races Hr _ IH]; [cbn; lia |].
  unfold sum_incidents. cbn. rewrite sum_incidents_shift. lia.
Qed.

Lemma Zdivide_nonneg s n : 0 <= s -> 0 < n -> (0 <= Zdivide s n)%Q.
Proof.
  intros Hs Hn. unfold Zdivide. apply Qle_shift_div_l.
  - change 0%Q with (inject_Z 0). now rewrite <- Zlt_Qlt.
  - rewrite Qmult_0_l. change 0%Q with (inject_Z 0). now rewrite <- Zle_Qle.
Qed.

Lemma calculateRiskScore_range a t :
  (0 <= a)%Q -> (0 <= calculateRiskScore a t)%Q /\ (calculateRiskScore a t <= 10)%Q.
Proof.
  intros Ha. unfold calculateRiskScore. cbv zeta.
  pose proof (baseScore_nonneg a Ha). pose proof (timingModifier_nonneg t).
  split.
  - apply round_tenth_nonneg.
    destruct (Math_min_spec (baseScore a + timingModifier t) 10.0)
      as [[? ->] | [? ->]]; lra.
  - apply round_tenth_le_10.
    destruct (Math_min_spec (baseScore a + timingModifier t) 10.0)
      as [[? ->] | [? ->]]; lra.
Qed.

(** The search results, sorted. *)
Lemma lookupRaces_sorted client now custId races :
  searchRaceResults client custId (now - 30 * msPerDay) <> [] ->
  lookupRaces client now custId = inr races ->
  Permutation races (searchRaceResults client custId (now - 30 * msPerDay))
  /\ most_recent_first races.
Proof.
  intros Hne Hl. unfold lookupRaces in Hl. cbv zeta in Hl.
  set (searched := searchRaceResults client custId (now - 30 * msPerDay)) in *.
  set (after := fun a b : IRacingRecentRace =>
                  sessionStartTime b - sessionStartTime a >? 0) in *.
  destruct (Array_sort after searched) as [| r rs] eqn:E.
  - apply Array_sort_nil_iff in E. contradiction.
  - injection Hl as <-. rewrite <- E. split.
    + apply Array_sort_perm.
    + apply Array_sort_sorted.
      * intros x y H. unfold after in H. lia.
      * intros x y H. unfold after in H. lia.
      * intros x y z. lia.
Qed.

End History.

(** X6.  Every profile that [analyzeDriver] returns is consistent: it
    carries the customer id asked for, counts all the races found and not
    only the subset analysed in depth, its level is the classification of
    its score, and, the incident counts of the races being non-negative,
    its score lies in [0,10] and its rounded average is not negative; the
    timing is the one of the subset analysed in depth. *)
Theorem analyzeDriver_profile_consistent
  (client : RiskAnalysis.IRacingClient) (now custId numRaces : Z)
  (races : list RiskAnalysis.IRacingRecentRace) (p : RiskAnalysis.DriverRiskProfile) :
  RiskAnalysis.lookupRaces client now custId = inr races ->
  Forall (fun r => 0 <= RiskAnalysis.incidents r) races ->
  RiskAnalysis.analyzeDriver client now custId numRaces = inr p ->
  RiskAnalysis.p_custId p = custId /\
  RiskAnalysis.totalRacesAnalyzed p = Z.of_nat (length races) /\
  0 <= RiskAnalysis.recentRaces p <= RiskAnalysis.totalRacesAnalyzed p /\
  RiskAnalysis.riskLevel p = RiskAnalysis.classifyRisk (RiskAnalysis.riskScore p) /\
  (0 <= RiskAnalysis.riskScore p)%Q /\ (RiskAnalysis.riskScore p <= 10)%Q /\
  (0 <= RiskAnalysis.avgIncidentsPerRace p)%Q /\
  RiskAnalysis.incidentTiming p
  = RiskAnalysis.timing
      (RiskAnalysis.analyzeIncidentTiming client (JS.slice0 races numRaces) custId).
Proof.
  intros Hl Hinc Hp. unfold RiskAnalysis.analyzeDriver in Hp. rewrite Hl in Hp.
  destruct (JS.slice0 races numRaces) as [| r0 rs0] eqn:Es; [discriminate Hp |].
  assert (Hlen : 0 < Z.of_nat (length races)).
  { destruct races; [| cbn; lia]. unfold JS.slice0 in Es.
    rewrite firstn_nil in Es. discriminate Es. }
  pose proof (sum_incidents_nonneg races Hinc) as Hsum.
  pose proof (Zdivide_nonneg _ _ Hsum Hlen) as Havg.
  cbv zeta in Hp. injection Hp as <-.
  cbn [RiskAnalysis.p_custId RiskAnalysis.totalRacesAnalyzed RiskAnalysis.recentRaces
       RiskAnalysis.riskLevel RiskAnalysis.riskScore RiskAnalysis.avgIncidentsPerRace
       RiskAnalysis.incidentTiming].
  repeat split; try reflexivity.
  - lia.
  - apply inj_le. apply filter_length_le.
  - now apply calculateRiskScore_range.
  - now apply calculateRiskScore_range.
  - apply round_tenth_nonneg. exact Havg.
Qed.

Lemma analyzeDriver_profile_consistent_witness :
  exists p,
    RiskAnalysis.analyzeDriver unsorted_client 0 42 2 = inr p /\
    RiskAnalysis.totalRacesAnalyzed p = 3 /\
    RiskAnalysis.riskLevel p = RiskAnalysis.classifyRisk (RiskAnalysis.riskScore p) /\
    (RiskAnalysis.riskScore p <= 10)%Q.
Proof.
  eexists. split; [reflexivity |].
  pose proof (analyzeDriver_profile_consistent unsorted_client 0 42 2 _ _
                eq_refl ltac:(repeat constructor; vm_compute; discriminate) eq_refl)
    as (_ & H2 & _ & H4 & _ & H6 & _).
  split; [exact H2 |]. split; [exact H4 | exact H6].
Defined.

(** X7.  When the 30-day search finds races, the history is the search
    result reordered most recent first, whatever order the search returned
    it in; so the incident count reported for the last race is the one of
    a race that no other race found is more recent than. *)
Theorem analyzeDriver_last_race_is_latest
  (client : RiskAnalysis.IRacingClient) (now custId numRaces : Z)
  (p : RiskAnalysis.DriverRiskProfile) :
  let searched :=
    RiskAnalysis.searchRaceResults client custId (now - 30 * RiskAnalysis.msPerDay) in
  searched <> [] ->
  RiskAnalysis.analyzeDriver client now custId numRaces = inr p ->
  (exists races,
     RiskAnalysis.lookupRaces client now custId = inr races /\
     Permutation races searched /\ most_recent_first races) /\
  exists latest,
    In latest searched /\
    RiskAnalysis.lastRaceIncidents p = RiskAnalysis.incidents latest /\
    forall r, In r searched ->
              RiskAnalysis.sessionStartTime r <= RiskAnalysis.sessionStartTime latest.
Proof.
  intros searched Hne Hp.
  destruct (lookupRaces_cases client now custId) as [[Hs _] | [_ (r & rs & Hl)]];
    [cbv zeta in Hs; contradiction |].
  destruct (lookupRaces_sorted client now custId (r :: rs) Hne Hl) as [Hperm Hsorted].
  fold searched in Hperm.
  split; [exists (r :: rs); now repeat split |].
  exists r. split; [| split].
  - apply (Permutation_in _ Hperm). now left.
  - unfold RiskAnalysis.analyzeDriver in Hp. rewrite Hl in Hp.
    destruct (JS.slice0 (r :: rs) numRaces); [discriminate Hp |].
    cbv zeta in Hp. injection Hp as <-. reflexivity.
  - intros r' Hin. apply (Permutation_in _ (Permutation_sym Hperm)) in Hin.
    destruct Hin as [<- | Hin]; [lia |].
    unfold most_recent_first in Hsorted. apply StronglySorted_inv in Hsorted.
    destruct Hsorted as [_ Hall]. rewrite List.Forall_forall in Hall. now apply Hall.
Qed.

Lemma analyzeDriver_last_race_is_latest_witness :
  exists p,
    RiskAnalysis.analyzeDriver unsorted_client 0 42 2 = inr p /\
    RiskAnalysis.lastRaceIncidents p = 7.
Proof.
  eexists. split; [reflexivity |].
  destruct (analyzeDriver_last_race_is_latest unsorted_client 0 42 2 _
              ltac:(discriminate) eq_refl) as [_ (latest & Hin & Hlast & Hmax)].
  rewrite Hlast.
  assert (RiskAnalysis.sessionStartTime (race_at 300 10 7)
          <= RiskAnalysis.sessionStartTime latest) as Hle
    by (apply Hmax; right; left; reflexivity).
  destruct Hin as [<- | [<- | [<- | []]]]; cbn in Hle; try lia. reflexivity.
Defined.

(** ** Field analysis *)

(** X8.  The recommendation never gets less cautious when the field gets
    riskier: with a higher overall risk, more high-risk drivers and a
    smaller buffer above the safety-rating floor, the recommendation stays
    the same or moves from AGGRESSIVE towards CONSERVATIVE. *)
Theorem generateGridRecommendation_monotone
  (risk1 risk2 : Q) (high1 high2 : Z) (user1 user2 : GridAnalysis.UserProfile) :
  (risk1 <= risk2)%Q -> high1 <= high2 ->
  (GridAnalysis.sr user2 - GridAnalysis.srGoal user2
   <= GridAnalysis.sr user1 - GridAnalysis.srGoal user1)%Q ->
  caution (GridAnalysis.generateGridRecommendation risk1 high1 user1)
  <= caution (GridAnalysis.generateGridRecommendation risk2 high2 user2).
Proof.
  intros Hr Hh Hs. unfold GridAnalysis.generateGridRecommendation. cbv zeta.
  destruct (Qltb_spec (GridAnalysis.sr user1 - GridAnalysis.srGoal user1) 0.2),
    (Qltb_spec (GridAnalysis.sr user2 - GridAnalysis.srGoal user2) 0.2),
    (Qgeb_spec risk1 5), (Qgeb_spec risk2 5), (Qgeb_spec risk1 7), (Qgeb_spec risk2 7),
    (Z.geb_spec high1 5), (Z.geb_spec high2 5), (Z.geb_spec high1 3),
    (Z.geb_spec high2 3);
    cbn [andb orb caution]; try lia; exfalso; first [lra | lia].
Qed.

Lemma generateGridRecommendation_monotone_witness :
  caution (GridAnalysis.generateGridRecommendation 4.5 2 example_user)
  <= caution (GridAnalysis.generateGridRecommendation 5.5 3 example_user).
Proof.
  apply generateGridRecommendation_monotone; [vm_compute; discriminate | lia |].
  vm_compute. discriminate.
Defined.

Section Grid.
Import JS GridAnalysis.

Variable client : RiskAnalysis.IRacingClient.
Variable now : Z.
Variable userProfile : UserProfile.

Lemma grid_profiles_app g1 g2 :
  grid_profiles (g1 ++ g2) = grid_profiles g1 ++ grid_profiles g2.
Proof.
  unfold grid_profiles. induction g1 as [| e g1 IH]; [reflexivity |].
  cbn. destruct (riskProfile e); cbn; now rewrite IH.
Qed.

Lemma count_level_app level g1 g2 :
  count_level level (g1 ++ g2) = count_level level g1 + count_level level g2.
Proof.
  unfold count_level. rewrite grid_profiles_app, List.filter_app, length_app. lia.
Qed.

Lemma score_sum_app ps1 ps2 :
  (score_sum (ps1 ++ ps2) == score_sum ps1 + score_sum ps2)%Q.
Proof.
  unfold score_sum. induction ps1 as [| p ps1 IH]; cbn; [lra |].
  rewrite IH. lra.
Qed.

Lemma grid_profiles_single entry :
  grid_profiles [entry]
  = match riskProfile entry with Some p => [p] | None => [] end.
Proof. unfold grid_profiles. cbn. now destruct (riskProfile entry). Qed.

Lemma count_level_single level entry :
  count_level level [entry]
  = match riskProfile entry with
    | Some p => if has_level level p then 1 else 0
    | None => 0
    end.
Proof.
  unfold count_level. rewrite grid_profiles_single.
  destruct (riskProfile entry) as [p |]; [| reflexivity].
  cbn. now destruct (has_level level p).
Qed.

(** Appending an entry without a profile, or with one. *)
Lemma loop_consistent_none l l' entry :
  loop_consistent l ->
  l_grid l' = l_grid l ++ [entry] ->
  riskProfile entry = None ->
  l_highRiskCount l' = l_highRiskCount l -> l_cleanCount l' = l_cleanCount l ->
  l_analyzedCount l' = l_analyzedCount l ->
  l_totalRiskScore l' = l_totalRiskScore l ->
  loop_consistent l'.
Proof.
  unfold loop_consistent. intros (H1 & H2 & H3 & H4) Hg Hn -> -> -> ->.
  rewrite Hg, !count_level_app, grid_profiles_app, !count_level_single,
    grid_profiles_single, Hn, app_nil_r.
  repeat split; try lia. exact H4.
Qed.

Lemma loop_consistent_some l l' entry p :
  loop_consistent l ->
  l_grid l' = l_grid l ++ [entry] ->
  riskProfile entry = Some p ->
  l_highRiskCount l'
  = match RiskAnalysis.riskLevel p with
    | RiskAnalysis.HIGH => l_highRiskCount l + 1 | _ => l_highRiskCount l end ->
  l_cleanCount l'
  = match RiskAnalysis.riskLevel p with
    | RiskAnalysis.LOW => l_cleanCount l + 1 | _ => l_cleanCount l end ->
  l_analyzedCount l' = l_analyzedCount l + 1 ->
  l_totalRiskScore l' = (l_totalRiskScore l + RiskAnalysis.riskScore p)%Q ->
  loop_consistent l'.
Proof.
  unfold loop_consistent. intros (H1 & H2 & H3 & H4) Hg Hn -> -> -> ->.
  rewrite Hg, !count_level_app, grid_profiles_app, !count_level_single,
    grid_profiles_single, Hn, length_app, score_sum_app.
  unfold has_level. cbn [length score_sum fold_right].
  repeat split.
  - destruct (RiskAnalysis.riskLevel p); lia.
  - destruct (RiskAnalysis.riskLevel p); lia.
  - lia.
  - rewrite H4. lra.
Qed.

Lemma grid_step_shape l driver :
  let l' := grid_step client now userProfile l driver in
  exists entry,
    l_grid l' = l_grid l ++ [entry] /\
    entry_of client now userProfile driver entry /\
    (loop_consistent l -> loop_consistent l').
Proof.
  cbv zeta. unfold grid_step. cbv zeta.
  destruct (GridAnalysis.custId userProfile) as [mine |] eqn:Emine.
  - destruct (Z.eqb_spec mine 0) as [Hz | Hnz]; cbn [negb andb].
    + assert (~ is_user userProfile driver) as Hnot
        by (intros (m & Hm & Hm0 & _); congruence).
      destruct (RiskAnalysis.analyzeDriver client now (cust_id driver) 10)
        as [e | p] eqn:Ea; eexists; (split; [reflexivity |]);
        (split; [unfold entry_of; cbn; rewrite ?Ea; tauto |]); intros Hc.
      * eapply loop_consistent_none; try exact Hc; reflexivity.
      * eapply loop_consistent_some; try exact Hc; reflexivity.
    + destruct (Z.eqb_spec (cust_id driver) mine) as [Heq | Hne].
      * eexists. split; [reflexivity |]. split.
        -- unfold entry_of. cbn. repeat split; try reflexivity.
           intros Hnot. exfalso. apply Hnot. exists mine. tauto.
        -- intros Hc. eapply loop_consistent_none; try exact Hc; reflexivity.
      * assert (~ is_user userProfile driver) as Hnot
          by (intros (m & Hm & _ & Hd); congruence).
        destruct (RiskAnalysis.analyzeDriver client now (cust_id driver) 10)
          as [e | p] eqn:Ea; eexists; (split; [reflexivity |]);
          (split; [unfold entry_of; cbn; rewrite ?Ea; tauto |]); intros Hc.
        -- eapply loop_consistent_none; try exact Hc; reflexivity.
        -- eapply loop_consistent_some; try exact Hc; reflexivity.
  - assert (~ is_user userProfile driver) as Hnot
      by (intros (m & Hm & _); congruence).
    destruct (RiskAnalysis.analyzeDriver client now (cust_id driver) 10)
      as [e | p] eqn:Ea; eexists; (split; [reflexivity |]);
      (split; [unfold entry_of; cbn; rewrite ?Ea; tauto |]); intros Hc.
    + eapply loop_consistent_none; try exact Hc; reflexivity.
    + eapply loop_consistent_some; try exact Hc; reflexivity.
Qed.

Lemma grid_loop_shape drivers : forall l,
  let l' := fold_left (grid_step client now userProfile) drivers l in
  exists entries,
    l_grid l' = l_grid l ++ entries /\
    Forall2 (entry_of client now userProfile) drivers entries /\
    (loop_consistent l -> loop_consistent l').
Proof.
  induction drivers as [| driver drivers IH]; intros l; cbn zeta.
  - exists []. cbn. rewrite app_nil_r.
    split; [reflexivity | split; [constructor | tauto]].
  - cbn [fold_left].
    destruct (grid_step_shape l driver) as (entry & Hg & He & Hc). cbv zeta in *.
    destruct (IH (grid_step client now userProfile l driver))
      as (entries & Hg' & Hes & Hc').
    cbv zeta in *. exists (entry :: entries). split; [| split].
    + rewrite Hg', Hg, <- app_assoc. reflexivity.
    + now constructor.
    + tauto.
Qed.

Lemma level_counts_le (ps : list RiskAnalysis.DriverRiskProfile) :
  (length (List.filter (has_level RiskAnalysis.HIGH) ps)
   + length (List.filter (has_level RiskAnalysis.LOW) ps) <= length ps)%nat.
Proof.
  induction ps as [| p ps IH]; [cbn; lia |].
  cbn [List.filter].
  destruct (has_level RiskAnalysis.HIGH p) eqn:E1,
           (has_level RiskAnalysis.LOW p) eqn:E2; cbn [length]; try lia.
  unfold has_level in E1, E2. destruct (RiskAnalysis.riskLevel p); discriminate.
Qed.

Lemma grid_profiles_length g : (length (grid_profiles g) <= length g)%nat.
Proof.
  unfold grid_profiles. induction g as [| e g IH]; [cbn; lia |].
  cbn. destruct (riskProfile e); cbn; lia.
Qed.

Lemma score_sum_bounds (ps : list RiskAnalysis.DriverRiskProfile) :
  Forall (fun p => (0 <= RiskAnalysis.riskScore p)%Q
                   /\ (RiskAnalysis.riskScore p <= 10)%Q) ps ->
  (0 <= score_sum ps)%Q /\
  (score_sum ps <= 10 * inject_Z (Z.of_nat (length ps)))%Q.
Proof.
  induction 1 as [| p ps [Hp0 Hp1] _ IH].
  { unfold score_sum. cbn [fold_right length].
    change (inject_Z (Z.of_nat 0)) with 0%Q. split; lra. }
  unfold score_sum. cbn [fold_right length]. fold (score_sum ps).
  rewrite Nat2Z.inj_succ, <- Z.add_1_r, inject_Z_plus.
  change (inject_Z 1) with 1%Q. destruct IH. split; lra.
Qed.

End Grid.

(** X9.  The field analysis fails only on the results of the session: it
    throws when the fetch of the results throws or returns nothing, and
    otherwise returns a grid with one entry per driver of the race
    session, in the order of the results; the entry of the user has no
    profile, and a driver whose own analysis fails gets an entry without
    a profile instead of failing the field. *)
Theorem analyzeRaceGrid_degrades
  (client : RiskAnalysis.IRacingClient)
  (getRaceResults : Z -> RiskAnalysis.FetchError + option GridAnalysis.RaceResults)
  (now sessionId : Z) (userProfile : GridAnalysis.UserProfile) :
  match getRaceResults sessionId with
  | inl e =>
      GridAnalysis.analyzeRaceGrid client getRaceResults now sessionId userProfile
      = inl (GridAnalysis.ResultsFetch e)
  | inr None =>
      GridAnalysis.analyzeRaceGrid client getRaceResults now sessionId userProfile
      = inl (GridAnalysis.CouldNotFetchResults sessionId)
  | inr (Some raceResults) =>
      exists r log,
        GridAnalysis.analyzeRaceGrid client getRaceResults now sessionId userProfile
        = inr (r, log) /\
        Forall2 (entry_of client now userProfile)
          (GridAnalysis.race_drivers raceResults) (GridAnalysis.grid r)
  end.
Proof.
  unfold GridAnalysis.analyzeRaceGrid.
  destruct (getRaceResults sessionId) as [e | [raceResults |]]; try reflexivity.
  cbv zeta. eexists. eexists. split; [reflexivity |].
  cbn [GridAnalysis.grid].
  destruct (grid_loop_shape client now userProfile
              (GridAnalysis.race_drivers raceResults) GridAnalysis.grid_start)
    as (entries & Hg & Hes & _).
  cbv zeta in Hg. rewrite Hg. exact Hes.
Qed.

(** X10.  The aggregates of a field analysis are those of its grid: the
    high-risk and the clean count are the numbers of HIGH and LOW profiles
    in the grid, and together at most the number of profiles; without any
    profile the overall risk is the neutral 5; and when every profile has
    a score in [0,10] so has the overall risk, the rounded mean. *)
Theorem analyzeRaceGrid_aggregates
  (client : RiskAnalysis.IRacingClient)
  (getRaceResults : Z -> RiskAnalysis.FetchError + option GridAnalysis.RaceResults)
  (now sessionId : Z) (userProfile : GridAnalysis.UserProfile)
  (r : GridAnalysis.RaceSessionAnalysis) (log : list GridAnalysis.GridLog) :
  GridAnalysis.analyzeRaceGrid client getRaceResults now sessionId userProfile
  = inr (r, log) ->
  let a := GridAnalysis.analysis r in
  let profiles := grid_profiles (GridAnalysis.grid r) in
  GridAnalysis.highRiskDrivers a = count_level RiskAnalysis.HIGH (GridAnalysis.grid r) /\
  GridAnalysis.cleanDrivers a = count_level RiskAnalysis.LOW (GridAnalysis.grid r) /\
  GridAnalysis.highRiskDrivers a + GridAnalysis.cleanDrivers a
  <= Z.of_nat (length profiles) <= Z.of_nat (length (GridAnalysis.grid r)) /\
  (profiles = [] -> GridAnalysis.overallRiskScore a = 5%Q) /\
  (Forall (fun p => (0 <= RiskAnalysis.riskScore p)%Q
                    /\ (RiskAnalysis.riskScore p <= 10)%Q) profiles ->
   (0 <= GridAnalysis.overallRiskScore a)%Q /\ (GridAnalysis.overallRiskScore a <= 10)%Q) /\
  GridAnalysis.recommendation a
  = GridAnalysis.generateGridRecommendation (GridAnalysis.overallRiskScore a)
      (GridAnalysis.highRiskDrivers a) userProfile.
Proof.
  unfold GridAnalysis.analyzeRaceGrid.
  destruct (getRaceResults sessionId) as [e | [raceResults |]]; try discriminate.
  cbv zeta. intros [= <- _].
  cbn [GridAnalysis.analysis GridAnalysis.grid GridAnalysis.highRiskDrivers
       GridAnalysis.cleanDrivers GridAnalysis.overallRiskScore
       GridAnalysis.recommendation].
  destruct (grid_loop_shape client now userProfile
              (GridAnalysis.race_drivers raceResults) GridAnalysis.grid_start)
    as (entries & _ & _ & Hc).
  cbv zeta in Hc.
  set (l := fold_left (GridAnalysis.grid_step client now userProfile)
              (GridAnalysis.race_drivers raceResults) GridAnalysis.grid_start) in *.
  destruct Hc as (H1 & H2 & H3 & H4).
  { unfold loop_consistent. cbn. repeat split; reflexivity. }
  split; [exact H1 |]. split; [exact H2 |]. split; [| split; [| split]].
  - rewrite H1, H2. unfold count_level.
    pose proof (level_counts_le (grid_profiles (GridAnalysis.l_grid l))).
    pose proof (grid_profiles_length (GridAnalysis.l_grid l)).
    lia.
  - intros Hnil. rewrite Hnil in H3. cbn in H3.
    destruct (Z.gtb_spec (GridAnalysis.l_analyzedCount l) 0); [lia | reflexivity].
  - intros Hall.
    destruct (Z.gtb_spec (GridAnalysis.l_analyzedCount l) 0) as [Hpos | Hzero];
      [| split; vm_compute; discriminate].
    pose proof (score_sum_bounds _ Hall) as Hbounds.
    rewrite <- H3, <- H4 in Hbounds. destruct Hbounds as [Hb0 Hb1].
    assert (HN : (0 < inject_Z (GridAnalysis.l_analyzedCount l))%Q)
      by (change 0%Q with (inject_Z 0); now rewrite <- Zlt_Qlt).
    assert (Hmean0 : (0 <= GridAnalysis.l_totalRiskScore l
                           / inject_Z (GridAnalysis.l_analyzedCount l))%Q).
    { apply Qle_shift_div_l; [assumption | lra]. }
    assert (Hmean1 : (GridAnalysis.l_totalRiskScore l
                      / inject_Z (GridAnalysis.l_analyzedCount l) <= 10)%Q).
    { apply Qle_shift_div_r; [assumption | lra]. }
    split; [now apply round_tenth_nonneg | now apply round_tenth_le_10].
  - reflexivity.
Qed.

Lemma analyzeRaceGrid_aggregates_witness :
  exists r log,
    GridAnalysis.analyzeRaceGrid one_history_client (fun _ => inr (Some example_results))
      0 5000 example_user = inr (r, log) /\
    map GridAnalysis.g_custId (GridAnalysis.grid r) = [42; 7; 8] /\
    Z.of_nat (length (grid_profiles (GridAnalysis.grid r))) = 1 /\
    GridAnalysis.highRiskDrivers (GridAnalysis.analysis r) = 0 /\
    (GridAnalysis.overallRiskScore (GridAnalysis.analysis r) == 5.5)%Q.
Proof.
  eexists. eexists. split; [reflexivity |].
  pose proof (analyzeRaceGrid_aggregates one_history_client
                (fun _ => inr (Some example_results)) 0 5000 example_user _ _ eq_refl)
    as (H1 & _).
  split; [reflexivity |]. split; [reflexivity |]. split; [| reflexivity].
  rewrite H1. reflexivity.
Defined.

(** ** Proximity *)

Section Proximity.
Import JS Racesafe.
Local Open Scope Q_scope.

Lemma num_gtb_true (a : option Q) (b : Q) :
  num_gtb a b = true <-> exists g, a = Some g /\ b < g.
Proof.
  unfold num_gtb. destruct a as [x |].
  - destruct (Qgtb_spec x b); split; try discriminate; eauto.
    intros (g & [= <-] & Hg). contradiction.
  - split; [discriminate | intros (g & H & _); discriminate H].
Qed.

Lemma Math_abs_Qabs x : Math_abs x == Qabs x.
Proof.
  unfold Math_abs. destruct (Qltb_spec x 0) as [H | H].
  - symmetry. apply Qabs_neg. lra.
  - symmetry. apply Qabs_pos. lra.
Qed.

Lemma wrapped_gap_distance d m :
  0 <= d -> d <= 1 -> 0 <= m -> m <= 1 ->
  let g := if Qgtb (d - m) 0.5 then d - m - 1 else d - m in
  let w := if Qltb g (-0.5) then g + 1 else g in
  Qabs w == lap_distance d m /\ (0 < w <-> ahead_of d m).
Proof.
  intros Hd0 Hd1 Hm0 Hm1. unfold lap_distance, ahead_of. cbv zeta.
  destruct (Qgtb_spec (d - m) 0.5) as [G | G].
  - destruct (Qltb_spec (d - m - 1) (-0.5)) as [L | L]; [lra |].
    rewrite (Qabs_neg (d - m - 1)) by lra. rewrite (Qabs_pos (d - m)) by lra.
    split; [| split; intros; lra].
    rewrite Q.min_r by lra. lra.
  - destruct (Qltb_spec (d - m) (-0.5)) as [L | L].
    + rewrite (Qabs_pos (d - m + 1)) by lra. rewrite (Qabs_neg (d - m)) by lra.
      split; [| split; intros; lra].
      rewrite Q.min_r by lra. lra.
    + split; [| split; intros; lra].
      destruct (Qlt_le_dec (d - m) 0).
      * rewrite (Qabs_neg (d - m)) by lra. rewrite Q.min_l by lra. lra.
      * rewrite (Qabs_pos (d - m)) by lra. rewrite Q.min_l by lra. lra.
Qed.

Lemma Qabs_scale (w : Q) : Qabs (w * 90) == 90 * Qabs w.
Proof.
  rewrite Qabs_Qmult. rewrite (Qabs_pos 90) by lra. lra.
Qed.

(** X11. A car with a track position, both fractions within the lap, is
    listed as nearby exactly when it is not the own car, is not on a
    negative lap, is not on pit road and is at most 5 seconds away the
    shorter way round the lap at 90 seconds a lap; its gap is that time and
    it is ahead when it is up to half a lap in front. *)
Theorem nearby_entry_circular_gap (s : State) (telemetry : Telemetry) (m : Q)
  (idx : Z) (a : AnalyzedDriver) (d : Q)
  (Hpos : at_index (CarIdxLapDistPct telemetry) idx = Some d)
  (Hd : 0 <= d /\ d <= 1) (Hm : 0 <= m /\ m <= 1) :
  (nearby_entry s telemetry m (idx, a) = None <->
     idx = myCarIdx s \/
     (exists lap, at_index (CarIdxLap telemetry) idx = Some lap /\ (lap < 0)%Z) \/
     at_index (CarIdxOnPitRoad telemetry) idx = Some true \/
     5 < 90 * lap_distance d m) /\
  (forall n, nearby_entry s telemetry m (idx, a) = Some n ->
     driver n = a /\
     sessionIncidents n = default 0%Z (driverSessionIncidents s !! idx) /\
     (exists g, gap n = Some g /\ g == 90 * lap_distance d m /\ 0 <= g /\ g <= 5) /\
     (direction n = AHEAD <-> ahead_of d m)).
Proof.
  destruct Hd as [Hd0 Hd1], Hm as [Hm0 Hm1].
  pose proof (wrapped_gap_distance d m Hd0 Hd1 Hm0 Hm1) as Hw. cbv zeta in Hw.
  unfold nearby_entry. rewrite Hpos. cbn [option_map num_gtb num_ltb].
  set (g := if Qgtb (d - m) 0.5 then d - m - 1 else d - m) in Hw.
  assert (Eg : (if Qgtb (d - m) 0.5 then Some (d - m - 1) else Some (d - m)) = Some g).
  { unfold g. destruct (Qgtb (d - m) 0.5); reflexivity. }
  rewrite Eg. cbn [option_map num_gtb num_ltb].
  set (w := if Qltb g (-0.5) then g + 1 else g) in Hw.
  assert (Ew : (if Qltb g (-0.5) then Some (g + 1) else Some g) = Some w).
  { unfold w. destruct (Qltb g (-0.5)); reflexivity. }
  rewrite Ew. cbn [option_map num_gtb num_ltb].
  destruct Hw as [Habs Hahead].
  assert (Hgap : Math_abs (w * 90) == 90 * lap_distance d m).
  { rewrite Math_abs_Qabs, Qabs_scale, Habs. reflexivity. }
  assert (Hnonneg : 0 <= Math_abs (w * 90)).
  { rewrite Math_abs_Qabs. apply Qabs_nonneg. }
  set (negative := match at_index (CarIdxLap telemetry) idx with
                   | Some lap => (lap <? 0)%Z
                   | None => false
                   end).
  assert (Hneg : negative = true <->
                 exists lap, at_index (CarIdxLap telemetry) idx = Some lap /\ (lap < 0)%Z).
  { unfold negative. destruct (at_index (CarIdxLap telemetry) idx) as [lap |].
    - rewrite Z.ltb_lt. split; [eauto | intros (l & [= <-] & H); exact H].
    - split; [discriminate | intros (l & H & _); discriminate H]. }
  set (pit := default false (at_index (CarIdxOnPitRoad telemetry) idx)).
  assert (Hpit : pit = true <-> at_index (CarIdxOnPitRoad telemetry) idx = Some true).
  { unfold pit. destruct (at_index (CarIdxOnPitRoad telemetry) idx) as [[|] |];
      cbn [default from_option]; split; intros H; first [reflexivity | discriminate H]. }
  destruct (Z.eqb_spec idx (myCarIdx s)) as [Hme | Hme].
  { split; [tauto | discriminate]. }
  destruct negative.
  { split; [tauto | discriminate]. }
  destruct pit.
  { split; [tauto | discriminate]. }
  destruct (Qgtb_spec (Math_abs (w * 90)) 5) as [Hfar | Hnear].
  { split; [| discriminate]. split; [| reflexivity]. intros _. do 3 right. lra. }
  split.
  - split; [discriminate |].
    intros [H | [H | [H | H]]];
      [contradiction | apply Hneg in H; discriminate H
       | apply Hpit in H; discriminate H | lra].
  - intros n [= <-]. cbn [driver sessionIncidents gap direction].
    repeat split; try reflexivity.
    + exists (Math_abs (w * 90)). repeat split; [exact Hgap | exact Hnonneg | lra].
    + destruct (Qgtb_spec w 0) as [H | H]; [intros _; apply Hahead, H | discriminate].
    + intros H. apply Hahead in H. destruct (Qgtb_spec w 0); [reflexivity | lra].
Qed.

Lemma nearby_entry_circular_gap_witness :
  exists n,
    nearby_entry racing_state (telemetry_at 0.98 0) 0.01 (7%Z, example_high_driver) = Some n /\
    (exists g, gap n = Some g /\ g == 90 * lap_distance 0.98 0.01 /\ 0 <= g /\ g <= 5) /\
    direction n = BEHIND.
Proof.
  eexists. split; [reflexivity |].
  assert (Hd : 0 <= 0.98 /\ 0.98 <= 1) by (split; lra).
  assert (Hm : 0 <= 0.01 /\ 0.01 <= 1) by (split; lra).
  destruct (nearby_entry_circular_gap racing_state (telemetry_at 0.98 0) 0.01 7
              example_high_driver 0.98 eq_refl Hd Hm) as [_ Hkept].
  destruct (Hkept _ eq_refl) as (_ & _ & Hgap & _).
  split; [exact Hgap | reflexivity].
Defined.

End Proximity.

(** ** Telemetry *)

Section Telemetry.
Import JS Racesafe.
Variable config : AlertConfig.
Variable execThrows : Sound -> bool.

Lemma playAlert_flash s type : flash_total (playAlert config execThrows s type) = 0.
Proof.
  unfold playAlert. generalize (sessionConfigOf config (currentSessionType s)).
  intros [d i]. cbn [danger incident].
  destruct type, d, i; cbn; try reflexivity;
    destruct (execThrows _), (isServiceMode s); reflexivity.
Qed.

Lemma playAlert_summary s type :
  count_events is_summary (playAlert config execThrows s type) = 0%nat.
Proof.
  unfold playAlert. generalize (sessionConfigOf config (currentSessionType s)).
  intros [d i]. cbn [danger incident].
  destruct type, d, i; cbn; try reflexivity;
    destruct (execThrows _), (isServiceMode s); reflexivity.
Qed.

Lemma flash_total_app a b : flash_total (a ++ b) = flash_total a + flash_total b.
Proof.
  induction a as [| e a IH]; cbn; [reflexivity |].
  fold (flash_total (a ++ b)) (flash_total a). destruct e; lia.
Qed.

Lemma count_events_app p a b :
  count_events p (a ++ b) = (count_events p a + count_events p b)%nat.
Proof.
  unfold count_events. rewrite List.filter_app, List.length_app. reflexivity.
Qed.

(** The alert loop adds sounds and banners only. *)
Lemma danger_loop_quiet s threats acc :
  let out := snd (fold_left (danger_step config execThrows s) threats acc) in
  flash_total out = flash_total (snd acc) /\
  count_events is_summary out = count_events is_summary (snd acc) /\
  count_events (is_exec Asterisk) out = count_events (is_exec Asterisk) (snd acc) /\
  count_events is_flash out = count_events is_flash (snd acc).
Proof.
  cbv zeta. revert acc. induction threats as [| t threats IH]; intros [zone out].
  - repeat split.
  - cbn [fold_left]. unfold danger_step at 2 4 6 8.
    destruct (num_ltb (gap t) DANGER_ZONE_THRESHOLD); [| apply IH].
    destruct (bool_decide _);
      [exact (IH (zone ∪ {[carIdx (driver t)]}, out)) |].
    destruct (IH (zone ∪ {[carIdx (driver t)]},
                  out ++ playAlert config execThrows s Danger ++ [DangerBanner t]))
      as (H1 & H2 & H3 & H4).
    cbn [snd] in *. rewrite H1, H2, H3, H4.
    rewrite !flash_total_app, !count_events_app, playAlert_flash, playAlert_summary.
    unfold playAlert. generalize (sessionConfigOf config (currentSessionType s)).
    intros [d i]. cbn [danger incident negb].
    destruct d; cbn; [| repeat split; lia].
    destruct (execThrows _), (isServiceMode s); cbn; repeat split; lia.
Qed.

Lemma displayRaceStatus_quiet s position lap nearby totalCars incidents :
  let s' := fst (displayRaceStatus config execThrows s position lap nearby totalCars incidents) in
  let out := snd (displayRaceStatus config execThrows s position lap nearby totalCars incidents) in
  same_session s s' /\
  currentPhase s' = currentPhase s /\
  mySessionIncidents s' = mySessionIncidents s /\
  lastKnownIncidents s' = lastKnownIncidents s /\
  flash_total out = 0 /\
  count_events is_summary out = 0%nat /\
  count_events (is_exec Asterisk) out = 0%nat /\
  count_events is_flash out = 0%nat.
Proof.
  cbv zeta. unfold displayRaceStatus.
  match goal with
  | |- context [fold_left ?f ?l ?a] =>
      pose proof (danger_loop_quiet s l a) as Hq; cbv zeta in Hq;
      destruct (fold_left f l a) as [zone out]
  end.
  cbn [fst snd] in *. destruct Hq as (H1 & H2 & H3 & H4).
  rewrite H1, H2, H3, H4. destruct s; unfold same_session; cbn. tauto.
Qed.

Lemma set_incidents_fields a b s :
  same_session s (set_incidents a b s) /\
  currentPhase (set_incidents a b s) = currentPhase s /\
  mySessionIncidents (set_incidents a b s) = a /\
  lastKnownIncidents (set_incidents a b s) = b.
Proof.
  destruct s; unfold same_session; cbn. tauto.
Qed.

Lemma same_session_trans s1 s2 s3 :
  same_session s1 s2 -> same_session s2 s3 -> same_session s1 s3.
Proof.
  unfold same_session. intuition congruence.
Qed.

Lemma same_session_refl s : same_session s s.
Proof.
  unfold same_session. tauto.
Qed.

Lemma playAlert_incident_sound s :
  count_events (is_exec Asterisk) (playAlert config execThrows s Incident) =
    (if incident (sessionConfigOf config (currentSessionType s)) then 1%nat else 0%nat) /\
  count_events is_flash (playAlert config execThrows s Incident) = 0%nat.
Proof.
  unfold playAlert. generalize (sessionConfigOf config (currentSessionType s)).
  intros [d i]. cbn [danger incident negb].
  destruct i; cbn; [| split; reflexivity].
  destruct (execThrows _), (isServiceMode s); cbn; split; reflexivity.
Qed.

Lemma status_tail s1 out1 (skip : bool) position lap nearby totalCars incidents :
  let r := if skip then (s1, out1)
           else let '(s0, out') :=
                  displayRaceStatus config execThrows s1 position lap nearby
                    totalCars incidents in
                (s0, out1 ++ out') in
  same_session s1 (fst r) /\
  currentPhase (fst r) = currentPhase s1 /\
  mySessionIncidents (fst r) = mySessionIncidents s1 /\
  lastKnownIncidents (fst r) = lastKnownIncidents s1 /\
  flash_total (snd r) = flash_total out1 /\
  count_events is_summary (snd r) = count_events is_summary out1 /\
  count_events (is_exec Asterisk) (snd r) = count_events (is_exec Asterisk) out1 /\
  count_events is_flash (snd r) = count_events is_flash out1.
Proof.
  cbv zeta. destruct skip.
  - cbn [fst snd]. repeat split.
  - pose proof (displayRaceStatus_quiet s1 position lap nearby totalCars incidents) as Hq.
    cbv zeta in Hq.
    destruct (displayRaceStatus config execThrows s1 position lap nearby totalCars
                incidents) as [s2 out2].
    cbn [fst snd] in *. destruct Hq as (H1 & H2 & H3 & H4 & H5 & H6 & H7 & H8).
    rewrite flash_total_app, !count_events_app, H5, H6, H7, H8.
    rewrite Z.add_0_r, !Nat.add_0_r. tauto.
Qed.

Ltac status_tail_facts :=
  match goal with
  | |- context [if ?b then (?s1, ?o1)
                else let '(_, _) := displayRaceStatus _ _ _ ?p ?l ?n ?t ?i in _] =>
      pose proof (status_tail s1 o1 b p l n t i) as Htail; cbv zeta in Htail;
      destruct Htail as (T1 & T2 & T3 & T4 & T5 & T6 & T7 & T8);
      rewrite ?T2, ?T3, ?T4, ?T5, ?T6, ?T7, ?T8
  end.

Lemma handleTelemetry_step s telemetry :
  monitoring s -> not_checkered telemetry ->
  let s' := fst (handleTelemetry config execThrows s telemetry) in
  let out := snd (handleTelemetry config execThrows s telemetry) in
  let c := incident_count telemetry in
  let first := lastKnownIncidents s =? -1 in
  let top := Z.max (lastKnownIncidents s) c in
  same_session s s' /\
  currentPhase s' = currentPhase s /\
  lastKnownIncidents s' = (if first then c else top) /\
  mySessionIncidents s' =
    (if first then 0 else mySessionIncidents s + (top - lastKnownIncidents s)) /\
  flash_total out = (if first then 0 else top - lastKnownIncidents s) /\
  count_events is_summary out = 0%nat /\
  count_events (is_exec Asterisk) out =
    (if incident (sessionConfigOf config (currentSessionType s))
     then count_events is_flash out else 0%nat).
Proof.
  intros [Hme Hdrivers] Hflag. cbv zeta. unfold handleTelemetry.
  destruct (Z.eqb_spec (myCarIdx s) (-1)) as [E | _]; [contradiction |].
  destruct (analyzedDrivers s) as [| d ds] eqn:Ed; [contradiction |].
  cbn [length Nat.eqb orb]. unfold not_checkered in Hflag. rewrite Hflag.
  cbn [Z.eqb negb]. fold (incident_count telemetry).
  destruct (Z.eqb_spec (lastKnownIncidents s) (-1)) as [Efirst | Efirst].
  - cbv beta iota zeta.
    destruct (set_incidents_fields 0 (incident_count telemetry) s) as (F1 & F2 & F3 & F4).
    status_tail_facts.
    split; [exact (same_session_trans _ _ _ F1 T1) |].
    rewrite F2, F3, F4. cbn.
    destruct (incident _); repeat split.
  - destruct (Z.gtb_spec (incident_count telemetry) (lastKnownIncidents s)) as [Hup | Hsame].
    + cbv beta iota zeta.
      set (s1 := set_incidents
                   (mySessionIncidents s + (incident_count telemetry - lastKnownIncidents s))
                   (incident_count telemetry) s).
      destruct (set_incidents_fields
                  (mySessionIncidents s + (incident_count telemetry - lastKnownIncidents s))
                  (incident_count telemetry) s) as (F1 & F2 & F3 & F4).
      fold s1 in F1, F2, F3, F4.
      destruct (playAlert_incident_sound s1) as [P1 P2].
      assert (Ety : currentSessionType s1 = currentSessionType s) by apply F1.
      rewrite Ety in P1.
      status_tail_facts.
      split; [exact (same_session_trans _ _ _ F1 T1) |].
      rewrite F2, F3, F4, flash_total_app, !count_events_app, playAlert_flash,
        playAlert_summary, P1, P2.
      rewrite Z.max_r by lia. cbn.
      destruct (incident _); repeat split; lia.
    + cbv beta iota zeta. status_tail_facts.
      split; [exact T1 |].
      rewrite Z.max_l by lia. cbn.
      destruct (incident _); repeat split; lia.
Qed.
Lemma monitoring_kept s s' : same_session s s' -> monitoring s -> monitoring s'.
Proof.
  unfold same_session, monitoring. intros H [H1 H2].
  destruct H as (_ & _ & _ & Ha & Hc & _). rewrite Ha, Hc. tauto.
Qed.

Lemma telemetry_run_incidents updates : forall s,
  monitoring s -> 0 <= lastKnownIncidents s ->
  Forall not_checkered updates ->
  Forall (fun telemetry => 0 <= incident_count telemetry) updates ->
  let r := telemetry_run config execThrows s updates in
  let top := fold_left Z.max (map incident_count updates) (lastKnownIncidents s) in
  same_session s (fst r) /\
  lastKnownIncidents (fst r) = top /\
  mySessionIncidents (fst r) = mySessionIncidents s + (top - lastKnownIncidents s) /\
  flash_total (snd r) = top - lastKnownIncidents s /\
  count_events (is_exec Asterisk) (snd r) =
    (if incident (sessionConfigOf config (currentSessionType s))
     then count_events is_flash (snd r) else 0%nat).
Proof.
  induction updates as [| t updates IH]; intros s Hmon Hlast Hflags Hcounts; cbv zeta.
  - cbn. split; [apply same_session_refl |].
    destruct (incident _); repeat split; lia.
  - inversion Hflags as [| ? ? Hflag Hflags']; subst.
    inversion Hcounts as [| ? ? Hcount Hcounts']; subst.
    pose proof (handleTelemetry_step s t Hmon Hflag) as Hstep. cbv zeta in Hstep.
    cbn [telemetry_run map fold_left].
    destruct (handleTelemetry config execThrows s t) as [s1 out1]. cbn [fst snd] in Hstep.
    destruct Hstep as (S1 & _ & S3 & S4 & S5 & _ & S7).
    destruct (Z.eqb_spec (lastKnownIncidents s) (-1)) as [E | _]; [lia |].
    assert (Hmon1 : monitoring s1) by exact (monitoring_kept _ _ S1 Hmon).
    assert (Hlast1 : 0 <= lastKnownIncidents s1) by lia.
    specialize (IH s1 Hmon1 Hlast1 Hflags' Hcounts'). cbv zeta in IH.
    destruct (telemetry_run config execThrows s1 updates) as [s2 out2].
    cbn [fst snd] in *. destruct IH as (I1 & I2 & I3 & I4 & I5).
    assert (Ety : currentSessionType s1 = currentSessionType s) by apply S1.
    rewrite Ety in I5. rewrite S3 in I2, I3, I4.
    assert (Htop : Z.max (lastKnownIncidents s) (incident_count t) <=
                   fold_left Z.max (map incident_count updates)
                     (Z.max (lastKnownIncidents s) (incident_count t))).
    { generalize (Z.max (lastKnownIncidents s) (incident_count t)).
      clear. induction (map incident_count updates) as [| c cs IHc]; intros k; cbn; [lia |].
      specialize (IHc (Z.max k c)). lia. }
    split; [exact (same_session_trans _ _ _ S1 I1) |].
    rewrite flash_total_app, !count_events_app, I2, I3, I4, I5, S4, S5, S7.
    destruct (incident _); repeat split; lia.
Qed.

(** X12. From a fresh session, over updates that are not under the
    checkered flag: the first update only sets the baseline, so incidents
    carried into the session are not counted; afterwards the tracked count
    is the highest count seen, the session total is that count less the
    baseline, the flashes announce exactly that total, and the incident
    sound is played once for each flash when the incident switch of the
    session type is on and never otherwise. *)
Theorem incident_tracking (s : State) (first : Telemetry) (rest : list Telemetry)
  (Hmon : monitoring s) (Hfresh : lastKnownIncidents s = -1)
  (Hflags : Forall not_checkered (first :: rest))
  (Hcounts : Forall (fun telemetry => 0 <= incident_count telemetry) (first :: rest)) :
  let r := telemetry_run config execThrows s (first :: rest) in
  let top := fold_left Z.max (map incident_count rest) (incident_count first) in
  lastKnownIncidents (fst r) = top /\
  mySessionIncidents (fst r) = top - incident_count first /\
  flash_total (snd r) = top - incident_count first /\
  count_events (is_exec Asterisk) (snd r) =
    (if incident (sessionConfigOf config (currentSessionType s))
     then count_events is_flash (snd r) else 0%nat).
Proof.
  cbv zeta.
  inversion Hflags as [| ? ? Hflag Hflags']; subst.
  inversion Hcounts as [| ? ? Hcount Hcounts']; subst.
  pose proof (handleTelemetry_step s first Hmon Hflag) as Hstep. cbv zeta in Hstep.
  cbn [telemetry_run].
  destruct (handleTelemetry config execThrows s first) as [s1 out1]. cbn [fst snd] in Hstep.
  destruct Hstep as (S1 & _ & S3 & S4 & S5 & _ & S7).
  rewrite Hfresh in S3, S4, S5. cbn [Z.eqb Pos.eqb] in S3, S4, S5.
  change (-1 =? -1) with true in S3, S4, S5.
  assert (Hmon1 : monitoring s1) by exact (monitoring_kept _ _ S1 Hmon).
  assert (Hlast1 : 0 <= lastKnownIncidents s1) by lia.
  pose proof (telemetry_run_incidents rest s1 Hmon1 Hlast1 Hflags' Hcounts') as Hrun.
  cbv zeta in Hrun.
  destruct (telemetry_run config execThrows s1 rest) as [s2 out2].
  cbn [fst snd] in *. destruct Hrun as (_ & I2 & I3 & I4 & I5).
  assert (Ety : currentSessionType s1 = currentSessionType s) by apply S1.
  rewrite Ety in I5. rewrite S3 in I2, I3, I4.
  rewrite flash_total_app, !count_events_app, I2, I3, I4, I5, S4, S5, S7.
  destruct (incident _); repeat split; lia.
Qed.

Lemma set_currentPhase_fields phase s :
  same_session s (set_currentPhase phase s) /\
  currentPhase (set_currentPhase phase s) = phase /\
  mySessionIncidents (set_currentPhase phase s) = mySessionIncidents s /\
  lastKnownIncidents (set_currentPhase phase s) = lastKnownIncidents s /\
  driversInDangerZone (set_currentPhase phase s) = driversInDangerZone s.
Proof.
  destruct s; unfold same_session; cbn. tauto.
Qed.

Lemma monitoring_dec s : {monitoring s} + {~ monitoring s}.
Proof.
  unfold monitoring.
  destruct (Z.eq_dec (myCarIdx s) (-1)) as [E | E]; [right; tauto |].
  destruct (analyzedDrivers s) as [| d ds]; [right; tauto | left].
  split; [exact E | discriminate].
Qed.

Lemma handleTelemetry_idle s telemetry :
  ~ monitoring s -> handleTelemetry config execThrows s telemetry = (s, []).
Proof.
  unfold monitoring, handleTelemetry. intros Hidle.
  destruct (Z.eqb_spec (myCarIdx s) (-1)) as [E | E]; [reflexivity |].
  destruct (analyzedDrivers s) as [| d ds]; [reflexivity |].
  exfalso. apply Hidle. split; [exact E | discriminate].
Qed.

Lemma handleTelemetry_checkered s telemetry :
  monitoring s -> ~ not_checkered telemetry ->
  handleTelemetry config execThrows s telemetry =
    match currentPhase s with
    | POST_RACE => (s, [])
    | _ => (set_currentPhase POST_RACE s, [CheckeredFlag (mySessionIncidents s)])
    end.
Proof.
  unfold monitoring, not_checkered, handleTelemetry. intros [Hme Hdrivers] Hflag.
  destruct (Z.eqb_spec (myCarIdx s) (-1)) as [E | _]; [contradiction |].
  destruct (analyzedDrivers s) as [| d ds]; [contradiction |].
  cbn [length Nat.eqb orb].
  destruct (Z.eqb_spec (Z.land (default 0 (SessionFlags telemetry)) 8) 0) as [E | _];
    [contradiction | reflexivity].
Qed.

Lemma not_checkered_dec telemetry : {not_checkered telemetry} + {~ not_checkered telemetry}.
Proof.
  unfold not_checkered. apply Z.eq_dec.
Qed.

Lemma handleTelemetry_phase s telemetry :
  let s' := fst (handleTelemetry config execThrows s telemetry) in
  let out := snd (handleTelemetry config execThrows s telemetry) in
  same_session s s' /\
  (count_events is_summary out <= 1)%nat /\
  (currentPhase s = POST_RACE ->
   currentPhase s' = POST_RACE /\ count_events is_summary out = 0%nat) /\
  (count_events is_summary out = 1%nat -> currentPhase s' = POST_RACE) /\
  (monitoring s -> ~ not_checkered telemetry ->
   currentPhase s' = POST_RACE /\
   mySessionIncidents s' = mySessionIncidents s /\
   lastKnownIncidents s' = lastKnownIncidents s /\
   driversInDangerZone s' = driversInDangerZone s /\
   (currentPhase s <> POST_RACE -> out = [CheckeredFlag (mySessionIncidents s)])) /\
  (monitoring s' <-> monitoring s).
Proof.
  cbv zeta. destruct (monitoring_dec s) as [Hmon | Hidle].
  - destruct (not_checkered_dec telemetry) as [Hgreen | Hflag].
    + pose proof (handleTelemetry_step s telemetry Hmon Hgreen) as Hstep.
      cbv zeta in Hstep. destruct Hstep as (S1 & S2 & _ & _ & _ & S6 & _).
      rewrite S2, S6.
      split; [exact S1 |]. split; [lia |].
      split; [intros H; split; [exact H | reflexivity] |].
      split; [discriminate |].
      split; [intros _ Hc; contradiction |].
      split; intros _; [exact Hmon | exact (monitoring_kept _ _ S1 Hmon)].
    + rewrite (handleTelemetry_checkered s telemetry Hmon Hflag).
      destruct (set_currentPhase_fields POST_RACE s) as (F1 & F2 & F3 & F4 & F5).
      destruct (currentPhase s) eqn:Ephase; cbn [fst snd];
        (split; [first [exact F1 | apply same_session_refl] |]);
        rewrite ?F2, ?F3, ?F4, ?F5, ?Ephase; cbn;
        (split; [lia |]);
        (split; [intros H; first [discriminate H | split; reflexivity] |]);
        (split; [intros H; first [discriminate H | reflexivity] |]);
        (split; [intros _ _; repeat (split; [reflexivity |]);
                 intros H; first [reflexivity | contradiction] |]);
        split; intros _; first [exact Hmon | exact (monitoring_kept _ _ F1 Hmon)].
  - rewrite (handleTelemetry_idle s telemetry Hidle). cbn.
    split; [apply same_session_refl |]. split; [lia |].
    split; [intros H; split; [exact H | reflexivity] |].
    split; [discriminate |].
    split; [intros H; contradiction | tauto].
Qed.

(** X13. A run of telemetry updates never touches the session's drivers,
    car slot, session type or names; it prints the race summary at most
    once, and not at all after the race is over; and once an update under
    the checkered flag has been handled with the monitor active, the phase
    is POST_RACE and stays so. *)
Theorem telemetry_run_summary_once (s : State) (updates : list Telemetry) :
  let r := telemetry_run config execThrows s updates in
  same_session s (fst r) /\
  (count_events is_summary (snd r) <= 1)%nat /\
  (currentPhase s = POST_RACE ->
   currentPhase (fst r) = POST_RACE /\ count_events is_summary (snd r) = 0%nat) /\
  (count_events is_summary (snd r) = 1%nat -> currentPhase (fst r) = POST_RACE) /\
  (monitoring s -> Exists (fun telemetry => ~ not_checkered telemetry) updates ->
   currentPhase (fst r) = POST_RACE).
Proof.
  cbv zeta. revert s. induction updates as [| t updates IH]; intros s.
  - cbn. split; [apply same_session_refl |].
    repeat split; try tauto; try lia; try discriminate.
    intros _ H. inversion H.
  - cbn [telemetry_run].
    pose proof (handleTelemetry_phase s t) as Hstep. cbv zeta in Hstep.
    destruct (handleTelemetry config execThrows s t) as [s1 out1].
    specialize (IH s1).
    destruct (telemetry_run config execThrows s1 updates) as [s2 out2].
    cbn [fst snd] in *.
    destruct Hstep as (S1 & S2 & S3 & S4 & S5 & S6).
    destruct IH as (I1 & I2 & I3 & I4 & I5).
    rewrite count_events_app.
    split; [exact (same_session_trans _ _ _ S1 I1) |].
    assert (Hone : count_events is_summary out1 = 1%nat ->
                   count_events is_summary out2 = 0%nat).
    { intros H. apply S4 in H. apply I3 in H. tauto. }
    split; [lia |].
    split; [intros H; apply S3 in H; destruct H as [H1 H2];
            apply I3 in H1; split; [tauto | lia] |].
    split.
    + intros H.
      destruct (Nat.eq_dec (count_events is_summary out1) 1%nat) as [E | E].
      * apply S4 in E. apply I3 in E. tauto.
      * apply I4. lia.
    + intros Hmon Hex. inversion Hex as [? ? Hflag | ? ? Hlater]; subst.
      * destruct (S5 Hmon Hflag) as (H & _). apply I3 in H. tauto.
      * apply I5; [apply S6; exact Hmon | exact Hlater].
Qed.

End Telemetry.

Lemma incident_tracking_witness :
  let s := Racesafe.set_incidents 3 (-1) racing_state in
  let r := telemetry_run all_on never_throws s
             [telemetry_at 0.52 2; telemetry_at 0.52 2; telemetry_at 0.52 6;
              telemetry_at 0.52 5; telemetry_at 0.52 7] in
  Racesafe.lastKnownIncidents (fst r) = 7 /\
  Racesafe.mySessionIncidents (fst r) = 5 /\
  flash_total (snd r) = 5 /\
  count_events (is_exec Racesafe.Asterisk) (snd r) = 2%nat.
Proof.
  assert (Hmon : monitoring (Racesafe.set_incidents 3 (-1) racing_state)).
  { split; discriminate. }
  assert (Hflags : Forall not_checkered [telemetry_at 0.52 2; telemetry_at 0.52 2; telemetry_at 0.52 6;
              telemetry_at 0.52 5; telemetry_at 0.52 7]).
  { repeat constructor. }
  assert (Hcounts : Forall (fun telemetry => 0 <= incident_count telemetry)
                      [telemetry_at 0.52 2; telemetry_at 0.52 2; telemetry_at 0.52 6;
              telemetry_at 0.52 5; telemetry_at 0.52 7]).
  { repeat constructor; discriminate. }
  destruct (incident_tracking all_on never_throws _ _ _ Hmon eq_refl Hflags Hcounts)
    as (H1 & H2 & H3 & H4).
  cbv zeta.
  split; [rewrite H1; reflexivity |].
  split; [rewrite H2; reflexivity |].
  split; [rewrite H3; reflexivity |].
  rewrite H4. reflexivity.
Defined.

(** ** The status line *)

Section SortingOn.
Import JS.
Context {A : Type} (after : A -> A -> bool) (R : A -> A -> Prop) (P : A -> Prop).
Hypothesis after_true : forall x y, P x -> P y -> after x y = true -> R y x.
Hypothesis after_false : forall x y, P x -> P y -> after x y = false -> R x y.
Hypothesis R_trans : forall x y z, P x -> P y -> P z -> R x y -> R y z -> R x z.

Lemma sort_insert_sorted_on x l :
  P x -> Forall P l -> StronglySorted R l -> StronglySorted R (sort_insert after x l).
Proof.
  intros Hx Hl Hs. induction Hs as [| y l Hs IH Hy]; cbn; [repeat constructor |].
  inversion Hl as [| ? ? Py Pl]; subst.
  destruct (after x y) eqn:E.
  - constructor; [now apply IH |].
    eapply Permutation_Forall; [symmetry; apply sort_insert_perm |].
    constructor; [now apply after_true | assumption].
  - constructor; [now constructor |].
    constructor; [now apply after_false |].
    apply after_false in E; [| assumption ..].
    rewrite List.Forall_forall in Hy, Pl. apply List.Forall_forall. intros z Hz.
    apply (R_trans x y z); auto.
Qed.

Lemma Array_sort_sorted_on l : Forall P l -> StronglySorted R (Array_sort after l).
Proof.
  induction 1 as [| x l Hx Hl IH]; cbn; [constructor |].
  fold (Array_sort after l). apply sort_insert_sorted_on; [assumption | | assumption].
  eapply Permutation_Forall; [symmetry; apply Array_sort_perm | assumption].
Qed.

Lemma find_sorted_least (p : A -> bool) l n :
  StronglySorted R l -> Array_find p l = Some n ->
  In n l /\ p n = true /\ forall n', In n' l -> p n' = true -> n' = n \/ R n n'.
Proof.
  unfold Array_find. induction 1 as [| x l Hs IH Hx]; cbn; [discriminate |].
  destruct (p x) eqn:Ex.
  - intros [= <-]. repeat split; [now left | assumption |].
    intros n' [-> | Hin] _; [now left | right].
    rewrite List.Forall_forall in Hx. now apply Hx.
  - intros Hfind. destruct (IH Hfind) as (Hin & Hp & Hleast).
    repeat split; [now right | assumption |].
    intros n' [<- | Hin'] Hn'; [congruence | now apply Hleast].
Qed.

End SortingOn.

Section StatusLine.
Import JS Racesafe.
Variable config : AlertConfig.
Variable execThrows : Sound -> bool.
Local Open Scope Q_scope.

Lemma playAlert_no_status s type e :
  In e (playAlert config execThrows s type) -> is_status e = false.
Proof.
  unfold playAlert. generalize (sessionConfigOf config (currentSessionType s)).
  intros [d i]. cbn [danger incident negb].
  destruct type, d, i; cbn; try tauto;
    destruct (execThrows _), (isServiceMode s); cbn;
    intuition (subst; reflexivity).
Qed.

Lemma danger_loop_status s threats acc e :
  is_status e = true ->
  In e (snd (fold_left (danger_step config execThrows s) threats acc)) ->
  In e (snd acc).
Proof.
  intros He. revert acc. induction threats as [| t threats IH]; intros [zone out];
    [tauto |].
  cbn [fold_left]. unfold danger_step at 2.
  destruct (num_ltb (gap t) DANGER_ZONE_THRESHOLD); [| apply IH].
  destruct (bool_decide _); [exact (IH (zone ∪ {[carIdx (driver t)]}, out)) |].
  intros Hin. apply IH in Hin. cbn [snd] in *.
  apply in_app_or in Hin as [Hin | Hin]; [exact Hin |].
  apply in_app_or in Hin as [Hin | [<- | []]].
  - apply playAlert_no_status in Hin. congruence.
  - discriminate He.
Qed.

Lemma displayRaceStatus_line s position lap nearby totalCars incidents
  lap' position' total' incidents' ahead behind :
  In (StatusLine lap' position' total' incidents' ahead behind)
     (snd (displayRaceStatus config execThrows s position lap nearby totalCars incidents)) ->
  ahead = Array_find (fun n => match direction n with AHEAD => true | _ => false end) nearby /\
  behind = Array_find (fun n => match direction n with BEHIND => true | _ => false end) nearby.
Proof.
  unfold displayRaceStatus.
  match goal with
  | |- context [fold_left ?f ?l ?a] =>
      pose proof (danger_loop_status s l a
                    (StatusLine lap' position' total' incidents' ahead behind) eq_refl) as Hq;
      destruct (fold_left f l a) as [zone out]
  end.
  cbn [fst snd] in *. intros Hin. destruct (Hq Hin) as [E | []].
  injection E as <- <- <- <- <- <-. split; reflexivity.
Qed.

Lemma nearby_entry_same s s1 telemetry m entry :
  same_session s s1 -> nearby_entry s1 telemetry m entry = nearby_entry s telemetry m entry.
Proof.
  intros H. unfold nearby_entry. destruct entry as [idx a].
  assert (E1 : myCarIdx s1 = myCarIdx s) by apply H.
  assert (E2 : driverSessionIncidents s1 = driverSessionIncidents s) by apply H.
  rewrite E1, E2. reflexivity.
Qed.

Lemma nearby_entry_gap_known s telemetry m idx a n :
  at_index (CarIdxLapDistPct telemetry) idx <> None ->
  nearby_entry s telemetry m (idx, a) = Some n -> gap n <> None.
Proof.
  intros Hpos. unfold nearby_entry.
  destruct (at_index (CarIdxLapDistPct telemetry) idx) as [d |]; [| contradiction].
  cbn [option_map num_gtb num_ltb].
  destruct (idx =? myCarIdx s)%Z; [discriminate |].
  destruct (match at_index (CarIdxLap telemetry) idx with
            | Some lap => (lap <? 0)%Z | None => false end); [discriminate |].
  destruct (default false (at_index (CarIdxOnPitRoad telemetry) idx)); [discriminate |].
  destruct (Qgtb (d - m) 0.5); cbn [option_map num_gtb num_ltb];
    match goal with |- context [Qltb ?x (-0.5)] => destruct (Qltb x (-0.5)) end;
    cbn [option_map num_gtb num_ltb];
    match goal with |- context [Qgtb ?x 5] => destruct (Qgtb x 5) end;
    try discriminate; intros [= <-]; discriminate.
Qed.

Lemma gap_after_order (x y : NearbyDriver) :
  gap x <> None -> gap y <> None ->
  (gap_after x y = true -> gap_le y x) /\ (gap_after x y = false -> gap_le x y).
Proof.
  unfold gap_after, gap_le. destruct (gap x) as [a |], (gap y) as [b |]; try contradiction.
  intros _ _. destruct (Qgtb_spec (a - b) 0); split; intros; try discriminate; lra.
Qed.

Lemma gap_le_trans (x y z : NearbyDriver) : gap_le x y -> gap_le y z -> gap_le x z.
Proof.
  unfold gap_le. destruct (gap x), (gap y), (gap z); try tauto. intros; lra.
Qed.

Lemma gap_le_refl (x : NearbyDriver) : gap x <> None -> gap_le x x.
Proof.
  unfold gap_le. destruct (gap x); [intros _; lra | contradiction].
Qed.

Lemma handleTelemetry_anatomy s telemetry :
  monitoring s -> not_checkered telemetry ->
  exists s1 out1,
    same_session s s1 /\
    (forall e, In e out1 -> is_status e = false) /\
    handleTelemetry config execThrows s telemetry =
      (if (default 0%Z (at_index (CarIdxLap telemetry) (myCarIdx s1)) <? 0)%Z
       then (s1, out1)
       else
         let '(s0, out') :=
           displayRaceStatus config execThrows s1
             (default 0%Z (at_index (CarIdxClassPosition telemetry) (myCarIdx s1)))
             (default 0%Z (at_index (CarIdxLap telemetry) (myCarIdx s1)))
             (Array_sort gap_after
                (omap (nearby_entry s1 telemetry
                         (default 0 (at_index (CarIdxLapDistPct telemetry) (myCarIdx s1))))
                   (analyzedDrivers s1)))
             (Z.of_nat (length (analyzedDrivers s1))) (mySessionIncidents s1) in
         (s0, out1 ++ out')).
Proof.
  intros [Hme Hdrivers] Hflag. unfold handleTelemetry.
  destruct (Z.eqb_spec (myCarIdx s) (-1)) as [E | _]; [contradiction |].
  destruct (analyzedDrivers s) as [| d ds] eqn:Ed; [contradiction |].
  cbn [length Nat.eqb orb]. unfold not_checkered in Hflag. rewrite Hflag.
  cbn [Z.eqb negb].
  destruct (lastKnownIncidents s =? -1)%Z.
  - eexists _, _. split; [| split; [| reflexivity]].
    + apply set_incidents_fields.
    + intros e [].
  - destruct (default 0%Z (PlayerCarMyIncidentCount telemetry) >? lastKnownIncidents s)%Z.
    + eexists _, _. split; [| split; [| reflexivity]].
      * apply set_incidents_fields.
      * intros e Hin. apply in_app_or in Hin as [Hin | [<- | []]]; [| reflexivity].
        eapply playAlert_no_status, Hin.
    + eexists _, _. split; [| split; [| reflexivity]].
      * apply same_session_refl.
      * intros e [].
Qed.

Lemma find_nearest s telemetry nearby dir (p : NearbyDriver -> bool) :
  (forall n, p n = true <-> direction n = dir) ->
  (forall n, In n nearby <-> listed s telemetry n) ->
  Forall (fun n => gap n <> None) nearby ->
  nearest s telemetry dir (Array_find p (Array_sort gap_after nearby)).
Proof.
  intros Hp Hlisted Hgaps. unfold nearest.
  assert (Hsorted : StronglySorted gap_le (Array_sort gap_after nearby)).
  { apply (Array_sort_sorted_on gap_after gap_le (fun n => gap n <> None)).
    - intros x y Hx Hy. apply (gap_after_order x y Hx Hy).
    - intros x y Hx Hy. apply (gap_after_order x y Hx Hy).
    - intros x y z _ _ _. apply gap_le_trans.
    - exact Hgaps. }
  assert (Hperm : forall n, In n (Array_sort gap_after nearby) <-> In n nearby).
  { intros n. split; apply Permutation_in;
      [apply Array_sort_perm | symmetry; apply Array_sort_perm]. }
  destruct (Array_find p (Array_sort gap_after nearby)) as [n |] eqn:Efind.
  - destruct (find_sorted_least gap_le p _ n Hsorted Efind) as (Hin & Hpn & Hleast).
    split; [apply Hlisted, Hperm, Hin |]. split; [apply Hp, Hpn |].
    intros n' Hn' Hdir. apply Hlisted in Hn' as Hin'.
    destruct (Hleast n') as [-> | Hle]; [apply Hperm, Hin' | apply Hp, Hdir | | exact Hle].
    apply gap_le_refl. rewrite List.Forall_forall in Hgaps. apply Hgaps, Hperm, Hin.
  - intros n' Hn' Hdir. apply Hlisted, Hperm in Hn'.
    pose proof (List.find_none _ _ Efind n' Hn') as Hnone.
    apply Hp in Hdir. congruence.
Qed.

(** X14. On an update handled during the race with a track position for
    every analysed car, the car shown ahead on the status line is a listed
    car that is ahead and no listed car ahead has a smaller gap, and none
    is shown only when no listed car is ahead; the same holds behind. *)
Theorem status_line_shows_nearest (s : State) (telemetry : Telemetry)
  (Hmon : monitoring s) (Hflag : not_checkered telemetry)
  (Hpos : positions_known s telemetry)
  (lap position total incidents : Z) (ahead behind : option NearbyDriver)
  (Hline : In (StatusLine lap position total incidents ahead behind)
              (snd (handleTelemetry config execThrows s telemetry))) :
  nearest s telemetry AHEAD ahead /\ nearest s telemetry BEHIND behind.
Proof.
  destruct (handleTelemetry_anatomy s telemetry Hmon Hflag) as (s1 & out1 & Hs1 & Hout1 & E).
  rewrite E in Hline. clear E.
  assert (Eme : myCarIdx s1 = myCarIdx s) by apply Hs1.
  assert (Edrivers : analyzedDrivers s1 = analyzedDrivers s) by apply Hs1.
  rewrite Eme, Edrivers in Hline.
  destruct (default 0%Z (at_index (CarIdxLap telemetry) (myCarIdx s)) <? 0)%Z.
  { cbn [snd] in Hline. apply Hout1 in Hline. discriminate Hline. }
  set (m := default 0 (at_index (CarIdxLapDistPct telemetry) (myCarIdx s))) in Hline.
  set (nearby := omap (nearby_entry s1 telemetry m) (analyzedDrivers s)) in Hline.
  assert (Hlisted : forall n, In n nearby <-> listed s telemetry n).
  { intros n. unfold nearby, listed. fold m.
    rewrite <- list_elem_of_In, list_elem_of_omap.
    split; intros (entry & Hin & Hn); exists entry.
    - rewrite <- list_elem_of_In. rewrite (nearby_entry_same s s1) in Hn by exact Hs1. tauto.
    - rewrite list_elem_of_In. rewrite (nearby_entry_same s s1) by exact Hs1. tauto. }
  assert (Hgaps : Forall (fun n => gap n <> None) nearby).
  { apply List.Forall_forall. intros n Hn. apply Hlisted in Hn.
    destruct Hn as ([idx a] & Hin & Hn).
    eapply nearby_entry_gap_known; [exact (Hpos idx a Hin) | exact Hn]. }
  match type of Hline with
  | In _ (snd (let '(_, _) := displayRaceStatus _ _ _ ?p ?l _ ?t ?i in _)) =>
      pose proof (displayRaceStatus_line s1 p l (Array_sort gap_after nearby) t i
                    lap position total incidents ahead behind) as Hshown;
      destruct (displayRaceStatus config execThrows s1 p l (Array_sort gap_after nearby) t i)
        as [s2 out2]
  end.
  cbn [snd] in *. apply in_app_or in Hline as [Hline | Hline].
  { apply Hout1 in Hline. discriminate Hline. }
  destruct (Hshown Hline) as [-> ->].
  split; apply find_nearest; try assumption.
  - intros n. destruct (direction n); split; intros H; first [reflexivity | discriminate H].
  - intros n. destruct (direction n); split; intros H; first [reflexivity | discriminate H].
Qed.

End StatusLine.

Lemma status_line_shows_nearest_witness :
  exists shown g,
    Racesafe.gap shown = Some g /\ (g == 1.8)%Q /\
    nearest racing_state (telemetry_at 0.52 0) Racesafe.AHEAD (Some shown) /\
    nearest racing_state (telemetry_at 0.52 0) Racesafe.BEHIND None.
Proof.
  assert (Hmon : monitoring racing_state) by (split; discriminate).
  assert (Hpos : positions_known racing_state (telemetry_at 0.52 0)).
  { intros idx a [[= <- <-] | []]. discriminate. }
  eexists _, _. split; [| split]; cycle 2.
  - refine (status_line_shows_nearest all_on never_throws racing_state
              (telemetry_at 0.52 0) Hmon eq_refl Hpos 3 2 1 0 _ _ _).
    left. reflexivity.
  - reflexivity.
  - reflexivity.
Defined.

(** ** Pre-race analysis *)

Section PreRaceAnalysis.
Import JS Racesafe.
Variable myCustId : Z.
Variable now : SessionDriver -> Z.
Variable parseInt : string -> option Z.

Lemma slice_batch {A} (l : list A) (i b : Z) :
  0 <= i -> 0 < b ->
  slice l i (i + b) = firstn (Z.to_nat b) (skipn (Z.to_nat i) l).
Proof.
  intros Hi Hb. unfold slice.
  destruct (Z.ltb_spec i 0) as [? | _]; [lia |].
  destruct (Z.ltb_spec (i + b) 0) as [? | _]; [lia |].
  set (len := Z.of_nat (length l)).
  destruct (Z_lt_dec i len) as [Hlt | Hge].
  - rewrite (Z.min_l i len) by lia.
    destruct (Z_le_dec (i + b) len) as [Hle | Hgt].
    + rewrite Z.min_l by lia. f_equal. lia.
    + rewrite Z.min_r by lia.
      rewrite !firstn_all2; [reflexivity | |]; rewrite length_skipn; lia.
  - rewrite (Z.min_r i len) by lia. rewrite (Z.min_r (i + b) len) by lia.
    rewrite skipn_all2 by (unfold len in *; lia).
    rewrite skipn_all2 by lia. now rewrite !firstn_nil.
Qed.

Lemma batch_loop_results s drivers batchSize i results out :
  0 <= i ->
  fst (batch_loop myCustId now s drivers batchSize i results out) =
  results ++ map (fun driver => analyzeSingleDriver now s driver (sd_custId driver =? myCustId))
               (skipn (Z.to_nat i) drivers).
Proof.
  funelim (batch_loop myCustId now s drivers batchSize i results out); intros Hi.
  - cbv zeta in H. rewrite H by lia. rewrite <- app_assoc. f_equal.
    rewrite slice_batch by lia. rewrite <- map_app. f_equal.
    rewrite Z2Nat.inj_add by lia. rewrite Nat.add_comm, <- skipn_skipn.
    apply firstn_skipn.
  - cbn [fst]. rewrite skipn_all2 by lia. cbn. now rewrite app_nil_r.
Qed.

Lemma batches_of_app a b : batches_of (a ++ b) = batches_of a ++ batches_of b.
Proof.
  unfold batches_of. apply omap_app.
Qed.

Lemma batch_loop_batches s drivers batchSize i results out :
  0 <= i ->
  let out' := snd (batch_loop myCustId now s drivers batchSize i results out) in
  concat (batches_of out') =
    concat (batches_of out) ++ map sd_carNumber (skipn (Z.to_nat i) drivers) /\
  (Forall (fun batch => (0 < length batch <= Pos.to_nat batchSize)%nat) (batches_of out) ->
   Forall (fun batch => (0 < length batch <= Pos.to_nat batchSize)%nat) (batches_of out')).
Proof.
  funelim (batch_loop myCustId now s drivers batchSize i results out); intros Hi; cbv zeta.
  - cbv zeta in H. destruct (H ltac:(lia)) as [Hcat Hsize]. clear H.
    rewrite slice_batch in Hcat, Hsize by lia. rewrite slice_batch by lia.
    set (batch := firstn (Z.to_nat (Z.pos batchSize)) (skipn (Z.to_nat i) drivers)) in *.
    assert (Hb : batches_of
                   (out ++ [BatchStart (i / Z.pos batchSize + 1)
                              ((Z.of_nat (length drivers) + Z.pos batchSize - 1) / Z.pos batchSize)
                              (map sd_carNumber batch);
                            BatchSummary
                              (batch_summary
                                 (map (fun driver => analyzeSingleDriver now s driver
                                                       (sd_custId driver =? myCustId)) batch))]
                        ++ (if i + Z.pos batchSize <? Z.of_nat (length drivers)
                            then [BatchPause 100] else []))
                 = batches_of out ++ [map sd_carNumber batch]).
    { rewrite !batches_of_app. f_equal.
      destruct (i + Z.pos batchSize <? Z.of_nat (length drivers)); reflexivity. }
    rewrite Hb in Hcat, Hsize. split.
    + rewrite Hcat. rewrite concat_app. cbn [concat]. rewrite app_nil_r, <- app_assoc.
      f_equal. rewrite <- map_app. f_equal.
      rewrite Z2Nat.inj_add by lia. rewrite Nat.add_comm, <- skipn_skipn.
      apply firstn_skipn.
    + intros Hout. apply Hsize. apply Forall_app. split; [exact Hout |].
      constructor; [| constructor].
      rewrite length_map. unfold batch. rewrite length_firstn, length_skipn. lia.
  - cbn [snd]. rewrite skipn_all2 by lia. cbn. rewrite app_nil_r. tauto.
Qed.

(** X15. Whatever the batch size, processDriversInParallel returns one
    analysis for every driver, in the order of the drivers, each made by
    analyzeSingleDriver with the own-car flag set exactly for the user's
    customer id; the batches it announces are non-empty, at most the batch
    size long, and together list every car number once, in order. *)
Theorem processDriversInParallel_every_driver (s : State) (drivers : list SessionDriver)
  (batchSize : positive) :
  let r := processDriversInParallel myCustId now s drivers batchSize in
  fst r = map (fun driver => analyzeSingleDriver now s driver (sd_custId driver =? myCustId))
            drivers /\
  concat (batches_of (snd r)) = map sd_carNumber drivers /\
  Forall (fun batch => (0 < length batch <= Pos.to_nat batchSize)%nat) (batches_of (snd r)).
Proof.
  cbv zeta. unfold processDriversInParallel.
  pose proof (batch_loop_results s drivers batchSize 0 [] [] ltac:(lia)) as Hres.
  pose proof (batch_loop_batches s drivers batchSize 0 [] [] ltac:(lia)) as Hbat.
  cbv zeta in Hbat. destruct Hbat as [Hcat Hsize].
  split; [exact Hres |]. split; [exact Hcat |]. apply Hsize. constructor.
Qed.

Lemma analyzeDriver_level client instant custId numRaces p :
  RiskAnalysis.analyzeDriver client instant custId numRaces = inr p ->
  RiskAnalysis.riskLevel p = RiskAnalysis.classifyRisk (RiskAnalysis.riskScore p).
Proof.
  unfold RiskAnalysis.analyzeDriver.
  destruct (RiskAnalysis.lookupRaces client instant custId) as [e | races]; [discriminate |].
  destruct (slice0 races numRaces); [discriminate |].
  cbv zeta. intros [= <-]. reflexivity.
Qed.

Lemma classifyRisk_high score :
  RiskAnalysis.classifyRisk score = RiskAnalysis.HIGH -> (7 <= score)%Q.
Proof.
  unfold RiskAnalysis.classifyRisk.
  destruct (Qltb_spec score 4); [discriminate |].
  destruct (Qltb_spec score 7); [discriminate |]. intros _. lra.
Qed.

(** X16. An analysis made by analyzeSingleDriver is for the driver's own
    car slot, number, customer id and name; its level is one of HIGH,
    MODERATE, LOW, YOU and UNKNOWN; the own car never gets a risk level;
    without authentication every driver, the own car included, is UNKNOWN
    with score -1; and a driver is HIGH only when the client is
    authenticated, the driver is not the user, and analyzeDriver returned a
    HIGH profile, whose score is then at least 7. *)
Theorem analyzeSingleDriver_levels (s : State) (driver : SessionDriver) (me : bool) :
  let a := analyzeSingleDriver now s driver me in
  (carIdx a = sd_carIdx driver /\ carNumber a = sd_carNumber driver /\
   custId a = sd_custId driver /\ name a = sd_name driver /\ isMe a = me) /\
  In (riskLevel a) ["HIGH"; "MODERATE"; "LOW"; "YOU"; "UNKNOWN"]%string /\
  (me = true -> In (riskLevel a) ["YOU"; "UNKNOWN"]%string) /\
  (authenticated s = false \/ client s = None ->
   riskLevel a = "UNKNOWN"%string /\ riskScore a = (-1)%Q /\ totalRaces a = 0) /\
  (riskLevel a = "HIGH"%string <->
   me = false /\ authenticated s = true /\
   exists c p, client s = Some c /\
     RiskAnalysis.analyzeDriver c (now driver) (sd_custId driver) 10 = inr p /\
     RiskAnalysis.riskLevel p = RiskAnalysis.HIGH) /\
  (riskLevel a = "HIGH"%string -> (7 <= riskScore a)%Q).
Proof.
  cbv zeta. unfold analyzeSingleDriver.
  destruct (authenticated s) eqn:Eauth.
  - destruct (client s) as [c |] eqn:Eclient.
    + destruct (RiskAnalysis.analyzeDriver c (now driver) (sd_custId driver) 10)
        as [e | p] eqn:Ep.
      * cbn. destruct me; cbn.
        -- split; [tauto |]. split; [tauto |]. split; [tauto |].
           split; [intros [H | H]; discriminate H |].
           split; [| discriminate].
           split; [discriminate | intros (H & _); discriminate H].
        -- split; [tauto |]. split; [tauto |]. split; [discriminate |].
           split; [intros [H | H]; discriminate H |].
           split; [| discriminate].
           split; [discriminate |].
           intros (_ & _ & c' & p' & [= <-] & H & _). rewrite Ep in H. discriminate H.
      * pose proof (analyzeDriver_level _ _ _ _ _ Ep) as Hlevel.
        cbn. destruct me; cbn.
        -- split; [tauto |]. split; [tauto |]. split; [tauto |].
           split; [intros [H | H]; discriminate H |].
           split; [| discriminate].
           split; [discriminate | intros (H & _); discriminate H].
        -- split; [tauto |].
           split; [destruct (RiskAnalysis.riskLevel p); cbn; tauto |].
           split; [discriminate |].
           split; [intros [H | H]; discriminate H |].
           split.
           ++ split.
              ** intros H. split; [reflexivity |]. split; [reflexivity |].
                 exists c, p. split; [reflexivity |]. split; [exact Ep |].
                 destruct (RiskAnalysis.riskLevel p); first [reflexivity | discriminate H].
              ** intros (_ & _ & c' & p' & [= <-] & H & Hhigh).
                 rewrite Ep in H. injection H as <-. rewrite Hhigh. reflexivity.
           ++ intros H. apply classifyRisk_high. rewrite <- Hlevel.
              destruct (RiskAnalysis.riskLevel p); first [reflexivity | discriminate H].
    + cbn. split; [tauto |]. split; [tauto |]. split; [tauto |].
      split; [tauto |]. split; [| discriminate].
      split; [discriminate |]. intros (_ & _ & c & p & H & _). discriminate H.
  - cbn. split; [tauto |]. split; [tauto |]. split; [tauto |].
    split; [tauto |]. split; [| discriminate].
    split; [discriminate |]. intros (_ & H & _). discriminate H.
Qed.

Lemma session_data_only_refl s : session_data_only s s.
Proof.
  unfold session_data_only. tauto.
Qed.

Lemma session_data_only_trans s1 s2 s3 :
  session_data_only s1 s2 -> session_data_only s2 s3 -> session_data_only s1 s3.
Proof.
  unfold session_data_only. intuition congruence.
Qed.

Lemma add_driver_data s d : session_data_only s (add_driver myCustId s d).
Proof.
  unfold add_driver. destruct (d_UserName d) as [[| c u] |];
    try apply session_data_only_refl.
  destruct (String.eqb _ _); [apply session_data_only_refl |].
  destruct (d_UserID d =? myCustId); destruct s; unfold session_data_only; cbn; tauto.
Qed.

Lemma fold_data {A} (f : State -> A -> State) (l : list A) s :
  (forall s a, session_data_only s (f s a)) ->
  session_data_only s (fold_left f l s).
Proof.
  intros Hf. revert s. induction l as [| a l IH]; intros s; cbn;
    [apply session_data_only_refl |].
  eapply session_data_only_trans; [apply Hf | apply IH].
Qed.

(** The state in which [handleSessionInfo] decides whether to start the
    analysis. *)
Lemma handleSessionInfo_anatomy s info :
  exists s1,
    session_data_only s s1 /\
    (sessionDrivers s1 = sessionDrivers s /\ myCarIdx s1 = myCarIdx s /\
     driverSessionIncidents s1 = driverSessionIncidents s /\
     currentSessionType s1 =
       match si_Sessions info with
       | Some sessions =>
           fold_left (fun t session => default t (session_type_of session)) sessions
             (currentSessionType s)
       | None => currentSessionType s
       end) /\
    handleSessionInfo myCustId now parseInt s info =
      match si_Drivers info with
      | None => (s1, [])
      | Some drivers =>
          let s2 := fold_left (add_driver myCustId) drivers s1 in
          let s3 :=
            match si_Sessions info with
            | Some sessionsList =>
                set_driverSessionIncidents
                  (fold_left add_results sessionsList (driverSessionIncidents s2)) s2
            | None => s2
            end in
          if (0 <? length (sessionDrivers s3))%nat && negb (preRaceAnalysisComplete s3)
             && (match currentPhase s3 with PRE_RACE => true | _ => false end)
             && authenticated s3
          then runPreRaceAnalysis myCustId now parseInt s3
          else (s3, [])
      end /\
    (forall drivers, si_Drivers info = Some drivers ->
       session_data_only s
         (match si_Sessions info with
          | Some sessionsList =>
              set_driverSessionIncidents
                (fold_left add_results sessionsList
                   (driverSessionIncidents (fold_left (add_driver myCustId) drivers s1)))
                (fold_left (add_driver myCustId) drivers s1)
          | None => fold_left (add_driver myCustId) drivers s1
          end)).
Proof.
  unfold handleSessionInfo.
  match goal with
  | |- context [match si_Drivers info with None => (?x, []) | Some _ => _ end] =>
      exists x
  end.
  assert (H1 : forall s0, session_data_only s0
            match si_WeekendInfo info with
            | Some weekendInfo =>
                set_track
                  (str_or (default "" (TrackDisplayName weekendInfo))
                     (str_or (default "" (TrackName weekendInfo)) ""))
                  match SeriesID weekendInfo with
                  | Some 0 | None => ""
                  | Some id => "Series " +:+ show id
                  end s0
            | None => s0
            end).
  { intros s0. destruct (si_WeekendInfo info); [| apply session_data_only_refl].
    destruct s0; unfold session_data_only; cbn; tauto. }
  assert (H2 : forall s0, session_data_only s0
            match si_Sessions info with
            | Some sessions =>
                fold_left
                  (fun s session =>
                     match session_type_of session with
                     | Some t => set_currentSessionType t s
                     | None => s
                     end) sessions s0
            | None => s0
            end).
  { intros s0. destruct (si_Sessions info); [| apply session_data_only_refl].
    apply fold_data. intros s' a. destruct (session_type_of a);
      [| apply session_data_only_refl].
    destruct s'; unfold session_data_only; cbn; tauto. }
  assert (H12 := session_data_only_trans _ _ _ (H1 s) (H2 _)).
  split; [exact H12 |]. split; [| split; [reflexivity |]].
  { assert (F1 : forall s0,
              let s1 := match si_WeekendInfo info with
                        | Some weekendInfo =>
                            set_track
                              (str_or (default "" (TrackDisplayName weekendInfo))
                                 (str_or (default "" (TrackName weekendInfo)) ""))
                              match SeriesID weekendInfo with
                              | Some 0 | None => ""
                              | Some id => "Series " +:+ show id
                              end s0
                        | None => s0
                        end in
              sessionDrivers s1 = sessionDrivers s0 /\ myCarIdx s1 = myCarIdx s0 /\
              driverSessionIncidents s1 = driverSessionIncidents s0 /\
              currentSessionType s1 = currentSessionType s0).
    { intros s0. cbv zeta. destruct (si_WeekendInfo info); [| tauto].
      destruct s0; cbn; tauto. }
    assert (F2 : forall sessions s0,
              let s1 := fold_left
                          (fun s session =>
                             match session_type_of session with
                             | Some t => set_currentSessionType t s
                             | None => s
                             end) sessions s0 in
              sessionDrivers s1 = sessionDrivers s0 /\ myCarIdx s1 = myCarIdx s0 /\
              driverSessionIncidents s1 = driverSessionIncidents s0 /\
              currentSessionType s1 =
                fold_left (fun t session => default t (session_type_of session)) sessions
                  (currentSessionType s0)).
    { induction sessions as [| x sessions IH]; intros s0; cbv zeta; cbn [fold_left];
        [tauto |].
      specialize (IH match session_type_of x with
                     | Some t => set_currentSessionType t s0
                     | None => s0
                     end). cbv zeta in IH.
      destruct IH as (I1 & I2 & I3 & I4). rewrite I1, I2, I3, I4.
      destruct (session_type_of x); [| tauto]. destruct s0; cbn; tauto. }
    specialize (F1 s). cbv zeta in F1. destruct F1 as (A1 & A2 & A3 & A4).
    destruct (si_Sessions info) as [sessions |]; [| tauto].
    specialize (F2 sessions
                  match si_WeekendInfo info with
                  | Some weekendInfo =>
                      set_track
                        (str_or (default "" (TrackDisplayName weekendInfo))
                           (str_or (default "" (TrackName weekendInfo)) ""))
                        match SeriesID weekendInfo with
                        | Some 0 | None => ""
                        | Some id => "Series " +:+ show id
                        end s
                  | None => s
                  end).
    cbv zeta in F2. destruct F2 as (B1 & B2 & B3 & B4).
    rewrite B1, B2, B3, B4, A1, A2, A3, A4. tauto. }
  intros drivers _.
  eapply session_data_only_trans; [exact H12 |].
  eapply session_data_only_trans;
    [exact (fold_data (add_driver myCustId) drivers _ add_driver_data) |].
  destruct (si_Sessions info); [| apply session_data_only_refl].
  match goal with |- session_data_only ?x _ => destruct x end.
  unfold session_data_only; cbn; tauto.
Qed.

Lemma Map_get_set {V} (k k' : Z) (v : V) m :
  Map_get k (Map_set k' v m) = if k =? k' then Some v else Map_get k m.
Proof.
  induction m as [| [k0 v0] m IH]; cbn.
  - rewrite (Z.eqb_sym k' k). reflexivity.
  - destruct (Z.eqb_spec k0 k') as [-> | Hne]; cbn.
    + rewrite (Z.eqb_sym k' k). destruct (k =? k'); reflexivity.
    + destruct (Z.eqb_spec k0 k) as [-> | Hne'].
      * destruct (Z.eqb_spec k k'); [congruence | reflexivity].
      * exact IH.
Qed.

Lemma Map_set_keys {V} (k : Z) (v : V) m k' :
  In k' (map fst (Map_set k v m)) <-> k' = k \/ In k' (map fst m).
Proof.
  induction m as [| [k0 v0] m IH]; cbn.
  - intuition congruence.
  - destruct (Z.eqb_spec k0 k) as [-> | Hne]; cbn; [intuition congruence |].
    rewrite IH. tauto.
Qed.

Lemma Map_set_NoDup {V} (k : Z) (v : V) m :
  NoDup (map fst m) -> NoDup (map fst (Map_set k v m)).
Proof.
  induction m as [| [k0 v0] m IH]; cbn; intros Hnd.
  - apply NoDup_singleton.
  - apply NoDup_cons in Hnd as [Hnotin Hnd'].
    destruct (Z.eqb_spec k0 k) as [-> | Hne]; cbn.
    + apply NoDup_cons. split; assumption.
    + apply NoDup_cons. split; [| now apply IH].
      rewrite list_elem_of_In in *. rewrite Map_set_keys.
      intros [-> | Hin]; [congruence | contradiction].
Qed.

Lemma Map_set_Forall {V} (P : Z * V -> Prop) (k : Z) (v : V) m :
  P (k, v) -> Forall P m -> Forall P (Map_set k v m).
Proof.
  intros Hk. induction 1 as [| [k0 v0] m H0 Hm IH]; cbn.
  - constructor; [exact Hk | constructor].
  - destruct (k0 =? k); constructor; assumption.
Qed.

Lemma Map_get_In {V} (k : Z) (v : V) m :
  NoDup (map fst m) -> (Map_get k m = Some v <-> In (k, v) m).
Proof.
  induction m as [| [k0 v0] m IH]; cbn; intros Hnd.
  - split; [discriminate | tauto].
  - apply NoDup_cons in Hnd as [Hnotin Hnd']. rewrite list_elem_of_In in Hnotin.
    destruct (Z.eqb_spec k0 k) as [-> | Hne].
    + split.
      * intros [= ->]. now left.
      * intros [[= ->] | Hin]; [reflexivity |].
        exfalso. apply Hnotin. apply (in_map fst) in Hin. exact Hin.
    + rewrite (IH Hnd'). split; [tauto |].
      intros [[= -> ->] | Hin]; [congruence | exact Hin].
Qed.

Lemma Map_get_None {V} (k : Z) (m : list (Z * V)) :
  Map_get k m = None <-> ~ In k (map fst m).
Proof.
  induction m as [| [k0 v0] m IH]; cbn; [tauto |].
  destruct (Z.eqb_spec k0 k) as [-> | Hne].
  - split; [discriminate | tauto].
  - rewrite IH. tauto.
Qed.

Lemma add_driver_keyed s d :
  well_keyed (sessionDrivers s) -> well_keyed (sessionDrivers (add_driver myCustId s d)).
Proof.
  intros [Hnd Hkeys]. unfold add_driver.
  destruct (d_UserName d) as [[| c u] |]; try (split; assumption).
  destruct (String.eqb _ _); [split; assumption |].
  assert (Hset : well_keyed
            (Map_set (d_CarIdx d)
               {| sd_carIdx := d_CarIdx d; sd_custId := d_UserID d;
                  sd_name := String c u; sd_iRating := default 0 (d_IRating d);
                  sd_licenseLevel := str_or (default "" (d_LicString d)) "Unknown";
                  sd_carNumber := str_or (default "" (d_CarNumber d)) (show (d_CarIdx d)) |}
               (sessionDrivers s))).
  { split; [now apply Map_set_NoDup | now apply Map_set_Forall]. }
  destruct (d_UserID d =? myCustId); destruct s; cbn in *; exact Hset.
Qed.

Lemma add_drivers_keyed drivers s :
  well_keyed (sessionDrivers s) ->
  well_keyed (sessionDrivers (fold_left (add_driver myCustId) drivers s)).
Proof.
  revert s. induction drivers as [| d drivers IH]; intros s Hs; cbn; [exact Hs |].
  apply IH, add_driver_keyed, Hs.
Qed.

Lemma analyzeSingleDriver_state s s' driver me :
  authenticated s' = authenticated s -> client s' = client s ->
  analyzeSingleDriver now s' driver me = analyzeSingleDriver now s driver me.
Proof.
  intros Ha Hc. unfold analyzeSingleDriver. rewrite Ha, Hc. reflexivity.
Qed.

Lemma store_analyses analyses s :
  fold_left (fun s analysis =>
               set_analyzedDrivers (Map_set (carIdx analysis) analysis (analyzedDrivers s)) s)
    analyses s =
  set_analyzedDrivers
    (fold_left (fun m analysis => Map_set (carIdx analysis) analysis m) analyses
       (analyzedDrivers s)) s.
Proof.
  revert s. induction analyses as [| a analyses IH]; intros s; cbn.
  - destruct s; reflexivity.
  - rewrite IH. destruct s; reflexivity.
Qed.

Lemma find_slot_none (drivers : list SessionDriver) idx :
  ~ In idx (map sd_carIdx drivers) ->
  List.find (fun d => sd_carIdx d =? idx) drivers = None.
Proof.
  induction drivers as [| d drivers IH]; cbn; [reflexivity |].
  intros Hn. destruct (Z.eqb_spec (sd_carIdx d) idx); [tauto |].
  apply IH. tauto.
Qed.

Lemma find_slot_unique (drivers : list SessionDriver) d :
  NoDup (map sd_carIdx drivers) -> In d drivers ->
  List.find (fun d' => sd_carIdx d' =? sd_carIdx d) drivers = Some d.
Proof.
  induction drivers as [| d0 drivers IH]; cbn; [tauto |].
  intros Hnd Hin. apply NoDup_cons in Hnd as [Hnotin Hnd'].
  rewrite list_elem_of_In in Hnotin.
  destruct Hin as [-> | Hin].
  - rewrite Z.eqb_refl. reflexivity.
  - destruct (Z.eqb_spec (sd_carIdx d0) (sd_carIdx d)) as [E | _]; [| now apply IH].
    exfalso. apply Hnotin. rewrite E. now apply in_map.
Qed.

Lemma Map_get_store (f : SessionDriver -> AnalyzedDriver) drivers idx :
  (forall d, carIdx (f d) = sd_carIdx d) ->
  NoDup (map sd_carIdx drivers) ->
  forall m0,
    Map_get idx (fold_left (fun m analysis => Map_set (carIdx analysis) analysis m)
                   (map f drivers) m0) =
    match List.find (fun d => sd_carIdx d =? idx) drivers with
    | Some d => Some (f d)
    | None => Map_get idx m0
    end.
Proof.
  intros Hf. induction drivers as [| d drivers IH]; cbn; intros Hnd m0; [reflexivity |].
  apply NoDup_cons in Hnd as [Hnotin Hnd']. rewrite list_elem_of_In in Hnotin.
  rewrite (IH Hnd'). rewrite Hf.
  destruct (Z.eqb_spec (sd_carIdx d) idx) as [E | Hne].
  - rewrite find_slot_none by (rewrite <- E; exact Hnotin).
    rewrite Map_get_set. rewrite E, Z.eqb_refl. reflexivity.
  - destruct (List.find _ drivers); [reflexivity |].
    rewrite Map_get_set. destruct (Z.eqb_spec idx (sd_carIdx d)); [congruence | reflexivity].
Qed.

Lemma well_keyed_slots (m : list (Z * SessionDriver)) :
  well_keyed m -> map sd_carIdx (map snd m) = map fst m.
Proof.
  intros [_ Hkeys]. induction Hkeys as [| [k d] m Hk Hm IH]; cbn; [reflexivity |].
  cbn in Hk. rewrite Hk, IH. reflexivity.
Qed.

Lemma find_sorted_slot (m : list (Z * SessionDriver)) drivers idx :
  well_keyed m -> Permutation drivers (map snd m) ->
  List.find (fun d => sd_carIdx d =? idx) drivers = Map_get idx m.
Proof.
  intros Hwk Hperm.
  assert (Hslots : Permutation (map sd_carIdx drivers) (map fst m)).
  { rewrite <- (well_keyed_slots m Hwk). now apply Permutation_map. }
  assert (Hnd : NoDup (map sd_carIdx drivers)).
  { rewrite Hslots. apply Hwk. }
  destruct (Map_get idx m) as [d |] eqn:Eget.
  - apply Map_get_In in Eget; [| apply Hwk].
    assert (Hd : sd_carIdx d = idx).
    { destruct Hwk as [_ Hkeys]. rewrite List.Forall_forall in Hkeys.
      exact (Hkeys _ Eget). }
    rewrite <- Hd. apply find_slot_unique; [exact Hnd |].
    apply (Permutation_in _ (Permutation_sym Hperm)).
    apply (in_map snd) in Eget. exact Eget.
  - apply find_slot_none. apply Map_get_None in Eget.
    intros Hin. apply Eget. exact (Permutation_in _ Hslots Hin).
Qed.

Lemma runPreRaceAnalysis_effect s :
  let s' := fst (runPreRaceAnalysis myCustId now parseInt s) in
  analysis_only s s' /\
  (preRaceAnalysisComplete s = true ->
   runPreRaceAnalysis myCustId now parseInt s = (s, [])) /\
  (preRaceAnalysisComplete s = false ->
   preRaceAnalysisComplete s' = true /\ currentPhase s' = RACING /\
   (well_keyed (sessionDrivers s) ->
    forall idx,
      Map_get idx (analyzedDrivers s') =
      match Map_get idx (sessionDrivers s) with
      | Some d => Some (analyzeSingleDriver now s d (sd_custId d =? myCustId))
      | None => Map_get idx (analyzedDrivers s)
      end)).
Proof.
  cbv zeta. unfold runPreRaceAnalysis.
  destruct (preRaceAnalysisComplete s) eqn:Eflag.
  - cbn [fst]. split; [unfold analysis_only; tauto |].
    split; [reflexivity | discriminate].
  - set (s1 := set_preRaceAnalysisComplete true s).
    assert (Hs1 : analysis_only s s1 /\ analyzedDrivers s1 = analyzedDrivers s).
    { unfold s1. destruct s; unfold analysis_only; cbn; tauto. }
    destruct Hs1 as [Hs1 Han1].
    set (drivers := Array_sort _ (map snd (sessionDrivers s1))).
    unfold processDriversInParallel.
    pose proof (batch_loop_results s1 drivers 4 0 [] [] ltac:(lia)) as Hres.
    destruct (batch_loop myCustId now s1 drivers 4 0 [] []) as [analyses out].
    cbn [fst app] in Hres. change (Z.to_nat 0) with 0%nat in Hres. cbn [skipn] in Hres.
    cbn [fst]. rewrite store_analyses.
    set (stored := fold_left _ analyses (analyzedDrivers s1)).
    assert (Hfinal :
      analysis_only s1 (set_currentPhase RACING (set_analyzedDrivers stored s1)) /\
      preRaceAnalysisComplete (set_currentPhase RACING (set_analyzedDrivers stored s1)) = true /\
      currentPhase (set_currentPhase RACING (set_analyzedDrivers stored s1)) = RACING /\
      analyzedDrivers (set_currentPhase RACING (set_analyzedDrivers stored s1)) = stored).
    { unfold s1. destruct s; unfold analysis_only; cbn; tauto. }
    destruct Hfinal as (F1 & F2 & F3 & F4).
    split; [unfold analysis_only in *; intuition congruence |].
    split; [discriminate |]. intros _.
    split; [exact F2 |]. split; [exact F3 |].
    intros Hwk idx. rewrite F4. unfold stored. rewrite Hres, Han1.
    assert (Esd : sessionDrivers s1 = sessionDrivers s) by apply Hs1.
    rewrite (Map_get_store _ drivers idx).
    + rewrite (find_sorted_slot (sessionDrivers s) drivers idx Hwk).
      * destruct (Map_get idx (sessionDrivers s)) as [d |]; [| reflexivity].
        rewrite (analyzeSingleDriver_state s s1) by apply Hs1. reflexivity.
      * unfold drivers. rewrite Esd. apply Array_sort_perm.
    + intros d. unfold analyzeSingleDriver.
      destruct (if authenticated s1 then client s1 else None); [| reflexivity].
      destruct (RiskAnalysis.analyzeDriver _ _ _ _); reflexivity.
    + assert (Hslots : Permutation (map sd_carIdx drivers) (map fst (sessionDrivers s))).
      { rewrite <- (well_keyed_slots _ Hwk). apply Permutation_map.
        unfold drivers. rewrite Esd. apply Array_sort_perm. }
      rewrite Hslots. apply Hwk.
Qed.

(** X17. A session info update never changes the client, the
    authentication, the danger zone, the incident tracking or the service
    flags.  Unless the analysis has not yet run, the phase is PRE_RACE, the
    client is authenticated and the update has a driver list, it prints
    nothing and leaves the analysed drivers, the phase and the flag alone:
    drivers who join after the analysis are recorded but never analysed.
    The only phase change is from PRE_RACE to RACING, with the flag set. *)
Theorem handleSessionInfo_analysis_once (s : State) (info : SessionInfo) :
  let s' := fst (handleSessionInfo myCustId now parseInt s info) in
  let out := snd (handleSessionInfo myCustId now parseInt s info) in
  session_info_frame s s' /\
  (~ analysis_due s \/ si_Drivers info = None ->
   analyzedDrivers s' = analyzedDrivers s /\ currentPhase s' = currentPhase s /\
   preRaceAnalysisComplete s' = preRaceAnalysisComplete s /\ out = []) /\
  (currentPhase s' = currentPhase s \/
   analysis_due s /\ currentPhase s' = RACING /\ preRaceAnalysisComplete s' = true).
Proof.
  cbv zeta.
  destruct (handleSessionInfo_anatomy s info) as (s1 & Hs1 & _ & E & Hs3).
  rewrite E. clear E.
  destruct (si_Drivers info) as [drivers |].
  - specialize (Hs3 drivers eq_refl). cbv zeta.
    set (s3 := match si_Sessions info with
               | Some sessionsList =>
                   set_driverSessionIncidents
                     (fold_left add_results sessionsList
                        (driverSessionIncidents (fold_left (add_driver myCustId) drivers s1)))
                     (fold_left (add_driver myCustId) drivers s1)
               | None => fold_left (add_driver myCustId) drivers s1
               end) in *.
    assert (Hdue : analysis_due s <-> analysis_due s3).
    { unfold analysis_due, session_data_only in *.
      destruct Hs3 as (_ & -> & _ & -> & -> & _). tauto. }
    pose proof (runPreRaceAnalysis_effect s3) as Hrun. cbv zeta in Hrun.
    destruct Hrun as (R1 & R2 & R3).
    destruct ((0 <? length (sessionDrivers s3))%nat) eqn:Esize; cbn [andb].
    + destruct (preRaceAnalysisComplete s3) eqn:Eflag; cbn [negb andb].
      * cbn [fst snd]. unfold session_info_frame, session_data_only, analysis_due in *.
        split; [tauto |]. split; [intros _; tauto | left; tauto].
      * destruct (currentPhase s3) eqn:Ephase; cbn [andb];
          try (cbn [fst snd]; unfold session_info_frame, session_data_only, analysis_due in *;
               split; [tauto |]; split; [intros _; tauto | left; tauto]).
        destruct (authenticated s3) eqn:Eauth; cbn [andb].
        -- destruct (R3 eq_refl) as (Hflag & Hphase & _).
           assert (Hd3 : analysis_due s3) by (unfold analysis_due; tauto).
           split; [unfold session_info_frame, session_data_only, analysis_only in *;
                   intuition congruence |].
           split; [intros [Hnot | Hnone]; [tauto | discriminate Hnone] |].
           right. tauto.
        -- cbn [fst snd]. unfold session_info_frame, session_data_only, analysis_due in *.
           split; [tauto |]. split; [intros _; tauto | left; tauto].
    + cbn [fst snd]. unfold session_info_frame, session_data_only, analysis_due in *.
      split; [tauto |]. split; [intros _; tauto | left; tauto].
  - cbn [fst snd]. unfold session_info_frame, session_data_only in *.
    split; [tauto |]. split; [intros _; tauto | left; tauto].
Qed.

(** X18. When a session info update starts the analysis, the phase
    becomes RACING and, for every car slot, the analysed drivers hold the
    analysis of the driver recorded in that slot, made by
    analyzeSingleDriver, and nothing new for a slot with no driver. *)
Theorem handleSessionInfo_analyses_session (s : State) (info : SessionInfo)
  (Hkeys : well_keyed (sessionDrivers s)) (Hdue : analysis_due s)
  (Hdrivers : si_Drivers info <> None)
  (Hsome : sessionDrivers (fst (handleSessionInfo myCustId now parseInt s info)) <> []) :
  let s' := fst (handleSessionInfo myCustId now parseInt s info) in
  currentPhase s' = RACING /\ preRaceAnalysisComplete s' = true /\
  well_keyed (sessionDrivers s') /\
  forall idx,
    Map_get idx (analyzedDrivers s') =
    match Map_get idx (sessionDrivers s') with
    | Some d => Some (analyzeSingleDriver now s d (sd_custId d =? myCustId))
    | None => Map_get idx (analyzedDrivers s)
    end.
Proof.
  cbv zeta. revert Hsome.
  destruct (handleSessionInfo_anatomy s info) as (s1 & Hs1 & Hf1 & E & Hs3).
  rewrite E. clear E.
  destruct (si_Drivers info) as [drivers |]; [| contradiction].
  specialize (Hs3 drivers eq_refl). cbv zeta.
  assert (Hk1 : well_keyed (sessionDrivers (fold_left (add_driver myCustId) drivers s1))).
  { apply add_drivers_keyed. destruct Hf1 as (-> & _). exact Hkeys. }
  set (s3 := match si_Sessions info with
             | Some sessionsList =>
                 set_driverSessionIncidents
                   (fold_left add_results sessionsList
                      (driverSessionIncidents (fold_left (add_driver myCustId) drivers s1)))
                   (fold_left (add_driver myCustId) drivers s1)
             | None => fold_left (add_driver myCustId) drivers s1
             end) in *.
  assert (Hk3 : well_keyed (sessionDrivers s3)).
  { unfold s3. destruct (si_Sessions info); [| exact Hk1].
    destruct (fold_left (add_driver myCustId) drivers s1); exact Hk1. }
  assert (Hdue3 : analysis_due s3).
  { unfold analysis_due, session_data_only in *.
    destruct Hs3 as (_ & -> & _ & -> & -> & _). exact Hdue. }
  destruct Hdue3 as (Eflag & Ephase & Eauth).
  pose proof (runPreRaceAnalysis_effect s3) as Hrun. cbv zeta in Hrun.
  destruct Hrun as (R1 & _ & R3). destruct (R3 Eflag) as (Hflag & Hphase & Hget).
  rewrite Eflag, Ephase, Eauth. cbn [negb andb].
  assert (Esd : sessionDrivers
                  (fst (runPreRaceAnalysis myCustId now parseInt s3)) = sessionDrivers s3)
    by apply R1.
  destruct ((0 <? length (sessionDrivers s3))%nat) eqn:Esize; cbn [andb].
  - intros _. rewrite Esd.
    split; [exact Hphase |]. split; [exact Hflag |]. split; [exact Hk3 |].
    intros idx. rewrite (Hget Hk3 idx).
    assert (Ean : analyzedDrivers s3 = analyzedDrivers s) by apply Hs3.
    rewrite Ean. destruct (Map_get idx (sessionDrivers s3)); [| reflexivity].
    f_equal. apply analyzeSingleDriver_state; apply Hs3.
  - cbn [fst]. intros Hne. exfalso.
    destruct (sessionDrivers s3); [contradiction | discriminate Esize].
Qed.

Lemma add_driver_fields s d :
  currentSessionType (add_driver myCustId s d) = currentSessionType s /\
  driverSessionIncidents (add_driver myCustId s d) = driverSessionIncidents s.
Proof.
  unfold add_driver. destruct (d_UserName d) as [[| c u] |]; try tauto.
  destruct (String.eqb _ _); [tauto |].
  destruct (d_UserID d =? myCustId); destruct s; cbn; tauto.
Qed.

Lemma add_drivers_fields drivers s :
  currentSessionType (fold_left (add_driver myCustId) drivers s) = currentSessionType s /\
  driverSessionIncidents (fold_left (add_driver myCustId) drivers s) =
    driverSessionIncidents s.
Proof.
  revert s. induction drivers as [| d drivers IH]; intros s; cbn; [tauto |].
  destruct (IH (add_driver myCustId s d)) as [-> ->]. apply add_driver_fields.
Qed.

Lemma selected_type_last current before x after t :
  session_type_of x = Some t ->
  Forall (fun y => session_type_of y = None) after ->
  selected_type current (before ++ x :: after) = t.
Proof.
  intros Hx Hafter. unfold selected_type. rewrite fold_left_app. cbn [fold_left].
  rewrite Hx. cbn [default from_option].
  generalize t. clear Hx.
  induction Hafter as [| y after Hy _ IH]; intros t0; cbn; [reflexivity |].
  rewrite Hy. apply IH.
Qed.

Lemma selected_type_none current sessions :
  Forall (fun y => session_type_of y = None) sessions ->
  selected_type current sessions = current.
Proof.
  unfold selected_type. intros Hall.
  induction Hall as [| y sessions Hy _ IH]; cbn; [reflexivity |].
  rewrite Hy. exact IH.
Qed.

(** X19. The session type after a session info update is the one of the
    last session of the update's list whose type text is recognised,
    whichever session is the active one; it is unchanged when there is no
    list or no session of it is recognised. *)
Theorem handleSessionInfo_session_type (s : State) (info : SessionInfo) :
  let s' := fst (handleSessionInfo myCustId now parseInt s info) in
  (si_Sessions info = None -> currentSessionType s' = currentSessionType s) /\
  (forall sessions, si_Sessions info = Some sessions ->
     currentSessionType s' = selected_type (currentSessionType s) sessions /\
     (Forall (fun y => session_type_of y = None) sessions ->
      currentSessionType s' = currentSessionType s) /\
     (forall before x after t,
        sessions = before ++ x :: after ->
        session_type_of x = Some t ->
        Forall (fun y => session_type_of y = None) after ->
        currentSessionType s' = t)).
Proof.
  cbv zeta.
  assert (Htype : currentSessionType (fst (handleSessionInfo myCustId now parseInt s info)) =
                  match si_Sessions info with
                  | Some sessions => selected_type (currentSessionType s) sessions
                  | None => currentSessionType s
                  end).
  { destruct (handleSessionInfo_anatomy s info) as (s1 & _ & (_ & _ & _ & Ht) & E & _).
    rewrite E. clear E. unfold selected_type.
    destruct (si_Drivers info) as [drivers |]; [| exact Ht]. cbv zeta.
    set (s3 := match si_Sessions info with
               | Some sessionsList =>
                   set_driverSessionIncidents
                     (fold_left add_results sessionsList
                        (driverSessionIncidents (fold_left (add_driver myCustId) drivers s1)))
                     (fold_left (add_driver myCustId) drivers s1)
               | None => fold_left (add_driver myCustId) drivers s1
               end).
    assert (H3 : currentSessionType s3 = currentSessionType s1).
    { unfold s3. destruct (add_drivers_fields drivers s1) as [Hd _].
      destruct (si_Sessions info); [| exact Hd].
      rewrite <- Hd. destruct (fold_left (add_driver myCustId) drivers s1); reflexivity. }
    assert (Hrun : currentSessionType (fst (runPreRaceAnalysis myCustId now parseInt s3)) =
                   currentSessionType s3).
    { pose proof (runPreRaceAnalysis_effect s3) as Hr. cbv zeta in Hr. apply Hr. }
    destruct (_ && _); cbn [fst]; congruence. }
  rewrite Htype. split.
  - intros ->. reflexivity.
  - intros sessions ->. split; [reflexivity |]. split.
    + apply selected_type_none.
    + intros before x after t -> Hx Hafter. now apply selected_type_last.
Qed.






Lemma add_results_listed sessions (m : gmap Z Z) :
  fold_left add_results sessions m =
  fold_left (fun m result => <[rp_CarIdx result := default 0 (rp_Incidents result)]> m)
    (listed_results sessions) m.
Proof.
  unfold listed_results. revert m.
  induction sessions as [| x sessions IH]; intros m; [reflexivity |].
  change (fold_left add_results (x :: sessions) m)
    with (fold_left add_results sessions (add_results m x)).
  rewrite IH. unfold add_results.
  destruct (ResultsPositions x) as [results |] eqn:Ex.
  - assert (E : omap ResultsPositions (x :: sessions) =
                results :: omap ResultsPositions sessions).
    { cbn. rewrite Ex. reflexivity. }
    rewrite E. cbn [concat]. rewrite fold_left_app. reflexivity.
  - assert (E : omap ResultsPositions (x :: sessions) = omap ResultsPositions sessions).
    { cbn. rewrite Ex. reflexivity. }
    rewrite E. reflexivity.
Qed.

Lemma insert_results_lookup results (m : gmap Z Z) idx :
  fold_left (fun m result => <[rp_CarIdx result := default 0 (rp_Incidents result)]> m)
    results m !! idx =
  match last_result idx results with
  | Some r => Some (default 0 (rp_Incidents r))
  | None => m !! idx
  end.
Proof.
  unfold last_result. induction results as [| r results IH] using rev_ind; [reflexivity |].
  rewrite fold_left_app, rev_app_distr. cbn.
  destruct (Z.eqb_spec (rp_CarIdx r) idx) as [<- | Hne].
  - apply lookup_insert_eq.
  - rewrite lookup_insert_ne by exact Hne. exact IH.
Qed.

(** X21. After a session info update with a driver list and a session
    list, the incident count kept for a car slot is the one of the last
    result entry for that slot over all the sessions of the update, 0 when
    that entry has none, and the count kept before when no entry names the
    slot; an update without a driver list, or without a session list,
    leaves every count as it was. *)
Theorem handleSessionInfo_incident_counts (s : State) (info : SessionInfo) :
  let s' := fst (handleSessionInfo myCustId now parseInt s info) in
  (si_Drivers info = None \/ si_Sessions info = None ->
   driverSessionIncidents s' = driverSessionIncidents s) /\
  (forall sessions idx,
     si_Drivers info <> None -> si_Sessions info = Some sessions ->
     driverSessionIncidents s' !! idx =
     match last_result idx (listed_results sessions) with
     | Some r => Some (default 0 (rp_Incidents r))
     | None => driverSessionIncidents s !! idx
     end).
Proof.
  cbv zeta.
  destruct (handleSessionInfo_anatomy s info) as (s1 & _ & (_ & _ & Einc & _) & E & _).
  rewrite E. clear E.
  destruct (si_Drivers info) as [drivers |].
  - cbv zeta.
    set (s2 := fold_left (add_driver myCustId) drivers s1).
    assert (E2 : driverSessionIncidents s2 = driverSessionIncidents s).
    { unfold s2. destruct (add_drivers_fields drivers s1) as [_ ->]. exact Einc. }
    set (s3 := match si_Sessions info with
               | Some sessionsList =>
                   set_driverSessionIncidents
                     (fold_left add_results sessionsList (driverSessionIncidents s2)) s2
               | None => s2
               end).
    assert (Hrun : driverSessionIncidents
                     (fst (if (0 <? length (sessionDrivers s3))%nat
                              && negb (preRaceAnalysisComplete s3)
                              && (match currentPhase s3 with PRE_RACE => true | _ => false end)
                              && authenticated s3
                           then runPreRaceAnalysis myCustId now parseInt s3
                           else (s3, []))) = driverSessionIncidents s3).
    { destruct (_ && _); cbn [fst]; [| reflexivity].
      pose proof (runPreRaceAnalysis_effect s3) as Hr. cbv zeta in Hr. apply Hr. }
    rewrite Hrun. unfold s3. split.
    + intros [H | ->]; [discriminate H | exact E2].
    + intros sessions idx _ ->.
      assert (E3 : driverSessionIncidents
                     (set_driverSessionIncidents
                        (fold_left add_results sessions (driverSessionIncidents s2)) s2) =
                   fold_left add_results sessions (driverSessionIncidents s2)).
      { destruct s2; reflexivity. }
      rewrite E3, add_results_listed, insert_results_lookup, E2. reflexivity.
  - cbn [fst]. split; [intros _; exact Einc |].
    intros sessions idx H. contradiction.
Qed.

End PreRaceAnalysis.

Lemma handleSessionInfo_analyses_session_witness :
  let s' := fst (Racesafe.handleSessionInfo 42 clock_zero parse_nothing pre_race_state
                   example_session_info) in
  Racesafe.currentPhase s' = Racesafe.RACING /\
  map fst (Racesafe.sessionDrivers s') = [3; 7] /\
  option_map Racesafe.riskLevel (Racesafe.Map_get 7 (Racesafe.analyzedDrivers s'))
    = Some "MODERATE"%string /\
  option_map Racesafe.riskLevel (Racesafe.Map_get 3 (Racesafe.analyzedDrivers s'))
    = Some "YOU"%string /\
  Racesafe.Map_get 0 (Racesafe.analyzedDrivers s') = None.
Proof.
  assert (Hkeys : well_keyed (Racesafe.sessionDrivers pre_race_state)).
  { split; constructor. }
  assert (Hdue : analysis_due pre_race_state) by (repeat split).
  assert (Hdrivers : Racesafe.si_Drivers example_session_info <> None) by discriminate.
  assert (Hsome : Racesafe.sessionDrivers
                    (fst (Racesafe.handleSessionInfo 42 clock_zero parse_nothing
                            pre_race_state example_session_info)) <> []).
  { vm_compute. discriminate. }
  destruct (handleSessionInfo_analyses_session 42 clock_zero parse_nothing pre_race_state
              example_session_info Hkeys Hdue Hdrivers Hsome) as (H1 & _ & _ & H4).
  cbv zeta. split; [exact H1 |]. split; [vm_compute; reflexivity |].
  rewrite !H4. vm_compute. repeat split.
Defined.

(** ** Licence classes and the field summary *)

Section Licences.
Import JS Racesafe.

Lemma upper_lower_ascii c : upper_ascii (lower_ascii c) = upper_ascii c.
Proof.
  destruct c as [[] [] [] [] [] [] [] []]; reflexivity.
Qed.

Lemma lower_upper_ascii c : lower_ascii (upper_ascii c) = lower_ascii c.
Proof.
  destruct c as [[] [] [] [] [] [] [] []]; reflexivity.
Qed.

Lemma lower_lower_ascii c : lower_ascii (lower_ascii c) = lower_ascii c.
Proof.
  destruct c as [[] [] [] [] [] [] [] []]; reflexivity.
Qed.

Lemma upper_upper_ascii c : upper_ascii (upper_ascii c) = upper_ascii c.
Proof.
  destruct c as [[] [] [] [] [] [] [] []]; reflexivity.
Qed.

Lemma toUpperCase_toLowerCase s : toUpperCase (toLowerCase s) = toUpperCase s.
Proof.
  induction s as [| c s IH]; cbn; [reflexivity |]. now rewrite upper_lower_ascii, IH.
Qed.

Lemma toLowerCase_toUpperCase s : toLowerCase (toUpperCase s) = toLowerCase s.
Proof.
  induction s as [| c s IH]; cbn; [reflexivity |]. now rewrite lower_upper_ascii, IH.
Qed.

Lemma toLowerCase_idem s : toLowerCase (toLowerCase s) = toLowerCase s.
Proof.
  induction s as [| c s IH]; cbn; [reflexivity |]. now rewrite lower_lower_ascii, IH.
Qed.

Lemma substring_toLowerCase n m s :
  substring n m (toLowerCase s) = toLowerCase (substring n m s).
Proof.
  revert n m. induction s as [| c s IH]; intros [| n] [| m]; cbn; try reflexivity.
  - now rewrite IH.
  - now rewrite IH.
  - now rewrite IH.
Qed.

Lemma substring_toUpperCase n m s :
  substring n m (toUpperCase s) = toUpperCase (substring n m s).
Proof.
  revert n m. induction s as [| c s IH]; intros [| n] [| m]; cbn; try reflexivity.
  - now rewrite IH.
  - now rewrite IH.
  - now rewrite IH.
Qed.

Lemma substring_prefix_idem m s : substring 0 m (substring 0 m s) = substring 0 m s.
Proof.
  revert m. induction s as [| c s IH]; intros [| m]; cbn; try reflexivity.
  now rewrite IH.
Qed.

(** The class in terms of the first characters only. *)
Lemma extractLicenseClass_cases s :
  extractLicenseClass s =
  match s with
  | EmptyString => "?"%string
  | String c _ =>
      if existsb (Ascii.eqb (upper_ascii c)) ["R"; "D"; "C"; "B"; "A"]%char
      then String (upper_ascii c) EmptyString
      else if String.eqb (toLowerCase (substring 0 3 s)) "pro" then "PRO"%string
           else "?"%string
  end.
Proof.
  unfold extractLicenseClass, license_match. destruct s as [| c s]; [reflexivity |].
  destruct (existsb _ _); [reflexivity |].
  destruct (String.eqb_spec (toLowerCase (substring 0 3 (String c s))) "pro") as [E | _];
    [| reflexivity].
  rewrite <- toUpperCase_toLowerCase, E. reflexivity.
Qed.

Lemma class_letter c :
  existsb (Ascii.eqb c) ["R"; "D"; "C"; "B"; "A"]%char = true ->
  In c ["R"; "D"; "C"; "B"; "A"]%char.
Proof.
  cbn. rewrite !orb_true_iff, !Ascii.eqb_eq.
  intros [-> | [-> | [-> | [-> | [-> | H]]]]]; [auto 10 .. | discriminate H].
Qed.

Lemma extractLicenseClass_range t :
  In (extractLicenseClass t) ["R"; "D"; "C"; "B"; "A"; "PRO"; "?"]%string.
Proof.
  rewrite extractLicenseClass_cases. destruct t as [| c t]; [cbn; tauto |].
  destruct (existsb _ _) eqn:Eletter.
  - apply class_letter in Eletter.
    destruct Eletter as [<- | [<- | [<- | [<- | [<- | []]]]]]; cbn; tauto.
  - destruct (String.eqb _ _); cbn; tauto.
Qed.

(** X22. The licence class is always one of R, D, C, B, A, PRO and ?,
    never the spelling Pro; it does not depend on the case of the licence
    text nor on anything after its first three characters; and the class
    of a class is the class itself. *)
Theorem extractLicenseClass_classes (s : string) :
  In (extractLicenseClass s) ["R"; "D"; "C"; "B"; "A"; "PRO"; "?"]%string /\
  extractLicenseClass s <> "Pro"%string /\
  extractLicenseClass (toLowerCase s) = extractLicenseClass s /\
  extractLicenseClass (toUpperCase s) = extractLicenseClass s /\
  extractLicenseClass (substring 0 3 s) = extractLicenseClass s /\
  extractLicenseClass (extractLicenseClass s) = extractLicenseClass s.
Proof.
  pose proof extractLicenseClass_range as Hrange.
  split; [apply Hrange |]. split; [| split; [| split; [| split]]].
  - intros E. pose proof (Hrange s) as H. rewrite E in H.
    cbn in H. intuition discriminate.
  - destruct s as [| c s]; [reflexivity |].
    rewrite (extractLicenseClass_cases (String c s)). cbn [toLowerCase].
    rewrite extractLicenseClass_cases.
    change (String (lower_ascii c) (toLowerCase s)) with (toLowerCase (String c s)).
    rewrite upper_lower_ascii, substring_toLowerCase, toLowerCase_idem. reflexivity.
  - destruct s as [| c s]; [reflexivity |].
    rewrite (extractLicenseClass_cases (String c s)). cbn [toUpperCase].
    rewrite extractLicenseClass_cases.
    change (String (upper_ascii c) (toUpperCase s)) with (toUpperCase (String c s)).
    rewrite upper_upper_ascii, substring_toUpperCase, toLowerCase_toUpperCase. reflexivity.
  - destruct s as [| c s]; [reflexivity |].
    rewrite (extractLicenseClass_cases (String c s)).
    change (substring 0 3 (String c s)) with (String c (substring 0 2 s)) at 1.
    rewrite extractLicenseClass_cases.
    change (String c (substring 0 2 s)) with (substring 0 3 (String c s)).
    rewrite substring_prefix_idem. reflexivity.
  - destruct (Hrange s) as [<- | [<- | [<- | [<- | [<- | [<- | [<- | []]]]]]]]; reflexivity.
Qed.

Section FieldSummary.
Variable parseFloat : string -> option Q.

Lemma breakdown_counts analyses cls : forall m0,
  default 0 (fold_left count_license analyses m0 !! cls) =
  default 0 (m0 !! cls) + class_count cls analyses.
Proof.
  unfold class_count. induction analyses as [| a analyses IH]; intros m0; cbn [fold_left].
  - cbn. lia.
  - rewrite IH. unfold count_license. cbn [List.filter].
    destruct (String.eqb_spec (str_or (licenseClass a) "?") cls) as [-> | Hne].
    + rewrite lookup_insert_eq. cbn [default from_option length]. unfold id. lia.
    + rewrite lookup_insert_ne by exact Hne. lia.
Qed.

Lemma licenseBreakdown_counts analyses cls :
  default 0 (licenseBreakdown (calculateFieldStats parseFloat analyses) !! cls) =
  class_count cls analyses.
Proof.
  unfold calculateFieldStats. cbn [licenseBreakdown].
  rewrite breakdown_counts, lookup_empty. reflexivity.
Qed.

Lemma license_line_of analyses order :
  String.concat " | "
    (map (fun cls =>
            (cls +:+ ": " +:+
             show (default 0 (licenseBreakdown (calculateFieldStats parseFloat analyses) !! cls)))%string)
       (List.filter
          (fun cls =>
             default 0 (licenseBreakdown (calculateFieldStats parseFloat analyses) !! cls) >? 0)
          order)) =
  license_line order analyses.
Proof.
  unfold license_line. f_equal.
  induction order as [| cls order IH]; [reflexivity |].
  cbn [List.filter]. rewrite licenseBreakdown_counts.
  destruct (class_count cls analyses >? 0); [| exact IH].
  cbn [map]. rewrite IH, licenseBreakdown_counts. reflexivity.
Qed.

Lemma class_count_none cls analyses :
  Forall (fun a => str_or (licenseClass a) "?" <> cls) analyses ->
  class_count cls analyses = 0.
Proof.
  unfold class_count. induction 1 as [| a analyses Ha _ IH]; [reflexivity |].
  cbn [List.filter]. destruct (String.eqb_spec (str_or (licenseClass a) "?") cls);
    [contradiction | exact IH].
Qed.

(** X23. The licence counts of the field statistics are the numbers of
    analyses of each class, an empty class counting as ?, and the rookie
    count is that of class R.  For classes made by extractLicenseClass the
    summary never has an entry for Pro, since that class is spelled PRO:
    the licence line is the one of A, B, C, D and R alone, and a field of
    Pro licences only is reported as Unknown. *)
Theorem license_display_never_pro (analyses : list AnalyzedDriver)
  (Hclasses : classes_extracted analyses) :
  let stats := calculateFieldStats parseFloat analyses in
  (forall cls, default 0 (licenseBreakdown stats !! cls) = class_count cls analyses) /\
  rookieCount stats = class_count "R" analyses /\
  r_licenseDisplay (printSummary parseFloat analyses) =
    str_or (license_line ["A"; "B"; "C"; "D"; "R"]%string analyses) "Unknown" /\
  (Forall (fun a => licenseClass a = "PRO"%string) analyses ->
   r_licenseDisplay (printSummary parseFloat analyses) = "Unknown"%string).
Proof.
  cbv zeta.
  assert (Hpro : class_count "Pro" analyses = 0).
  { apply class_count_none. eapply List.Forall_impl; [| exact Hclasses].
    intros a (text & ->). cbn beta.
    destruct (extractLicenseClass_range text)
      as [<- | [<- | [<- | [<- | [<- | [<- | [<- | []]]]]]]]; discriminate. }
  assert (Hline : r_licenseDisplay (printSummary parseFloat analyses) =
                  str_or (license_line ["A"; "B"; "C"; "D"; "R"]%string analyses) "Unknown").
  { unfold printSummary. cbn [r_licenseDisplay]. rewrite license_line_of.
    unfold license_line. cbn [List.filter]. rewrite Hpro. reflexivity. }
  split; [apply licenseBreakdown_counts |].
  split; [apply (licenseBreakdown_counts analyses "R") |].
  split; [exact Hline |].
  intros Hall. rewrite Hline. unfold license_line.
  assert (Hzero : forall cls, cls <> "PRO"%string -> class_count cls analyses = 0).
  { intros cls Hcls. apply class_count_none.
    eapply List.Forall_impl; [| exact Hall]. intros a ->. cbn. congruence. }
  cbn [List.filter]. rewrite !Hzero by discriminate. reflexivity.
Qed.

Lemma fold_left_Qplus_bounds (lo hi : Q) l : forall acc,
  Forall (fun x => lo <= x /\ x <= hi)%Q l ->
  (acc + lo * inject_Z (Z.of_nat (length l)) <= fold_left Qplus l acc /\
   fold_left Qplus l acc <= acc + hi * inject_Z (Z.of_nat (length l)))%Q.
Proof.
  induction l as [| x l IH]; intros acc Hl.
  - cbn [fold_left length]. change (inject_Z (Z.of_nat 0)) with 0%Q. split; lra.
  - inversion Hl as [| ? ? [Hlo Hhi] Hl']; subst.
    cbn [fold_left length]. destruct (IH (acc + x)%Q Hl') as [I1 I2].
    rewrite Nat2Z.inj_succ. unfold Z.succ. rewrite inject_Z_plus.
    change (inject_Z 1) with 1%Q. split; lra.
Qed.

Lemma levels_disjoint (analyses : list AnalyzedDriver) :
  (length (List.filter (fun a => String.eqb (riskLevel a) "HIGH") analyses) +
   length (List.filter (fun a => String.eqb (riskLevel a) "MODERATE") analyses) +
   length (List.filter (fun a => String.eqb (riskLevel a) "LOW") analyses)
   <= length analyses)%nat.
Proof.
  induction analyses as [| a analyses IH]; cbn [List.filter length]; [lia |].
  destruct (String.eqb_spec (riskLevel a) "HIGH") as [E | _].
  - rewrite E. cbn. lia.
  - destruct (String.eqb_spec (riskLevel a) "MODERATE") as [E | _].
    + rewrite E. cbn. lia.
    + destruct (String.eqb (riskLevel a) "LOW"); cbn; lia.
Qed.

Lemma In_slice0 {A} (l : list A) e x : In x (slice0 l e) -> In x l.
Proof.
  unfold slice0. cbv zeta. intros H.
  rewrite <- (firstn_skipn (Z.to_nat (if e <? 0
                                      then Z.max (Z.of_nat (length l) + e) 0
                                      else Z.min e (Z.of_nat (length l)))) l).
  apply in_or_app. now left.
Qed.

Lemma filter_idem {A} (f : A -> bool) l : List.filter f (List.filter f l) = List.filter f l.
Proof.
  induction l as [| x l IH]; cbn; [reflexivity |].
  destruct (f x) eqn:E; cbn; [rewrite E, IH; reflexivity | exact IH].
Qed.

Lemma filter_none {A} (f : A -> bool) l :
  Forall (fun x => f x = false) l -> List.filter f l = [].
Proof.
  induction 1 as [| x l Hx _ IH]; cbn; [reflexivity |]. now rewrite Hx.
Qed.

(** X24. In the summary, the high, moderate and low counts together do
    not exceed the number of analyses, and at most five cars to avoid are
    named, all HIGH.  The overall grid risk is the mean score of the
    drivers that were analysed and are not the user: it is the same when
    the others are left out, it is 0 when there is no such driver, and the
    strategy is then AGGRESSIVE OK; with scores of at most 10 it lies
    between 0 and 10.  The strategy is CONSERVATIVE exactly from 6 and
    AGGRESSIVE OK exactly below 4. *)
Theorem printSummary_risk (analyses : list AnalyzedDriver) :
  let r := printSummary parseFloat analyses in
  r_highRisk r + r_moderate r + r_lowRisk r <= Z.of_nat (length analyses) /\
  ((length (r_carsToAvoid r) <= 5)%nat /\
   Forall (fun a => riskLevel a = "HIGH"%string /\ In a analyses) (r_carsToAvoid r)) /\
  r_avgRisk (printSummary parseFloat (List.filter rated analyses)) = r_avgRisk r /\
  (Forall (fun a => rated a = false) analyses ->
   r_avgRisk r = 0%Q /\ r_strategy r = AGGRESSIVE_OK) /\
  (Forall (fun a => riskScore a <= 10)%Q analyses ->
   (0 <= r_avgRisk r)%Q /\ (r_avgRisk r <= 10)%Q) /\
  (r_strategy r = CONSERVATIVE <-> (6 <= r_avgRisk r)%Q) /\
  (r_strategy r = AGGRESSIVE_OK <-> (r_avgRisk r < 4)%Q).
Proof.
  cbv zeta. unfold printSummary.
  cbn [r_highRisk r_moderate r_lowRisk r_carsToAvoid r_avgRisk r_strategy].
  fold rated.
  change (fun a : AnalyzedDriver => Qgeb (riskScore a) 0 && negb (isMe a)) with rated.
  set (ratedDrivers := List.filter rated analyses).
  set (avgRisk := if (0 <? length ratedDrivers)%nat
                  then (fold_left Qplus (map riskScore ratedDrivers) 0
                        / inject_Z (Z.of_nat (length ratedDrivers)))%Q
                  else 0%Q).
  split; [pose proof (levels_disjoint analyses); lia |].
  split.
  { split.
    - unfold slice0. cbv zeta. change (5 <? 0) with false. cbv iota.
      rewrite length_firstn. lia.
    - apply List.Forall_forall. intros a Ha.
      apply In_slice0 in Ha. apply filter_In in Ha as [Hin Hhigh].
      apply String.eqb_eq in Hhigh. tauto. }
  split.
  { unfold avgRisk, ratedDrivers. rewrite filter_idem. reflexivity. }
  split.
  { intros Hnone. unfold avgRisk, ratedDrivers. rewrite (filter_none rated) by exact Hnone.
    split; reflexivity. }
  split.
  { intros Hmax. unfold avgRisk.
    destruct (Nat.ltb_spec 0 (length ratedDrivers)) as [Hpos | Hzero]; [| split; lra].
    assert (Hscores : Forall (fun x => 0 <= x /\ x <= 10)%Q (map riskScore ratedDrivers)).
    { apply List.Forall_forall. intros x Hx. apply in_map_iff in Hx as (a & <- & Ha).
      unfold ratedDrivers in Ha. apply filter_In in Ha as [Hin Hr].
      unfold rated in Hr. apply andb_true_iff in Hr as [Hr _].
      rewrite List.Forall_forall in Hmax. split; [| now apply Hmax].
      unfold Qgeb in Hr. destruct (Qleb_spec 0 (riskScore a)); [assumption | discriminate]. }
    destruct (fold_left_Qplus_bounds 0 10 _ 0%Q Hscores) as [Hlo Hhi].
    rewrite length_map in Hlo, Hhi.
    assert (Hlen : (0 < inject_Z (Z.of_nat (length ratedDrivers)))%Q).
    { change 0%Q with (inject_Z 0). rewrite <- Zlt_Qlt. lia. }
    split.
    - apply Qle_shift_div_l; [exact Hlen | lra].
    - apply Qle_shift_div_r; [exact Hlen | lra]. }
  split.
  - destruct (Qgeb_spec avgRisk 6) as [H | H].
    + split; [intros _; exact H | reflexivity].
    + destruct (Qgeb avgRisk 4); split; intros H'; first [discriminate H' | lra].
  - destruct (Qgeb_spec avgRisk 6) as [H | H].
    + split; [discriminate | intros H'; lra].
    + destruct (Qgeb_spec avgRisk 4) as [H4 | H4].
      * split; [discriminate | intros H'; lra].
      * split; [intros _; lra | reflexivity].
Qed.

(** X25. Without authentication, or without a client, the analysis of
    any drivers gives UNKNOWN with score -1 for every one of them, and the
    summary of that analysis then reports an overall grid risk of 0, no
    high-risk car, no car to avoid, and the strategy AGGRESSIVE OK. *)
Theorem unauthenticated_summary_is_clean (myCustId : Z) (now : SessionDriver -> Z)
  (s : State) (drivers : list SessionDriver) (batchSize : positive)
  (Hauth : authenticated s = false \/ client s = None) :
  let analyses := fst (processDriversInParallel myCustId now s drivers batchSize) in
  let r := printSummary parseFloat analyses in
  length analyses = length drivers /\
  Forall (fun a => riskLevel a = "UNKNOWN"%string /\ riskScore a = (-1)%Q) analyses /\
  r_avgRisk r = 0%Q /\ r_highRisk r = 0 /\ r_carsToAvoid r = [] /\
  r_strategy r = AGGRESSIVE_OK.
Proof.
  cbv zeta. unfold processDriversInParallel.
  rewrite (batch_loop_results myCustId now s drivers batchSize 0 [] []) by lia.
  cbn [app]. change (skipn (Z.to_nat 0) drivers) with drivers.
  set (analyses := map (fun driver => analyzeSingleDriver now s driver
                                        (sd_custId driver =? myCustId)) drivers).
  assert (Hall : Forall (fun a => riskLevel a = "UNKNOWN"%string /\ riskScore a = (-1)%Q)
                   analyses).
  { apply List.Forall_forall. intros a Ha. unfold analyses in Ha.
    apply in_map_iff in Ha as (d & <- & _). unfold analyzeSingleDriver.
    destruct Hauth as [-> | Hc]; [split; reflexivity |].
    rewrite Hc. destruct (authenticated s); split; reflexivity. }
  split; [unfold analyses; apply length_map |]. split; [exact Hall |].
  assert (Hrated : List.filter (fun a => Qgeb (riskScore a) 0 && negb (isMe a)) analyses = []).
  { apply filter_none. eapply List.Forall_impl; [| exact Hall].
    intros a [_ Hscore]. cbn beta. rewrite Hscore. reflexivity. }
  assert (Hhigh : List.filter (fun a => String.eqb (riskLevel a) "HIGH") analyses = []).
  { apply filter_none. eapply List.Forall_impl; [| exact Hall].
    intros a [Hlevel _]. cbn beta. rewrite Hlevel. reflexivity. }
  unfold printSummary. cbn [r_avgRisk r_highRisk r_carsToAvoid r_strategy].
  rewrite Hrated, Hhigh. repeat split.
Qed.

End FieldSummary.

End Licences.

Lemma unauthenticated_summary_is_clean_witness :
  let analyses :=
    fst (Racesafe.processDriversInParallel 42 clock_zero Racesafe.initial_state
           (map (fun slot =>
                   {| Racesafe.sd_carIdx := slot; Racesafe.sd_custId := 40 + slot;
                      Racesafe.sd_name := "Driver"; Racesafe.sd_iRating := 1500;
                      Racesafe.sd_licenseLevel := "D 3.10";
                      Racesafe.sd_carNumber := JS.show slot |}) [1; 2; 3; 4; 5]) 4) in
  length analyses = 5%nat /\
  Racesafe.r_strategy (Racesafe.printSummary parse_nothing_float analyses)
  = Racesafe.AGGRESSIVE_OK.
Proof.
  destruct (unauthenticated_summary_is_clean parse_nothing_float 42 clock_zero
              Racesafe.initial_state
              (map (fun slot =>
                      {| Racesafe.sd_carIdx := slot; Racesafe.sd_custId := 40 + slot;
                         Racesafe.sd_name := "Driver"; Racesafe.sd_iRating := 1500;
                         Racesafe.sd_licenseLevel := "D 3.10";
                         Racesafe.sd_carNumber := JS.show slot |}) [1; 2; 3; 4; 5]) 4
              (or_introl eq_refl)) as (H1 & _ & _ & _ & _ & H6).
  cbv zeta. split; [rewrite H1; reflexivity | exact H6].
Defined.

Lemma license_display_never_pro_witness :
  Racesafe.r_licenseDisplay (Racesafe.printSummary parse_nothing_float example_field)
  = "A: 1 | R: 1"%string /\
  class_count "PRO" example_field = 1.
Proof.
  assert (Hclasses : classes_extracted example_field).
  { repeat constructor; eexists; reflexivity. }
  destruct (license_display_never_pro parse_nothing_float example_field Hclasses)
    as (_ & _ & H & _).
  split; [rewrite H |]; reflexivity.
Defined.

(** ** The driver table *)

Section Table.
Import JS Racesafe.

Lemma length_substring_prefix n s :
  String.length (substring 0 n s) = Nat.min n (String.length s).
Proof.
  revert n. induction s as [| c s IH]; intros [| n]; cbn; try reflexivity.
  now rewrite IH.
Qed.

Lemma substring_all s : substring 0 (String.length s) s = s.
Proof.
  induction s as [| c s IH]; cbn; [reflexivity |]. now rewrite IH.
Qed.

Lemma length_spaces n : String.length (spaces n) = n.
Proof.
  induction n as [| n IH]; cbn; [reflexivity |]. now rewrite IH.
Qed.

Lemma length_append_string a b :
  String.length (a +:+ b) = (String.length a + String.length b)%nat.
Proof.
  induction a as [| c a IH]; simpl; [reflexivity |]. f_equal. exact IH.
Qed.

Lemma append_empty s : (s +:+ "")%string = s.
Proof.
  induction s as [| c s IH]; [reflexivity |].
  change (String c s +:+ "")%string with (String c (s +:+ "")). now rewrite IH.
Qed.

(** X26. A table cell made by padRight has exactly the asked number of
    characters (none for a negative number): the text followed by spaces
    when it fits, its first characters otherwise.  truncate returns a text
    that fits unchanged; a longer one, for a length of at least 2, becomes
    its first characters followed by two dots, of exactly that length. *)
Theorem padRight_truncate_widths (str : string) (len : Z) :
  String.length (padRight str len) = Z.to_nat len /\
  (Z.of_nat (String.length str) <= len ->
   padRight str len = (str +:+ spaces (Z.to_nat len - String.length str))%string) /\
  (len <= Z.of_nat (String.length str) ->
   padRight str len = substring 0 (Z.to_nat len) str) /\
  (Z.of_nat (String.length str) <= len -> truncate str len = str) /\
  (len < Z.of_nat (String.length str) -> 2 <= len ->
   truncate str len = (substring 0 (Z.to_nat len - 2) str +:+ "..")%string /\
   String.length (truncate str len) = Z.to_nat len).
Proof.
  unfold padRight, truncate, substring0.
  split; [| split; [| split; [| split]]].
  - destruct (Z.geb_spec (Z.of_nat (String.length str)) len) as [Hge | Hlt].
    + rewrite length_substring_prefix. lia.
    + rewrite length_append_string, length_spaces. lia.
  - intros Hle. destruct (Z.geb_spec (Z.of_nat (String.length str)) len) as [Hge | Hlt].
    + assert (E : Z.to_nat len = String.length str) by lia.
      rewrite E, substring_all, Nat.sub_diag. cbn [spaces]. now rewrite append_empty.
    + f_equal. f_equal. lia.
  - intros Hle. destruct (Z.geb_spec (Z.of_nat (String.length str)) len) as [Hge | Hlt];
      [reflexivity | lia].
  - intros Hle. destruct (Z.gtb_spec (Z.of_nat (String.length str)) len) as [Hgt | _];
      [lia | reflexivity].
  - intros Hlt H2. destruct (Z.gtb_spec (Z.of_nat (String.length str)) len) as [_ | Hle];
      [| lia].
    assert (E : Z.to_nat (len - 2) = (Z.to_nat len - 2)%nat) by lia. rewrite E.
    split; [reflexivity |].
    rewrite length_append_string, length_substring_prefix. cbn [String.length]. lia.
Qed.

Lemma table_after_true a b : table_after a b = true -> table_before b a.
Proof.
  unfold table_after, table_before. destruct (isMe a) eqn:Ea; [discriminate |].
  destruct (isMe b) eqn:Eb; [intros _; now left |].
  destruct (Qgtb_spec (riskScore b - riskScore a) 0); [| discriminate].
  intros _. right. split; [reflexivity | lra].
Qed.

Lemma table_after_false a b : table_after a b = false -> table_before a b.
Proof.
  unfold table_after, table_before. destruct (isMe a) eqn:Ea; [intros _; now left |].
  destruct (isMe b) eqn:Eb; [discriminate |].
  destruct (Qgtb_spec (riskScore b - riskScore a) 0); [discriminate |].
  intros _. right. split; [reflexivity | lra].
Qed.

Lemma table_before_trans a b c : table_before a b -> table_before b c -> table_before a c.
Proof.
  unfold table_before. intros [Ha | [Hb Hab]] [Hb' | [Hc Hbc]].
  - now left.
  - now left.
  - congruence.
  - right. split; [exact Hc | lra].
Qed.

(** X27. The rows of the driver table are the analyses rearranged so
    that every row is followed only by rows that come after it: the own
    car before all others, and the others by falling risk score; so when
    the user is among the analyses, the first row is the user's. *)
Theorem table_order_me_first (analyses : list AnalyzedDriver) :
  Permutation (table_order analyses) analyses /\
  StronglySorted table_before (table_order analyses) /\
  (Exists (fun a => isMe a = true) analyses ->
   exists me rest, table_order analyses = me :: rest /\ isMe me = true).
Proof.
  assert (Hperm : Permutation (table_order analyses) analyses) by apply Array_sort_perm.
  assert (Hsorted : StronglySorted table_before (table_order analyses)).
  { apply (Array_sort_sorted table_after table_before).
    - apply table_after_true.
    - apply table_after_false.
    - apply table_before_trans. }
  split; [exact Hperm |]. split; [exact Hsorted |].
  intros Hme. apply List.Exists_exists in Hme as (a & Hin & Ha).
  apply (Permutation_in _ (Permutation_sym Hperm)) in Hin.
  destruct (table_order analyses) as [| first rest]; [contradiction |].
  exists first, rest. split; [reflexivity |].
  destruct Hin as [-> | Hin]; [exact Ha |].
  inversion Hsorted as [| ? ? _ Hfirst]; subst.
  rewrite List.Forall_forall in Hfirst. destruct (Hfirst a Hin) as [H | [H _]];
    [exact H | congruence].
Qed.

End Table.

(** ** The telemetry listener *)

Section Listener.
Import JS Racesafe.
Variable config : AlertConfig.
Variable execThrows : Sound -> bool.

Lemma telemetry_events_app s a b :
  telemetry_events config execThrows s (a ++ b) =
  let '(s1, out1) := telemetry_events config execThrows s a in
  let '(s2, out2) := telemetry_events config execThrows s1 b in
  (s2, out1 ++ out2).
Proof.
  revert s. induction a as [| x a IH]; intros s; cbn [app telemetry_events].
  - destruct (telemetry_events config execThrows s b). reflexivity.
  - destruct (onTelemetry config execThrows s x) as [s1 out1]. rewrite IH.
    destruct (telemetry_events config execThrows s1 a) as [s2 out2].
    destruct (telemetry_events config execThrows s2 b) as [s3 out3].
    now rewrite app_assoc.
Qed.

Lemma telemetry_events_ignored s updates :
  currentPhase s <> RACING -> telemetry_events config execThrows s updates = (s, []).
Proof.
  intros Hphase. induction updates as [| x updates IH]; cbn [telemetry_events];
    [reflexivity |].
  unfold onTelemetry. destruct (currentPhase s); try (rewrite IH; reflexivity).
  contradiction.
Qed.

Lemma telemetry_events_racing s updates :
  currentPhase s = RACING -> monitoring s -> Forall not_checkered updates ->
  telemetry_events config execThrows s updates = telemetry_run config execThrows s updates /\
  currentPhase (fst (telemetry_run config execThrows s updates)) = RACING /\
  monitoring (fst (telemetry_run config execThrows s updates)) /\
  count_events is_summary (snd (telemetry_run config execThrows s updates)) = 0%nat.
Proof.
  revert s. induction updates as [| x updates IH]; intros s Hphase Hmon Hgreen.
  - cbn. tauto.
  - inversion Hgreen as [| ? ? Hx Hrest]; subst.
    cbn [telemetry_events telemetry_run]. unfold onTelemetry. rewrite Hphase.
    pose proof (handleTelemetry_step config execThrows s x Hmon Hx) as Hstep.
    cbv zeta in Hstep. destruct Hstep as (S1 & S2 & _ & _ & _ & S6 & _).
    destruct (handleTelemetry config execThrows s x) as [s1 out1]. cbn [fst snd] in *.
    assert (Hmon1 : monitoring s1) by exact (monitoring_kept _ _ S1 Hmon).
    destruct (IH s1 ltac:(congruence) Hmon1 Hrest) as (I1 & I2 & I3 & I4).
    rewrite I1. destruct (telemetry_run config execThrows s1 updates) as [s2 out2].
    cbn [fst snd] in *. rewrite count_events_app, S6, I4. tauto.
Qed.

(** X28. Telemetry reaches the handler only in the RACING phase: in any
    other phase a run of telemetry events changes nothing and prints
    nothing.  With the monitor active in the RACING phase, once an update
    under the checkered flag arrives everything after it is ignored: the
    state and the output are those of the updates up to and including it,
    the race summary has been printed exactly once, and the session
    incident total is the one before the flag. *)
Theorem telemetry_after_checkered_ignored (s : State)
  (before after : list Telemetry) (flagged : Telemetry) :
  (currentPhase s <> RACING ->
   telemetry_events config execThrows s (before ++ flagged :: after) = (s, [])) /\
  (currentPhase s = RACING -> monitoring s ->
   Forall not_checkered before -> ~ not_checkered flagged ->
   let r := telemetry_events config execThrows s (before ++ flagged :: after) in
   r = telemetry_events config execThrows s (before ++ [flagged]) /\
   currentPhase (fst r) = POST_RACE /\
   count_events is_summary (snd r) = 1%nat /\
   mySessionIncidents (fst r) =
     mySessionIncidents (fst (telemetry_events config execThrows s before))).
Proof.
  split; [apply telemetry_events_ignored |].
  intros Hphase Hmon Hgreen Hflag. cbv zeta.
  destruct (telemetry_events_racing s before Hphase Hmon Hgreen) as (E & Hp & Hm & Hc).
  rewrite !telemetry_events_app, E.
  destruct (telemetry_run config execThrows s before) as [s1 out1]. cbn [fst snd] in *.
  assert (Eflag : onTelemetry config execThrows s1 flagged =
                  (set_currentPhase POST_RACE s1, [CheckeredFlag (mySessionIncidents s1)])).
  { unfold onTelemetry. rewrite Hp.
    rewrite (handleTelemetry_checkered config execThrows s1 flagged Hm Hflag), Hp.
    reflexivity. }
  destruct (set_currentPhase_fields POST_RACE s1) as (_ & F2 & F3 & _).
  cbn [telemetry_events]. rewrite !Eflag.
  rewrite !telemetry_events_ignored by (rewrite F2; discriminate).
  cbn [fst snd]. rewrite F2, F3, !app_nil_r, count_events_app, Hc.
  repeat split.
Qed.

End Listener.

Lemma telemetry_after_checkered_ignored_witness :
  let flagged :=
    {| Racesafe.SessionFlags := Some 8; Racesafe.CarIdxLap := [];
       Racesafe.CarIdxLapDistPct := []; Racesafe.CarIdxPosition := [];
       Racesafe.CarIdxClassPosition := []; Racesafe.CarIdxOnPitRoad := [];
       Racesafe.PlayerCarMyIncidentCount := Some 9 |} in
  let r := telemetry_events all_on never_throws racing_state
             ([telemetry_at 0.52 2; telemetry_at 0.52 6]
              ++ flagged :: [telemetry_at 0.52 11]) in
  Racesafe.currentPhase (fst r) = Racesafe.POST_RACE /\
  count_events is_summary (snd r) = 1%nat /\
  Racesafe.mySessionIncidents (fst r) = 6.
Proof.
  assert (Hmon : monitoring racing_state) by (split; discriminate).
  assert (Hgreen : Forall not_checkered [telemetry_at 0.52 2; telemetry_at 0.52 6])
    by (repeat constructor).
  destruct (telemetry_after_checkered_ignored all_on never_throws racing_state
              [telemetry_at 0.52 2; telemetry_at 0.52 6] [telemetry_at 0.52 11]
              {| Racesafe.SessionFlags := Some 8; Racesafe.CarIdxLap := [];
                 Racesafe.CarIdxLapDistPct := []; Racesafe.CarIdxPosition := [];
                 Racesafe.CarIdxClassPosition := []; Racesafe.CarIdxOnPitRoad := [];
                 Racesafe.PlayerCarMyIncidentCount := Some 9 |}) as [_ Hrace].
  destruct (Hrace eq_refl Hmon Hgreen ltac:(discriminate)) as (_ & H2 & H3 & H4).
  cbv zeta. split; [exact H2 |]. split; [exact H3 |]. rewrite H4. reflexivity.
Defined.

(** ** The label and the approach of a field analysis *)

Section RiskLabel.
Import JS.

Lemma analyzeRaceGrid_recommendation client getRaceResults now sessionId userProfile r log :
  GridAnalysis.analyzeRaceGrid client getRaceResults now sessionId userProfile = inr (r, log) ->
  GridAnalysis.recommendation (GridAnalysis.analysis r) =
  GridAnalysis.generateGridRecommendation
    (GridAnalysis.overallRiskScore (GridAnalysis.analysis r))
    (GridAnalysis.highRiskDrivers (GridAnalysis.analysis r)) userProfile.
Proof.
  unfold GridAnalysis.analyzeRaceGrid.
  destruct (getRaceResults sessionId) as [e | [raceResults |]]; try discriminate.
  cbv zeta. intros [= <- _]. reflexivity.
Qed.

(** X29. The label that the formatted analysis gives the overall risk
    agrees with the approach it recommends: a HIGH RISK RACE is always
    CONSERVATIVE; a MODERATE RISK race is never AGGRESSIVE, and
    CONSERVATIVE exactly when the user's safety rating is less than 0.2
    above the goal or five or more drivers are high-risk; for a LOW RISK
    race the safety rating plays no part, and the approach follows the
    number of high-risk drivers alone. *)
Theorem risk_label_matches_recommendation
  (client : RiskAnalysis.IRacingClient)
  (getRaceResults : Z -> RiskAnalysis.FetchError + option GridAnalysis.RaceResults)
  (now sessionId : Z) (userProfile : GridAnalysis.UserProfile)
  (r : GridAnalysis.RaceSessionAnalysis) (log : list GridAnalysis.GridLog)
  (Hrun : GridAnalysis.analyzeRaceGrid client getRaceResults now sessionId userProfile
          = inr (r, log)) :
  let a := GridAnalysis.analysis r in
  let label := GridAnalysis.getRiskLabel (GridAnalysis.overallRiskScore a) in
  let high := GridAnalysis.highRiskDrivers a in
  (label = "HIGH RISK RACE"%string ->
   GridAnalysis.recommendation a = GridAnalysis.CONSERVATIVE) /\
  (label = "MODERATE RISK"%string ->
   GridAnalysis.recommendation a <> GridAnalysis.AGGRESSIVE /\
   (GridAnalysis.recommendation a = GridAnalysis.CONSERVATIVE <->
    (GridAnalysis.sr userProfile - GridAnalysis.srGoal userProfile < 0.2)%Q \/ 5 <= high)) /\
  (label = "LOW RISK"%string ->
   GridAnalysis.recommendation a =
     if high >=? 5 then GridAnalysis.CONSERVATIVE
     else if high >=? 3 then GridAnalysis.MODERATE
     else GridAnalysis.AGGRESSIVE).
Proof.
  cbv zeta. rewrite (analyzeRaceGrid_recommendation _ _ _ _ _ _ _ Hrun).
  unfold GridAnalysis.getRiskLabel, GridAnalysis.generateGridRecommendation. cbv zeta.
  set (score := GridAnalysis.overallRiskScore (GridAnalysis.analysis r)).
  set (high := GridAnalysis.highRiskDrivers (GridAnalysis.analysis r)).
  destruct (Qgeb_spec score 7) as [H7 | H7].
  - destruct (Qgeb_spec score 5) as [H5 | H5]; [| lra].
    split; [| split; discriminate].
    intros _. destruct (Qltb _ _); reflexivity.
  - destruct (Qgeb_spec score 5) as [H5 | H5].
    + split; [discriminate |]. split; [| discriminate]. intros _.
      destruct (Qltb_spec (GridAnalysis.sr userProfile - GridAnalysis.srGoal userProfile) 0.2)
        as [Hsr | Hsr]; cbn [andb orb].
      * split; [discriminate |]. split; [intros _; now left | reflexivity].
      * destruct (Z.geb_spec high 5) as [Hh | Hh].
        -- split; [discriminate |]. split; [intros _; now right | reflexivity].
        -- split; [discriminate |]. split; [discriminate |].
           intros [H | H]; [contradiction | lia].
    + split; [discriminate |]. split; [discriminate |]. intros _.
      rewrite andb_false_r. cbn [orb]. reflexivity.
Qed.

End RiskLabel.

Lemma risk_label_matches_recommendation_witness :
  exists r log,
    GridAnalysis.analyzeRaceGrid one_history_client (fun _ => inr (Some example_results))
      0 5000 example_user = inr (r, log) /\
    GridAnalysis.getRiskLabel (GridAnalysis.overallRiskScore (GridAnalysis.analysis r))
    = "MODERATE RISK"%string /\
    GridAnalysis.recommendation (GridAnalysis.analysis r) <> GridAnalysis.AGGRESSIVE.
Proof.
  eexists. eexists. split; [reflexivity |].
  pose proof (risk_label_matches_recommendation one_history_client
                (fun _ => inr (Some example_results)) 0 5000 example_user _ _ eq_refl)
    as (_ & H2 & _).
  split; [reflexivity |]. exact (proj1 (H2 eq_refl)).
Defined.
